(** * Bread-AI-Fiscal: the deterministic validator and calculator

    A shallow embedding of [src/fiscal_validator.py] (class [FiscalValidator])
    and [src/fiscal_calculator.py] (class [FiscalCalculator]), with the
    properties the specification states about them.

    Conventions of the embedding.
    - A Python [float] is an IEEE-754 binary64 value, modelled by the
      standard library's [spec_float] at precision 53 and exponent bound 1024;
      its arithmetic is [SFadd], [SFsub], [SFcompare] at that format.
    - A [decimal.Decimal] is a sign, a coefficient and an exponent, or an
      infinity or a quiet NaN; the operations follow the default context
      (28 significant digits, ROUND_HALF_EVEN, InvalidOperation and
      DivisionByZero trapped).  The exponent range of the context
      (|exponent| <= 999999) is out of reach of values that come from binary64
      inputs and is not modelled.
    - A [str] is a [string] (the UTF-8 bytes of the text); [str.lower],
      [str.upper] and the slice [s[:7]] agree with Python on ASCII text.
    - A [dict] read with [.get] is a record whose fields are of type [field]:
      the key is missing, holds [None], or holds a value of the type the
      extraction schema ([NotaFiscalExtract]) gives it: a string, a float, a
      dictionary, a list of dictionaries.  The branches of [_safe_float] and
      [_safe_decimal] that parse a numeral out of a string are not modelled.
    - A raised exception is the [Raise] outcome of the [result] monad.
    - The records returned to the caller are trees of type [value]
      (dictionaries keep insertion order).
    - The instance of [FiscalValidator] is the pair of lists [errors] and
      [warnings], passed to each method and returned by it.  The methods of
      [FiscalCalculator] are first defined over the rate table [__init__]
      builds, and then, in module [Calc], with the instance passed to each
      method and returned by it.
    - Calls to [logger] are not modelled. *)

From Stdlib Require Import ZArith List String Ascii Bool Lia.
From Stdlib Require Import SpecFloat.
From Stdlib Require Import Permutation.
Import ListNotations.

#[local] Open Scope list_scope.
#[local] Open Scope string_scope.
#[local] Open Scope Z_scope.

(** ** Outcomes: a returned value or a raised exception *)

Inductive exn : Type :=
| AttributeError        (* a method called on None *)
| TypeError             (* None iterated over or measured with len *)
| KeyError              (* a dictionary indexed at a key it lacks *)
| InvalidOperation      (* decimal.InvalidOperation, other than for 0/0 *)
| DivisionUndefined     (* decimal.InvalidOperation signalled for 0/0 *)
| DivisionByZero        (* decimal.DivisionByZero *)
| ZeroDivisionError.    (* division of a float or an int by zero *)

Inductive result (A : Type) : Type :=
| Ok (a : A)
| Raise (e : exn).

Arguments Ok {A} a.
Arguments Raise {A} e.

Definition bind {A B : Type} (m : result A) (k : A -> result B) : result B :=
  match m with
  | Ok a => k a
  | Raise e => Raise e
  end.

Notation "x <- m ;; k" := (bind m (fun x => k))
  (at level 61, m at next level, right associativity).
Notation "' p <- m ;; k" := (bind m (fun p => k))
  (at level 61, p pattern, m at next level, right associativity).

(** ** Decimal digits of integers *)

Fixpoint ndigits_fuel (fuel : nat) (n : Z) : Z :=
  match fuel with
  | O => 1
  | S f => if n <? 10 then 1 else 1 + ndigits_fuel f (n / 10)
  end.

(** [len(str(n))] for [n >= 0]. *)
Definition ndigits10 (n : Z) : Z :=
  ndigits_fuel (Z.to_nat (Z.log2 n)) n.

Definition digit_char (d : Z) : ascii :=
  ascii_of_nat (48 + Z.to_nat d).

Fixpoint digits_fuel (fuel : nat) (n : Z) (acc : string) : string :=
  match fuel with
  | O => String (digit_char (n mod 10)) acc
  | S f =>
      if n <? 10 then String (digit_char n) acc
      else digits_fuel f (n / 10) (String (digit_char (n mod 10)) acc)
  end.

(** [str(n)] for an int [n]. *)
Definition str_of_Z (n : Z) : string :=
  if n <? 0 then String "-" (digits_fuel (Z.to_nat (Z.log2 (- n))) (- n) "")
  else digits_fuel (Z.to_nat (Z.log2 n)) n "".

Definition str_of_nat (n : nat) : string := str_of_Z (Z.of_nat n).

Fixpoint repeat_char (c : ascii) (n : nat) : string :=
  match n with
  | O => ""
  | S k => String c (repeat_char c k)
  end.

(** ** binary64 *)

Module F64.

Definition t := spec_float.

Definition prec : Z := 53.
Definition emax : Z := 1024.

Definition valid (x : t) : bool := valid_binary prec emax x.

Definition add : t -> t -> t := SFadd prec emax.
Definition sub : t -> t -> t := SFsub prec emax.
Definition abs : t -> t := SFabs.
Definition ltb : t -> t -> bool := SFltb.
Definition leb : t -> t -> bool := SFleb.
Definition eqb : t -> t -> bool := SFeqb.
Definition gtb (x y : t) : bool := SFltb y x.
Definition is_nan (x : t) : bool :=
  match x with S754_nan => true | _ => false end.

Definition zero : t := S754_zero false.

(** The binary64 value nearest to [(-1)^s * n / d], ties to even: what
    [float(str)] returns for a decimal numeral. *)
Definition of_ratio (s : bool) (n d : positive) : t :=
  let '(q, e, l) := SFdiv_core_binary prec emax (Zpos n) 0 (Zpos d) 0 in
  binary_round_aux prec emax s q e l.

(** The binary64 value nearest to [(-1)^s * c * 10^e]. *)
Definition of_decimal (s : bool) (c : Z) (e : Z) : t :=
  match c with
  | Zpos p =>
      if 0 <=? e then of_ratio s (p * Z.to_pos (10 ^ e)) 1
      else of_ratio s p (Z.to_pos (10 ^ (- e)))
  | _ => S754_zero s
  end.

(** [float(n)] for a small int [n]. *)
Definition of_Z (n : Z) : t :=
  of_decimal (n <? 0) (Z.abs n) 0.

(** The numerator and denominator of a finite positive value [m * 2^e]. *)
Definition ratio_of (m : positive) (e : Z) : Z * Z :=
  if 0 <=? e then (Zpos m * 2 ^ e, 1) else (Zpos m, 2 ^ (- e)).

(** [decpt n d] is the [k] with [10^(k-1) <= n/d < 10^k]. *)
Definition decpt (n d : Z) : Z :=
  if d <=? n then ndigits10 (n / d) else 1 - ndigits10 ((d - 1) / n).

(** The candidates with [nd] significant digits around [n/d]: the
    truncation [lo], with the comparison of the discarded part against one
    half, in units of [10^(k - nd)]. *)
Definition candidate (n d k nd : Z) : Z * comparison :=
  let sh := k - nd in
  let '(a, b) := if 0 <=? sh then (n, d * 10 ^ sh) else (n * 10 ^ (- sh), d) in
  let lo := a / b in
  let r := a mod b in
  (lo, if r =? 0 then Lt else (2 * r ?= b)).

Definition round_trips (x : t) (c e : Z) : bool :=
  match x, of_decimal false c e with
  | S754_finite _ m ex, S754_finite _ m' ex' => Pos.eqb m m' && Z.eqb ex ex'
  | _, _ => false
  end.

(** The first number of digits, from [nd] on, at which a neighbour of
    [n/d] reads back as [x]; of two that do, the nearer, and the even one
    on a tie. *)
Fixpoint shortest_from (fuel : nat) (x : t) (n d k nd : Z) : Z * Z :=
  let '(lo, c) := candidate n d k nd in
  let e := k - nd in
  let ok_lo := round_trips x lo e in
  let ok_hi := round_trips x (lo + 1) e in
  let pick_lo := (lo, e) in
  let pick_hi := (lo + 1, e) in
  match fuel with
  | O => pick_lo
  | S f =>
      if ok_lo && ok_hi then
        match c with
        | Lt => pick_lo
        | Gt => pick_hi
        | Eq => if Z.even lo then pick_lo else pick_hi
        end
      else if ok_lo then pick_lo
      else if ok_hi then pick_hi
      else shortest_from f x n d k (nd + 1)
  end.

Fixpoint strip_zeros (fuel : nat) (c e : Z) : Z * Z :=
  match fuel with
  | O => (c, e)
  | S f => if (c mod 10 =? 0) && negb (c =? 0) then strip_zeros f (c / 10) (e + 1) else (c, e)
  end.

(** The shortest decimal [c * 10^e] (no trailing zero in [c]) that reads
    back as the finite positive value [m * 2^ex]. *)
Definition shortest (m : positive) (ex : Z) : Z * Z :=
  let '(n, d) := ratio_of m ex in
  let k := decpt n d in
  let '(c, e) := shortest_from 17 (S754_finite false m ex) n d k 1 in
  strip_zeros 18 c e.

End F64.

(** ** Formatting of binary64 values *)

(** [ds[:k] + "." + ds[k:]]. *)
Definition insert_point (ds : string) (k : nat) : string :=
  substring 0 k ds ++ "." ++ substring k (String.length ds - k) ds.

(** [repr(x)], which is also [str(x)] and [f'{x}']: the shortest numeral that
    reads back as [x], in exponent notation when the decimal point falls
    outside [-4 < decpt <= 16]. *)
Definition float_repr (x : F64.t) : string :=
  match x with
  | S754_nan => "nan"
  | S754_infinity s => if s then "-inf" else "inf"
  | S754_zero s => if s then "-0.0" else "0.0"
  | S754_finite s m ex =>
      let '(c, e) := F64.shortest m ex in
      let ds := str_of_Z c in
      let n := Z.of_nat (String.length ds) in
      let decpt := n + e in
      let body :=
        if (decpt <=? -4) || (16 <? decpt) then
          let x10 := decpt - 1 in
          let mant := if n =? 1 then ds else insert_point ds 1 in
          let es := str_of_Z (Z.abs x10) in
          mant ++ "e" ++ (if x10 <? 0 then "-" else "+")
               ++ (if Z.abs x10 <? 10 then "0" else "") ++ es
        else if decpt <=? 0 then
          "0." ++ repeat_char "0" (Z.to_nat (- decpt)) ++ ds
        else if n <=? decpt then
          ds ++ repeat_char "0" (Z.to_nat (decpt - n)) ++ ".0"
        else insert_point ds (Z.to_nat decpt)
      in
      if s then "-" ++ body else body
  end.

(** [f'{x:.2f}']: the exact value rounded to two decimals, ties to even. *)
Definition format_2f (x : F64.t) : string :=
  match x with
  | S754_nan => "nan"
  | S754_infinity s => if s then "-inf" else "inf"
  | S754_zero s => if s then "-0.00" else "0.00"
  | S754_finite s m ex =>
      let '(n, d) := F64.ratio_of m ex in
      let a := 100 * n in
      let q := a / d in
      let r := a mod d in
      let cents :=
        match 2 * r ?= d with
        | Lt => q
        | Gt => q + 1
        | Eq => if Z.even q then q else q + 1
        end in
      let frac := cents mod 100 in
      (if s then "-" else "") ++ str_of_Z (cents / 100) ++ "."
        ++ (if frac <? 10 then "0" else "") ++ str_of_Z frac
  end.

(** ** decimal.Decimal under the default context *)

Module Dec.

Inductive t : Type :=
| Fin (s : bool) (c : Z) (e : Z)   (* (-1)^s * c * 10^e, with 0 <= c *)
| Inf (s : bool)
| NaN.

Inductive rounding : Type := ROUND_HALF_EVEN | ROUND_HALF_UP.

Definition prec : Z := 28.

(** [Etiny] of the default context, the exponent of [x / Infinity]. *)
Definition Etiny : Z := -1000026.

(** [c / 10^k] rounded to an integer, for [0 < k]. *)
Definition round_div (r : rounding) (c k : Z) : Z :=
  let p := 10 ^ k in
  let q := c / p in
  match 2 * (c mod p) ?= p with
  | Lt => q
  | Gt => q + 1
  | Eq =>
      match r with
      | ROUND_HALF_UP => q + 1
      | ROUND_HALF_EVEN => if Z.even q then q else q + 1
      end
  end.

(** [Decimal._fix]: round to the precision of the context. *)
Definition fix_ (x : t) : t :=
  match x with
  | Fin s c e =>
      let n := ndigits10 c in
      if prec <? n then
        let k := n - prec in
        let c' := round_div ROUND_HALF_EVEN c k in
        if prec <? ndigits10 c' then Fin s (c' / 10) (e + k + 1)
        else Fin s c' (e + k)
      else x
  | _ => x
  end.

Definition signed (s : bool) (c : Z) : Z := if s then - c else c.

Definition mul (x y : t) : result t :=
  match x, y with
  | NaN, _ | _, NaN => Ok NaN
  | Inf s1, Inf s2 => Ok (Inf (xorb s1 s2))
  | Inf s1, Fin s2 c _ | Fin s1 c _, Inf s2 =>
      if c =? 0 then Raise InvalidOperation else Ok (Inf (xorb s1 s2))
  | Fin s1 c1 e1, Fin s2 c2 e2 =>
      Ok (fix_ (Fin (xorb s1 s2) (c1 * c2) (e1 + e2)))
  end.

Definition add (x y : t) : result t :=
  match x, y with
  | NaN, _ | _, NaN => Ok NaN
  | Inf s1, Inf s2 =>
      if Bool.eqb s1 s2 then Ok (Inf s1) else Raise InvalidOperation
  | Inf s, Fin _ _ _ | Fin _ _ _, Inf s => Ok (Inf s)
  | Fin s1 c1 e1, Fin s2 c2 e2 =>
      let e := Z.min e1 e2 in
      let a := signed s1 (c1 * 10 ^ (e1 - e)) + signed s2 (c2 * 10 ^ (e2 - e)) in
      let s := if a =? 0 then s1 && s2 else a <? 0 in
      Ok (fix_ (Fin s (Z.abs a) e))
  end.

Definition copy_negate (x : t) : t :=
  match x with
  | Fin s c e => Fin (negb s) c e
  | Inf s => Inf (negb s)
  | NaN => NaN
  end.

Definition sub (x y : t) : result t :=
  match x, y with
  | NaN, _ | _, NaN => Ok NaN
  | _, _ => add x (copy_negate y)
  end.

Fixpoint strip_to (fuel : nat) (c e ideal : Z) : Z * Z :=
  match fuel with
  | O => (c, e)
  | S f =>
      if (e <? ideal) && (c mod 10 =? 0) then strip_to f (c / 10) (e + 1) ideal
      else (c, e)
  end.

Definition truediv (x y : t) : result t :=
  match x, y with
  | NaN, _ | _, NaN => Ok NaN
  | Inf _, Inf _ => Raise InvalidOperation
  | Inf s1, Fin s2 _ _ => Ok (Inf (xorb s1 s2))
  | Fin s1 _ _, Inf s2 => Ok (Fin (xorb s1 s2) 0 Etiny)
  | Fin s1 c1 e1, Fin s2 c2 e2 =>
      let s := xorb s1 s2 in
      if c2 =? 0 then
        if c1 =? 0 then Raise DivisionUndefined else Raise DivisionByZero
      else if c1 =? 0 then Ok (fix_ (Fin s 0 (e1 - e2)))
      else
        let shift := ndigits10 c2 - ndigits10 c1 + prec + 1 in
        let e := e1 - e2 - shift in
        let '(n, d) :=
          if 0 <=? shift then (c1 * 10 ^ shift, c2) else (c1, c2 * 10 ^ (- shift)) in
        let q := n / d in
        if n mod d =? 0 then
          let '(q', e') := strip_to (Z.to_nat (Z.log2 q)) q e (e1 - e2) in
          Ok (fix_ (Fin s q' e'))
        else
          Ok (fix_ (Fin s (if q mod 5 =? 0 then q + 1 else q) e))
  end.

(** [x.quantize(Decimal(1).scaleb(qe), rounding=r)]. *)
Definition quantize (r : rounding) (x : t) (qe : Z) : result t :=
  match x with
  | NaN => Ok NaN
  | Inf _ => Raise InvalidOperation
  | Fin s c e =>
      if c =? 0 then Ok (Fin s 0 qe)
      else if prec <? ndigits10 c + e - qe then Raise InvalidOperation
      else
        let c' := if qe <=? e then c * 10 ^ (e - qe) else round_div r c (qe - e) in
        if prec <? ndigits10 c' then Raise InvalidOperation
        else Ok (Fin s c' qe)
  end.

(** [round(x, 2)]: [quantize] with the rounding of the context. *)
Definition round2 (x : t) : result t := quantize ROUND_HALF_EVEN x (-2).

(** [x.quantize(Decimal('0.01'), rounding=ROUND_HALF_UP)]. *)
Definition quantize_cents (x : t) : result t := quantize ROUND_HALF_UP x (-2).

(** The order of two values that are not NaN. *)
Definition cmp (x y : t) : comparison :=
  match x, y with
  | Inf s1, Inf s2 =>
      if Bool.eqb s1 s2 then Eq else if s1 then Lt else Gt
  | Inf s, _ => if s then Lt else Gt
  | _, Inf s => if s then Gt else Lt
  | Fin s1 c1 e1, Fin s2 c2 e2 =>
      let e := Z.min e1 e2 in
      signed s1 (c1 * 10 ^ (e1 - e)) ?= signed s2 (c2 * 10 ^ (e2 - e))
  | _, _ => Eq
  end.

(** [x > y] and [x < y]: an ordering comparison with a NaN raises. *)
Definition gt (x y : t) : result bool :=
  match x, y with
  | NaN, _ | _, NaN => Raise InvalidOperation
  | _, _ => Ok (match cmp x y with Gt => true | _ => false end)
  end.

Definition lt (x y : t) : result bool := gt y x.

(** [abs(x)]. *)
Definition abs (x : t) : t :=
  match x with
  | Fin _ c e => fix_ (Fin false c e)
  | Inf _ => Inf false
  | NaN => NaN
  end.

(** The builtin [max(x, y)] on two Decimals: [y] when [y > x], else [x]. *)
Definition max (x y : t) : result t :=
  b <- gt y x ;; Ok (if b then y else x).

(** [float(x)]. *)
Definition to_float (x : t) : F64.t :=
  match x with
  | Fin s c e => F64.of_decimal s c e
  | Inf s => S754_infinity s
  | NaN => S754_nan
  end.

(** [Decimal(str(x))] for a float [x]: the coefficient and exponent of
    the numeral [repr(x)]. *)
Definition of_float (x : F64.t) : t :=
  match x with
  | S754_nan => NaN
  | S754_infinity s => Inf s
  | S754_zero s => Fin s 0 (-1)
  | S754_finite s m ex =>
      let '(c, e) := F64.shortest m ex in
      let decpt := ndigits10 c + e in
      if (decpt <=? -4) || (16 <? decpt) then Fin s c e
      else if 0 <=? e then Fin s (c * 10 ^ (e + 1)) (-1)
      else Fin s c e
  end.

(** [Decimal(str(n))] for an int [n]. *)
Definition of_Z (n : Z) : t := Fin (n <? 0) (Z.abs n) 0.

Definition zero : t := Fin false 0 0.          (* Decimal('0') *)
Definition hundred : t := Fin false 100 0.     (* Decimal('100') *)

End Dec.

(** ** Values returned to the caller *)

#[local] Unset Elimination Schemes.
Inductive value : Type :=
| VNone
| VBool (b : bool)
| VInt (z : Z)
| VFloat (f : F64.t)
| VStr (s : string)
| VList (l : list value)
| VDict (d : list (string * value)).
#[local] Set Elimination Schemes.

Definition dict := list (string * value).

Fixpoint dict_get (d : dict) (k : string) : option value :=
  match d with
  | [] => None
  | (k', v) :: d' => if String.eqb k k' then Some v else dict_get d' k
  end.

(** Reading through nested dictionaries, [d[k1][k2]...]. *)
Fixpoint path_get (v : value) (ks : list string) : option value :=
  match ks with
  | [] => Some v
  | k :: ks' =>
      match v with
      | VDict d =>
          match dict_get d k with
          | Some v' => path_get v' ks'
          | None => None
          end
      | _ => None
      end
  end.

Definition VOptStr (o : option string) : value :=
  match o with
  | Some s => VStr s
  | None => VNone
  end.

(** ** Strings *)

Definition is_digit (c : ascii) : bool :=
  let n := nat_of_ascii c in (48 <=? n)%nat && (n <=? 57)%nat.

(** [re.sub(r'[^0-9]', '', s)] *)
Fixpoint only_digits (s : string) : string :=
  match s with
  | EmptyString => EmptyString
  | String c s' => if is_digit c then String c (only_digits s') else only_digits s'
  end.

(** [int(c)] for a digit character [c]. *)
Definition int_of_char (c : ascii) : Z := Z.of_nat (nat_of_ascii c) - 48.

(** [int(s[i])] *)
Definition digit_at (s : string) (i : nat) : Z :=
  match String.get i s with
  | Some c => int_of_char c
  | None => 0
  end.

Definition lower_char (c : ascii) : ascii :=
  let n := nat_of_ascii c in
  if (65 <=? n)%nat && (n <=? 90)%nat then ascii_of_nat (n + 32) else c.

Definition upper_char (c : ascii) : ascii :=
  let n := nat_of_ascii c in
  if (97 <=? n)%nat && (n <=? 122)%nat then ascii_of_nat (n - 32) else c.

Fixpoint map_string (f : ascii -> ascii) (s : string) : string :=
  match s with
  | EmptyString => EmptyString
  | String c s' => String (f c) (map_string f s')
  end.

Definition lower : string -> string := map_string lower_char.
Definition upper : string -> string := map_string upper_char.

(** Truth value of a string: [bool(s)]. *)
Definition truthy (s : string) : bool :=
  match s with
  | EmptyString => false
  | _ => true
  end.

(** [[d * n for d in '0123456789']] *)
Definition repeated_digits (n : nat) : list string :=
  map (fun d => repeat_char d n) (list_ascii_of_string "0123456789").

Definition str_in (s : string) (l : list string) : bool :=
  existsb (String.eqb s) l.

(** ** Identifier validators *)

(** [sum(int(s[i]) * w[i] for i in range(n))] *)
Definition weighted_sum (s : string) (w : list Z) (n : nat) : Z :=
  fold_left (fun acc i => acc + digit_at s i * nth i w 0) (seq 0 n) 0.

(** [0 if remainder < 2 else 11 - remainder] *)
Definition mod11_digit (sum : Z) : Z :=
  let remainder := sum mod 11 in
  if remainder <? 2 then 0 else 11 - remainder.

Definition weight_1 : list Z := [5; 4; 3; 2; 9; 8; 7; 6; 5; 4; 3; 2].
Definition weight_2 : list Z := [6; 5; 4; 3; 2; 9; 8; 7; 6; 5; 4; 3; 2].

Definition validate_cnpj (cnpj : string) : bool * string :=
  let cnpj_clean := only_digits cnpj in
  if negb (String.length cnpj_clean =? 14)%nat then
    (false, "CNPJ deve ter 14 dígitos (encontrado: "
              ++ str_of_nat (String.length cnpj_clean) ++ ")")
  else if str_in cnpj_clean (repeated_digits 14) then
    (false, "CNPJ com todos os dígitos iguais é inválido")
  else
    let sum_1 := weighted_sum cnpj_clean weight_1 12 in
    let digit_1 := mod11_digit sum_1 in
    if negb (digit_at cnpj_clean 12 =? digit_1) then
      (false, "Primeiro dígito verificador inválido")
    else
      let sum_2 := weighted_sum cnpj_clean weight_2 13 in
      let digit_2 := mod11_digit sum_2 in
      if negb (digit_at cnpj_clean 13 =? digit_2) then
        (false, "Segundo dígito verificador inválido")
      else (true, "CNPJ válido").

(** [sum(int(s[i]) * (top - i) for i in range(n))] *)
Definition descending_sum (s : string) (top : Z) (n : nat) : Z :=
  fold_left (fun acc i => acc + digit_at s i * (top - Z.of_nat i)) (seq 0 n) 0.

Definition validate_cpf (cpf : string) : bool * string :=
  let cpf_clean := only_digits cpf in
  if negb (String.length cpf_clean =? 11)%nat then
    (false, "CPF deve ter 11 dígitos (encontrado: "
              ++ str_of_nat (String.length cpf_clean) ++ ")")
  else if str_in cpf_clean (repeated_digits 11) then
    (false, "CPF com todos os dígitos iguais é inválido")
  else
    let sum_1 := descending_sum cpf_clean 10 9 in
    let digit_1 := mod11_digit sum_1 in
    if negb (digit_at cpf_clean 9 =? digit_1) then
      (false, "Primeiro dígito verificador inválido")
    else
      let sum_2 := descending_sum cpf_clean 11 10 in
      let digit_2 := mod11_digit sum_2 in
      if negb (digit_at cpf_clean 10 =? digit_2) then
        (false, "Segundo dígito verificador inválido")
      else (true, "CPF válido").

(** [list(range(2, 10)) * 5 + [2, 3, 4]] *)
Definition chave_weights : list Z :=
  (List.concat (List.repeat [2; 3; 4; 5; 6; 7; 8; 9] 5%nat) ++ [2; 3; 4])%list.

(** [sum(int(chave_clean[i]) * weights[42 - i] for i in range(43))] *)
Definition chave_sum (chave_clean : string) : Z :=
  fold_left (fun acc i => acc + digit_at chave_clean i * nth (42 - i) chave_weights 0)
            (seq 0 43) 0.

(** [0 if remainder in [0, 1] else 11 - remainder] *)
Definition chave_expected_dv (chave_clean : string) : Z :=
  let remainder := chave_sum chave_clean mod 11 in
  if (remainder =? 0) || (remainder =? 1) then 0 else 11 - remainder.

Definition chave_details (chave_clean : string) : list (string * string) :=
  [ ("uf", substring 0 2 chave_clean);
    ("ano_mes", substring 2 4 chave_clean);
    ("cnpj", substring 6 14 chave_clean);
    ("modelo", substring 20 2 chave_clean);
    ("serie", substring 22 3 chave_clean);
    ("numero", substring 25 9 chave_clean);
    ("tipo_emissao", substring 34 1 chave_clean);
    ("codigo", substring 35 8 chave_clean);
    ("dv", substring 43 1 chave_clean) ].

Definition validate_chave_acesso (chave : string)
  : bool * string * list (string * string) :=
  let chave_clean := only_digits chave in
  if negb (String.length chave_clean =? 44)%nat then
    (false, "Chave deve ter 44 dígitos (encontrado: "
              ++ str_of_nat (String.length chave_clean) ++ ")", [])
  else
    let details := chave_details chave_clean in
    let expected_dv := chave_expected_dv chave_clean in
    if negb (digit_at chave_clean 43 =? expected_dv) then
      (false, "Dígito verificador inválido (esperado: " ++ str_of_Z expected_dv ++ ")",
       details)
    else (true, "Chave de acesso válida", details).

Definition validate_ncm (ncm : string) : bool * string :=
  let ncm_clean := if truthy ncm then only_digits ncm else "" in
  if negb (String.length ncm_clean =? 8)%nat then
    (false, "NCM deve ter 8 dígitos (encontrado: "
              ++ str_of_nat (String.length ncm_clean) ++ ")")
  else (true, "NCM válido").

Definition cfop_details (tipo_operacao natureza : string) : list (string * string) :=
  [ ("tipo_operacao", tipo_operacao); ("natureza", natureza) ].

Definition validate_cfop (cfop : string) : bool * string * list (string * string) :=
  let cfop_clean := if truthy cfop then only_digits cfop else "" in
  if negb (String.length cfop_clean =? 4)%nat then
    (false, "CFOP deve ter 4 dígitos (encontrado: "
              ++ str_of_nat (String.length cfop_clean) ++ ")", [])
  else
    let primeiro_digito := substring 0 1 cfop_clean in
    if str_in primeiro_digito ["1"; "2"; "3"] then
      (true, "CFOP válido",
       cfop_details "entrada"
         (if String.eqb primeiro_digito "1" then "entrada_dentro_estado"
          else if String.eqb primeiro_digito "2" then "entrada_outros_estados"
          else "entrada_exterior"))
    else if str_in primeiro_digito ["5"; "6"; "7"] then
      (true, "CFOP válido",
       cfop_details "saida"
         (if String.eqb primeiro_digito "5" then "saida_dentro_estado"
          else if String.eqb primeiro_digito "6" then "saida_outros_estados"
          else "saida_exterior"))
    else
      (false, "Primeiro dígito do CFOP inválido: " ++ primeiro_digito,
       cfop_details "" "").

(** ** The invoice record

    The dictionaries the entry points read, with the keys they read.  The
    sections and leaves are those of the extraction schema; the rate and
    tax-base keys of [totais] and the key [uf] of [emitente] are read by the
    validator although the schema does not declare them. *)

Inductive field (A : Type) : Type :=
| Missing            (* the key is not in the dictionary *)
| Null               (* the key holds None *)
| Given (a : A).

Arguments Missing {A}.
Arguments Null {A}.
Arguments Given {A} a.

(** [d.get(k)] *)
Definition get {A : Type} (f : field A) : option A :=
  match f with
  | Given a => Some a
  | _ => None
  end.

(** [d.get(k, default)] *)
Definition get_or {A : Type} (f : field A) (default : A) : option A :=
  match f with
  | Missing => Some default
  | Null => None
  | Given a => Some a
  end.

(** [d.get(k) is None] *)
Definition is_none {A : Type} (f : field A) : bool :=
  match f with
  | Given _ => false
  | _ => true
  end.

Record Endereco : Type := {
  end_uf : field string
}.

Record Identificacao : Type := {
  chave_acesso : field string;
  tipo_operacao : field string;
  data_emissao : field string
}.

Record Emitente : Type := {
  emit_cnpj : field string;
  razao_social : field string;
  emit_uf : field string;
  emit_endereco : field Endereco
}.

Record Destinatario : Type := {
  documento : field string;
  tipo_documento : field string;
  dest_endereco : field Endereco
}.

Record Impostos : Type := {
  icms : field F64.t;
  pis : field F64.t;
  cofins : field F64.t
}.

Record Produto : Type := {
  codigo : field string;
  descricao : field string;
  ncm : field string;
  cfop : field string;
  quantidade : field F64.t;
  valor_unitario : field F64.t;
  valor_total : field F64.t;
  impostos : field Impostos
}.

Record Totais : Type := {
  valor_produtos : field F64.t;
  valor_total_nf : field F64.t;
  base_calculo_icms : field F64.t;
  valor_icms : field F64.t;
  aliquota_icms : field F64.t;
  valor_ipi : field F64.t;
  base_calculo_pis : field F64.t;
  valor_pis : field F64.t;
  aliquota_pis : field F64.t;
  base_calculo_cofins : field F64.t;
  valor_cofins : field F64.t;
  aliquota_cofins : field F64.t
}.

Record Invoice : Type := {
  identificacao : field Identificacao;
  emitente : field Emitente;
  destinatario : field Destinatario;
  produtos : field (list Produto);
  totais : field Totais
}.

(** The empty dictionary [{}] at each section. *)
Definition no_identificacao : Identificacao :=
  {| chave_acesso := Missing; tipo_operacao := Missing; data_emissao := Missing |}.
Definition no_emitente : Emitente :=
  {| emit_cnpj := Missing; razao_social := Missing; emit_uf := Missing;
     emit_endereco := Missing |}.
Definition no_destinatario : Destinatario :=
  {| documento := Missing; tipo_documento := Missing; dest_endereco := Missing |}.
Definition no_impostos : Impostos :=
  {| icms := Missing; pis := Missing; cofins := Missing |}.
Definition no_totais : Totais :=
  {| valor_produtos := Missing; valor_total_nf := Missing;
     base_calculo_icms := Missing; valor_icms := Missing; aliquota_icms := Missing;
     valor_ipi := Missing; base_calculo_pis := Missing; valor_pis := Missing;
     aliquota_pis := Missing; base_calculo_cofins := Missing;
     valor_cofins := Missing; aliquota_cofins := Missing |}.

(** [d = invoice_data.get(k, {})] followed by a [d.get]: a section that
    holds None has no [get]. *)
Definition section {A : Type} (f : field A) (empty : A) : result A :=
  match f with
  | Missing => Ok empty
  | Null => Raise AttributeError
  | Given a => Ok a
  end.

(** [l = invoice_data.get('produtos', [])] followed by an iteration or a
    [len]: None is neither iterable nor sized. *)
Definition listing {A : Type} (f : field (list A)) : result (list A) :=
  match f with
  | Missing => Ok []
  | Null => Raise TypeError
  | Given l => Ok l
  end.

(** [f'{s}'] for a string or None. *)
Definition fmt (o : option string) : string :=
  match o with
  | Some s => s
  | None => "None"
  end.

(** ** Arithmetic validators *)

(** Float literals of the source, read as Python reads them. *)
Definition lit (c e : Z) : F64.t := F64.of_decimal false c e.

Definition tolerance_default : F64.t := Eval vm_compute in lit 2 (-2).   (* 0.02 *)

(** [_safe_float(value, default)] on a float or None. *)
Definition _safe_float (value : option F64.t) (default : F64.t) : F64.t :=
  match value with
  | None => default
  | Some x => x
  end.

(** [details[k]] where a float is expected. *)
Definition item_float (details : dict) (k : string) : result F64.t :=
  match dict_get details k with
  | Some (VFloat x) => Ok x
  | Some _ => Raise TypeError
  | None => Raise KeyError
  end.

Definition validate_product_calculation
    (quantidade valor_unitario valor_total : option F64.t)
    (produto_desc : option string) (tolerance : F64.t)
  : result (bool * string * dict) :=
  let quantidade := _safe_float quantidade F64.zero in
  let valor_unitario := _safe_float valor_unitario F64.zero in
  let valor_total := _safe_float valor_total F64.zero in
  product <- Dec.mul (Dec.of_float quantidade) (Dec.of_float valor_unitario) ;;
  expected_total <- Dec.round2 product ;;
  let expected_total := Dec.to_float expected_total in
  let difference := F64.abs (F64.sub expected_total valor_total) in
  let details :=
    [ ("quantidade", VFloat quantidade);
      ("valor_unitario", VFloat valor_unitario);
      ("valor_declarado", VFloat valor_total);
      ("valor_calculado", VFloat expected_total);
      ("diferenca", VFloat difference) ] in
  if F64.gtb difference tolerance then
    Ok (false,
        fmt produto_desc ++ ": Valor total incorreto (esperado: R$ "
          ++ format_2f expected_total ++ ", declarado: R$ "
          ++ format_2f valor_total ++ ")",
        details)
  else Ok (true, fmt produto_desc ++ ": Cálculo correto", details).

Definition validate_tax_calculation
    (base_calculo aliquota valor_imposto : option F64.t)
    (tipo_imposto : string) (tolerance : F64.t)
  : result (bool * string * dict) :=
  let base_calculo := _safe_float base_calculo F64.zero in
  let aliquota := _safe_float aliquota F64.zero in
  let valor_imposto := _safe_float valor_imposto F64.zero in
  if F64.eqb base_calculo F64.zero then
    if F64.eqb valor_imposto F64.zero then
      Ok (true, tipo_imposto ++ ": Sem base de cálculo (correto)", [])
    else
      Ok (false, tipo_imposto ++ ": Base zero mas imposto declarado", [])
  else
    product <- Dec.mul (Dec.of_float base_calculo) (Dec.of_float aliquota) ;;
    quotient <- Dec.truediv product Dec.hundred ;;
    expected_tax <- Dec.round2 quotient ;;
    let expected_tax := Dec.to_float expected_tax in
    let difference := F64.abs (F64.sub expected_tax valor_imposto) in
    let details :=
      [ ("base_calculo", VFloat base_calculo);
        ("aliquota", VFloat aliquota);
        ("valor_calculado", VFloat expected_tax);
        ("valor_declarado", VFloat valor_imposto);
        ("diferenca", VFloat difference) ] in
    if F64.gtb difference tolerance then
      Ok (false,
          tipo_imposto ++ ": Valor incorreto (esperado: R$ "
            ++ format_2f expected_tax ++ ", declarado: R$ "
            ++ format_2f valor_imposto ++ ")",
          details)
    else Ok (true, tipo_imposto ++ ": Cálculo correto", details).

Definition validate_total_sum
    (items_total declared_total : option F64.t)
    (field_name : string) (tolerance : F64.t)
  : bool * string * dict :=
  let items_total := _safe_float items_total F64.zero in
  let declared_total := _safe_float declared_total F64.zero in
  let difference := F64.abs (F64.sub items_total declared_total) in
  let details :=
    [ ("soma_calculada", VFloat items_total);
      ("total_declarado", VFloat declared_total);
      ("diferenca", VFloat difference) ] in
  if F64.gtb difference tolerance then
    (false,
     field_name ++ ": Soma incorreta (calculado: R$ "
       ++ format_2f items_total ++ ", declarado: R$ "
       ++ format_2f declared_total ++ ")",
     details)
  else (true, field_name ++ ": Soma correta", details).

(** ** The validator's rate table, [self.tax_rates] *)

Definition pis_padrao : F64.t := Eval vm_compute in lit 165 (-2).       (* 1.65 *)
Definition cofins_padrao : F64.t := Eval vm_compute in lit 76 (-1).     (* 7.6 *)
Definition pis_cumulativo : F64.t := Eval vm_compute in lit 65 (-2).    (* 0.65 *)
Definition cofins_cumulativo : F64.t := Eval vm_compute in lit 30 (-1). (* 3.0 *)

Definition icms_interno : list (string * F64.t) :=
  Eval vm_compute in
  [ ("PR", lit 195 (-1)); ("SC", lit 170 (-1)); ("RS", lit 170 (-1));
    ("SP", lit 180 (-1)); ("RJ", lit 200 (-1)); ("MG", lit 180 (-1));
    ("ES", lit 170 (-1)); ("AC", lit 190 (-1)); ("AM", lit 200 (-1));
    ("AP", lit 180 (-1)); ("PA", lit 190 (-1)); ("RO", lit 195 (-1));
    ("RR", lit 200 (-1)); ("TO", lit 200 (-1)); ("AL", lit 190 (-1));
    ("BA", lit 205 (-1)); ("CE", lit 200 (-1)); ("MA", lit 230 (-1));
    ("PB", lit 200 (-1)); ("PE", lit 205 (-1)); ("PI", lit 225 (-1));
    ("RN", lit 200 (-1)); ("SE", lit 180 (-1)); ("DF", lit 200 (-1));
    ("GO", lit 190 (-1)); ("MT", lit 170 (-1)); ("MS", lit 170 (-1));
    ("default", lit 180 (-1)) ].

Definition icms_interestadual : list (string * F64.t) :=
  Eval vm_compute in
  [ ("sul_sudeste", lit 120 (-1)); ("outras_regioes", lit 70 (-1)) ].

Fixpoint lookup {A : Type} (k : string) (l : list (string * A)) : option A :=
  match l with
  | [] => None
  | (k', v) :: l' => if String.eqb k k' then Some v else lookup k l'
  end.

Definition lookup_or {A : Type} (k : string) (l : list (string * A)) (default : A) : A :=
  match lookup k l with
  | Some v => v
  | None => default
  end.

Definition get_icms_aliquota (uf operacao_tipo : string) : F64.t :=
  if String.eqb operacao_tipo "interno" then
    lookup_or (upper uf) icms_interno (lookup_or "default" icms_interno F64.zero)
  else lookup_or "sul_sudeste" icms_interestadual F64.zero.

(** ** The validator instance and its findings *)

Record ValidationError : Type := {
  severity : string;
  category : string;
  field_path : string;          (* the attribute [field] *)
  description : string;
  current_value : option string;
  expected_value : option string;
  suggestion : option string
}.

Definition to_dict (e : ValidationError) : value :=
  VDict [ ("severity", VStr (severity e));
          ("category", VStr (category e));
          ("field", VStr (field_path e));
          ("description", VStr (description e));
          ("current_value", VOptStr (current_value e));
          ("expected_value", VOptStr (expected_value e));
          ("suggestion", VOptStr (suggestion e)) ].

(** The mutable attributes of a [FiscalValidator]. *)
Record FiscalValidator : Type := {
  errors : list ValidationError;
  warnings : list ValidationError
}.

(** [self.errors.append(e)] *)
Definition append_error (self : FiscalValidator) (e : ValidationError) : FiscalValidator :=
  {| errors := (errors self ++ [e])%list; warnings := warnings self |}.

(** [self.warnings.append(e)] *)
Definition append_warning (self : FiscalValidator) (e : ValidationError) : FiscalValidator :=
  {| errors := errors self; warnings := (warnings self ++ [e])%list |}.

Definition truthy_opt (o : option string) : bool :=
  match o with
  | Some s => truthy s
  | None => false
  end.

Definition opt_eqb (o : option string) (s : string) : bool :=
  match o with
  | Some s' => String.eqb s' s
  | None => false
  end.

Definition documento_error (sev msg documento suggestion_ : string) : ValidationError :=
  {| severity := sev; category := "documento";
     field_path := "destinatario.documento"; description := msg;
     current_value := Some documento; expected_value := None;
     suggestion := Some suggestion_ |}.

Definition cnpj_hint : string := "Verifique se o CNPJ está correto".
Definition cpf_hint : string := "Verifique se o CPF está correto".

Definition _validate_documents (self : FiscalValidator) (invoice_data : Invoice)
  : result FiscalValidator :=
  emitente <- section (emitente invoice_data) no_emitente ;;
  let self :=
    match get (emit_cnpj emitente) with
    | Some cnpj =>
        if truthy cnpj then
          let '(valid, msg) := validate_cnpj cnpj in
          if negb valid then
            append_error self
              {| severity := "critico"; category := "documento";
                 field_path := "emitente.cnpj"; description := msg;
                 current_value := Some cnpj; expected_value := None;
                 suggestion := Some cnpj_hint |}
          else self
        else self
    | None => self
    end in
  destinatario <- section (destinatario invoice_data) no_destinatario ;;
  let tipo_doc := get_or (tipo_documento destinatario) "" in
  let tipo_doc := if truthy_opt tipo_doc then option_map lower tipo_doc else tipo_doc in
  let documento := get_or (documento destinatario) "" in
  let self :=
    match documento with
    | Some doc =>
        if opt_eqb tipo_doc "cnpj" && truthy doc then
          let '(valid, msg) := validate_cnpj doc in
          if negb valid then append_error self (documento_error "critico" msg doc cnpj_hint)
          else self
        else if opt_eqb tipo_doc "cpf" && truthy doc then
          let '(valid, msg) := validate_cpf doc in
          if negb valid then append_error self (documento_error "erro" msg doc cpf_hint)
          else self
        else if truthy doc && negb (truthy_opt tipo_doc) then
          let doc_clean := only_digits doc in
          if (String.length doc_clean =? 14)%nat then
            let '(valid, msg) := validate_cnpj doc in
            if negb valid then append_error self (documento_error "critico" msg doc cnpj_hint)
            else self
          else if (String.length doc_clean =? 11)%nat then
            let '(valid, msg) := validate_cpf doc in
            if negb valid then append_error self (documento_error "erro" msg doc cpf_hint)
            else self
          else self
        else self
    | None => self
    end in
  identificacao <- section (identificacao invoice_data) no_identificacao ;;
  match get (chave_acesso identificacao) with
  | None =>
      Ok (append_warning self
            {| severity := "aviso"; category := "identificacao";
               field_path := "identificacao.chave_acesso";
               description := "Chave de acesso não informada";
               current_value := Some "None"; expected_value := Some "44 dígitos";
               suggestion := Some "Informe a chave de acesso da NF-e" |})
  | Some chave =>
      if truthy chave then
        let '(valid, msg, details) := validate_chave_acesso chave in
        if negb valid then
          Ok (append_error self
                {| severity := "critico"; category := "identificacao";
                   field_path := "identificacao.chave_acesso"; description := msg;
                   current_value := Some chave; expected_value := None;
                   suggestion := Some "Verifique a chave de acesso da NF-e" |})
        else Ok self
      else Ok self
  end.

(** [f'produtos[{i}].{name}'] *)
Definition produto_path (i : nat) (name : string) : string :=
  "produtos[" ++ str_of_nat i ++ "]." ++ name.

Definition fiscal_codes_of (self : FiscalValidator) (i : nat) (produto : Produto)
  : FiscalValidator :=
  let self :=
    match get (ncm produto) with
    | None =>
        append_warning self
          {| severity := "aviso"; category := "codigo_fiscal";
             field_path := produto_path i "ncm"; description := "NCM não informado";
             current_value := Some "None"; expected_value := Some "8 dígitos";
             suggestion := Some "Informe o código NCM do produto" |}
    | Some ncm =>
        if truthy ncm then
          let '(valid, msg) := validate_ncm ncm in
          if negb valid then
            append_warning self
              {| severity := "aviso"; category := "codigo_fiscal";
                 field_path := produto_path i "ncm"; description := msg;
                 current_value := Some ncm; expected_value := Some "8 dígitos";
                 suggestion := Some "Verifique o código NCM do produto" |}
          else self
        else self
    end in
  match get (cfop produto) with
  | None =>
      append_warning self
        {| severity := "aviso"; category := "codigo_fiscal";
           field_path := produto_path i "cfop"; description := "CFOP não informado";
           current_value := Some "None"; expected_value := Some "4 dígitos";
           suggestion := Some "Informe o código CFOP da operação" |}
  | Some cfop =>
      if truthy cfop then
        let '(valid, msg, details) := validate_cfop cfop in
        if negb valid then
          append_error self
            {| severity := "erro"; category := "codigo_fiscal";
               field_path := produto_path i "cfop"; description := msg;
               current_value := Some cfop; expected_value := Some "4 dígitos";
               suggestion := Some "Verifique o código CFOP" |}
        else self
      else self
  end.

(** [for i, produto in enumerate(produtos)], from index [i] on. *)
Fixpoint fiscal_codes_loop (self : FiscalValidator) (i : nat) (produtos : list Produto)
  : FiscalValidator :=
  match produtos with
  | [] => self
  | produto :: rest => fiscal_codes_loop (fiscal_codes_of self i produto) (S i) rest
  end.

Definition _validate_fiscal_codes (self : FiscalValidator) (invoice_data : Invoice)
  : result FiscalValidator :=
  produtos <- listing (produtos invoice_data) ;;
  Ok (fiscal_codes_loop self 0 produtos).

(** [qtd > 0 or val_unit > 0 or val_total > 0] *)
Definition line_is_checked (qtd val_unit val_total : F64.t) : bool :=
  F64.gtb qtd F64.zero || F64.gtb val_unit F64.zero || F64.gtb val_total F64.zero.

Definition products_calculation_of (self : FiscalValidator) (i : nat) (produto : Produto)
  : result FiscalValidator :=
  let qtd := _safe_float (get (quantidade produto)) F64.zero in
  let val_unit := _safe_float (get (valor_unitario produto)) F64.zero in
  let val_total := _safe_float (get (valor_total produto)) F64.zero in
  let desc := get_or (descricao produto) ("Produto " ++ str_of_nat (i + 1)) in
  if line_is_checked qtd val_unit val_total then
    '(valid, msg, details) <-
       validate_product_calculation (Some qtd) (Some val_unit) (Some val_total)
         desc tolerance_default ;;
    if negb valid then
      valor_calculado <- item_float details "valor_calculado" ;;
      Ok (append_error self
            {| severity := "erro"; category := "calculo";
               field_path := produto_path i "valor_total"; description := msg;
               current_value := Some ("R$ " ++ format_2f val_total);
               expected_value := Some ("R$ " ++ format_2f valor_calculado);
               suggestion :=
                 Some ("Corrija o valor total para R$ " ++ format_2f valor_calculado) |})
    else Ok self
  else Ok self.

Fixpoint products_calculations_loop (self : FiscalValidator) (i : nat)
    (produtos : list Produto) : result FiscalValidator :=
  match produtos with
  | [] => Ok self
  | produto :: rest =>
      self' <- products_calculation_of self i produto ;;
      products_calculations_loop self' (S i) rest
  end.

Definition _validate_products_calculations (self : FiscalValidator) (invoice_data : Invoice)
  : result FiscalValidator :=
  produtos <- listing (produtos invoice_data) ;;
  products_calculations_loop self 0 produtos.

Definition imposto_error (path msg : string) (valor valor_calculado : F64.t)
    (suggestion_ : string) : ValidationError :=
  {| severity := "erro"; category := "imposto"; field_path := path;
     description := msg;
     current_value := Some ("R$ " ++ format_2f valor);
     expected_value := Some ("R$ " ++ format_2f valor_calculado);
     suggestion := Some suggestion_ |}.

Definition seven : F64.t := Eval vm_compute in F64.of_Z 7.
Definition twenty_five : F64.t := Eval vm_compute in F64.of_Z 25.

(** [x in l] for floats: equality as [==] decides it. *)
Definition float_in (x : F64.t) (l : list F64.t) : bool :=
  existsb (F64.eqb x) l.

(** The PIS and COFINS blocks of [_validate_tax_calculations], which differ
    in their names and rates only. *)
Definition contribution_check (self : FiscalValidator)
    (base valor aliquota : F64.t) (padrao : F64.t) (accepted : list F64.t)
    (nome path_valor path_aliquota hint_valor esperado hint_aliquota : string)
  : result FiscalValidator :=
  if F64.gtb base F64.zero && F64.gtb valor F64.zero then
    let aliquota := if F64.eqb aliquota F64.zero then padrao else aliquota in
    '(valid, msg, details) <-
       validate_tax_calculation (Some base) (Some aliquota) (Some valor) nome
         tolerance_default ;;
    self <-
      (if negb valid then
         valor_calculado <- item_float details "valor_calculado" ;;
         Ok (append_error self (imposto_error path_valor msg valor valor_calculado hint_valor))
       else Ok self) ;;
    if negb (float_in aliquota accepted) then
      Ok (append_warning self
            {| severity := "aviso"; category := "imposto";
               field_path := path_aliquota;
               description :=
                 "Alíquota de " ++ nome ++ " incomum: " ++ format_2f aliquota
                   ++ "% (esperado: " ++ esperado ++ ")";
               current_value := Some (format_2f aliquota ++ "%");
               expected_value := Some esperado;
               suggestion := Some hint_aliquota |})
    else Ok self
  else Ok self.

Definition _validate_tax_calculations (self : FiscalValidator) (invoice_data : Invoice)
  : result FiscalValidator :=
  totais <- section (totais invoice_data) no_totais ;;
  emitente <- section (emitente invoice_data) no_emitente ;;
  uf_emitente <-
    match get_or (emit_uf emitente) "" with
    | Some uf => Ok (upper uf)
    | None => Raise AttributeError
    end ;;
  let base_icms := _safe_float (get (base_calculo_icms totais)) F64.zero in
  let valor_icms := _safe_float (get (valor_icms totais)) F64.zero in
  let aliquota_icms_declarada := _safe_float (get (aliquota_icms totais)) F64.zero in
  self <-
    (if F64.gtb base_icms F64.zero && F64.gtb valor_icms F64.zero then
       let aliquota_esperada := get_icms_aliquota uf_emitente "interno" in
       if F64.gtb aliquota_icms_declarada F64.zero then
         '(valid, msg, details) <-
            validate_tax_calculation (Some base_icms) (Some aliquota_icms_declarada)
              (Some valor_icms) "ICMS" tolerance_default ;;
         self <-
           (if negb valid then
              valor_calculado <- item_float details "valor_calculado" ;;
              Ok (append_error self
                    (imposto_error "totais.valor_icms" msg valor_icms valor_calculado
                       "Verifique o cálculo do ICMS"))
            else Ok self) ;;
         if negb (F64.leb seven aliquota_icms_declarada
                  && F64.leb aliquota_icms_declarada twenty_five) then
           Ok (append_warning self
                 {| severity := "aviso"; category := "imposto";
                    field_path := "totais.aliquota_icms";
                    description :=
                      "Alíquota de ICMS incomum: " ++ format_2f aliquota_icms_declarada
                        ++ "% (esperado para " ++ uf_emitente ++ ": "
                        ++ format_2f aliquota_esperada ++ "%)";
                    current_value := Some (format_2f aliquota_icms_declarada ++ "%");
                    expected_value := Some (format_2f aliquota_esperada ++ "%");
                    suggestion :=
                      Some "Verifique se a alíquota está correta para o tipo de produto" |})
         else Ok self
       else
         '(valid, msg, details) <-
            validate_tax_calculation (Some base_icms) (Some aliquota_esperada)
              (Some valor_icms)
              ("ICMS (esperado " ++ float_repr aliquota_esperada ++ "% para "
                 ++ uf_emitente ++ ")")
              tolerance_default ;;
         if negb valid then
           valor_calculado <- item_float details "valor_calculado" ;;
           Ok (append_error self
                 (imposto_error "totais.valor_icms" msg valor_icms valor_calculado
                    ("Verifique o cálculo do ICMS para " ++ uf_emitente)))
         else Ok self
     else Ok self) ;;
  let base_pis := _safe_float (get (base_calculo_pis totais)) F64.zero in
  let valor_pis := _safe_float (get (valor_pis totais)) F64.zero in
  let aliquota_pis := _safe_float (get (aliquota_pis totais)) F64.zero in
  self <-
    contribution_check self base_pis valor_pis aliquota_pis pis_padrao
      [pis_cumulativo; pis_padrao]
      "PIS" "totais.valor_pis" "totais.aliquota_pis" "Verifique o cálculo do PIS"
      "0,65% ou 1,65%"
      "Verifique se é regime cumulativo (0,65%) ou não-cumulativo (1,65%)" ;;
  let base_cofins := _safe_float (get (base_calculo_cofins totais)) F64.zero in
  let valor_cofins := _safe_float (get (valor_cofins totais)) F64.zero in
  let aliquota_cofins := _safe_float (get (aliquota_cofins totais)) F64.zero in
  contribution_check self base_cofins valor_cofins aliquota_cofins cofins_padrao
    [cofins_cumulativo; cofins_padrao]
    "COFINS" "totais.valor_cofins" "totais.aliquota_cofins"
    "Verifique o cálculo do COFINS" "3,0% ou 7,6%"
    "Verifique se é regime cumulativo (3,0%) ou não-cumulativo (7,6%)".

(** [sum(xs)] over floats: from the int 0, left to right, in binary64 (from
    CPython 3.12 on, [sum] also compensates the rounding of the partial
    sums, which this does not model). *)
Definition float_sum (xs : list F64.t) : F64.t :=
  fold_left F64.add xs F64.zero.

Definition _validate_totals (self : FiscalValidator) (invoice_data : Invoice)
  : result FiscalValidator :=
  produtos <- listing (produtos invoice_data) ;;
  let sum_produtos :=
    float_sum (map (fun p => _safe_float (get (valor_total p)) F64.zero) produtos) in
  totais <- section (totais invoice_data) no_totais ;;
  let valor_produtos_ := _safe_float (get (valor_produtos totais)) F64.zero in
  let self :=
    if F64.gtb sum_produtos F64.zero || F64.gtb valor_produtos_ F64.zero then
      let '(valid, msg, details) :=
        validate_total_sum (Some sum_produtos) (Some valor_produtos_)
          "Valor dos Produtos" tolerance_default in
      if negb valid then
        append_error self
          {| severity := "erro"; category := "totalizador";
             field_path := "totais.valor_produtos"; description := msg;
             current_value := Some ("R$ " ++ format_2f valor_produtos_);
             expected_value := Some ("R$ " ++ format_2f sum_produtos);
             suggestion := Some ("Corrija para R$ " ++ format_2f sum_produtos) |}
      else self
    else self in
  if is_none (valor_produtos totais) && (0 <? List.length produtos)%nat then
    Ok (append_warning self
          {| severity := "aviso"; category := "totalizador";
             field_path := "totais.valor_produtos";
             description := "Campo valor_produtos está ausente";
             current_value := Some "None";
             expected_value := Some ("R$ " ++ format_2f sum_produtos);
             suggestion := Some "Preencha o campo com o valor correto" |})
  else Ok self.

Definition consistency_of (self : FiscalValidator) (tipo_op : string) (i : nat)
    (produto : Produto) : FiscalValidator :=
  match get (cfop produto) with
  | Some cfop =>
      if truthy cfop then
        let '(valid, msg, details) := validate_cfop cfop in
        if valid then
          let cfop_tipo := lookup_or "tipo_operacao" details "" in
          if truthy cfop_tipo && negb (String.eqb cfop_tipo tipo_op) then
            append_error self
              {| severity := "erro"; category := "consistencia";
                 field_path := produto_path i "cfop";
                 description :=
                   "CFOP " ++ cfop ++ " indica " ++ cfop_tipo ++ " mas nota é de "
                     ++ tipo_op;
                 current_value := Some cfop; expected_value := None;
                 suggestion := Some ("Use CFOP compatível com " ++ tipo_op) |}
          else self
        else self
      else self
  | None => self
  end.

Fixpoint consistency_loop (self : FiscalValidator) (tipo_op : string) (i : nat)
    (produtos : list Produto) : FiscalValidator :=
  match produtos with
  | [] => self
  | produto :: rest => consistency_loop (consistency_of self tipo_op i produto) tipo_op (S i) rest
  end.

Definition _validate_consistency (self : FiscalValidator) (invoice_data : Invoice)
  : result FiscalValidator :=
  identificacao <- section (identificacao invoice_data) no_identificacao ;;
  match get (tipo_operacao identificacao) with
  | None =>
      Ok (append_warning self
            {| severity := "aviso"; category := "identificacao";
               field_path := "identificacao.tipo_operacao";
               description := "Tipo de operação não informado";
               current_value := Some "None";
               expected_value := Some "entrada ou saida";
               suggestion := Some "Informe o tipo de operação da nota" |})
  | Some tipo_op =>
      let tipo_op := lower tipo_op in
      produtos <- listing (produtos invoice_data) ;;
      Ok (consistency_loop self tipo_op 0 produtos)
  end.

(** [len([e for e in l if e.severity in names])] *)
Definition count_severity (names : list string) (l : list ValidationError) : Z :=
  Z.of_nat (List.length (filter (fun e => str_in (severity e) names) l)).

Definition validador_tag : string :=
  "FiscalValidator v2.0 (Corrigido e Atualizado 2024-2025)".

(** [now] is the text of [datetime.now().isoformat()] at the call. *)
Definition _compile_validation_result (self : FiscalValidator) (now : string) : value :=
  let total_errors := count_severity ["critico"; "erro"] (errors self) in
  let total_warnings :=
    count_severity ["aviso"] (errors self) + Z.of_nat (List.length (warnings self)) in
  let total_critical := count_severity ["critico"] (errors self) in
  let score := 100 in
  let score := score - total_critical * 25 in
  let score := score - (total_errors - total_critical) * 10 in
  let score := score - total_warnings * 3 in
  let score := Z.max 0 score in
  let verdict :=
    if 0 <? total_critical then ("invalido", false)
    else if 0 <? total_errors then ("invalido", false)
    else if 0 <? total_warnings then ("com_avisos", true)
    else ("valido", true) in
  let status := fst verdict in
  let apto := snd verdict in
  VDict
    [ ("validacao_geral",
       VDict [ ("status", VStr status);
               ("score_conformidade", VInt score);
               ("total_erros_criticos", VInt total_critical);
               ("total_erros", VInt (total_errors - total_critical));
               ("total_avisos", VInt total_warnings);
               ("apto_para_processamento", VBool apto) ]);
      ("problemas",
       VList (map to_dict (errors self) ++ map to_dict (warnings self))%list);
      ("timestamp", VStr now);
      ("validador", VStr validador_tag) ].

(** [validate_invoice]: the report, and the instance as the call leaves it. *)
Definition validate_invoice (self : FiscalValidator) (now : string) (invoice_data : Invoice)
  : result (value * FiscalValidator) :=
  let self := {| errors := []; warnings := [] |} in
  self <- _validate_documents self invoice_data ;;
  self <- _validate_fiscal_codes self invoice_data ;;
  self <- _validate_products_calculations self invoice_data ;;
  self <- _validate_tax_calculations self invoice_data ;;
  self <- _validate_totals self invoice_data ;;
  self <- _validate_consistency self invoice_data ;;
  let result := _compile_validation_result self now in
  Ok (result, self).

(** ** The calculator *)

(** Decimal literals of the source. *)
Definition D (c e : Z) : Dec.t := Dec.Fin false c e.

(** [self.tax_rates] of [FiscalCalculator]; it is never assigned to after
    construction. *)
Definition calc_pis_padrao : Dec.t := D 165 (-2).       (* Decimal('1.65') *)
Definition calc_cofins_padrao : Dec.t := D 76 (-1).     (* Decimal('7.6') *)
Definition calc_icms_interno : list (string * Dec.t) :=
  [ ("SP", D 180 (-1)); ("RJ", D 200 (-1)); ("MG", D 180 (-1));
    ("PR", D 195 (-1)); ("SC", D 170 (-1)); ("RS", D 170 (-1));
    ("default", D 180 (-1)) ].

(** [_safe_decimal(value)] on a float or None, with the default [0.0]:
    [Decimal(str(value))], which no float makes fail. *)
Definition _safe_decimal (value : option F64.t) : Dec.t :=
  match value with
  | None => Dec.of_float F64.zero
  | Some x => Dec.of_float x
  end.

(** One step of [_safe_get]: [result.get(key, default)] when [result] is a
    dictionary; [None] stands for a value that is not one. *)
Definition step {A B : Type} (r : option A) (key : A -> field B) : option B :=
  match r with
  | Some d => get (key d)
  | None => None
  end.

(** The end of [_safe_get]: [result if result is not None else default]. *)
Definition or_default {A : Type} (r : option A) (default : A) : A :=
  match r with
  | Some a => a
  | None => default
  end.

Definition half_up (x : Dec.t) : result Dec.t := Dec.quantize_cents x.

(** [(x * rate / Decimal('100')).quantize(Decimal('0.01'), ROUND_HALF_UP)] *)
Definition percent_of (x rate : Dec.t) : result Dec.t :=
  p <- Dec.mul x rate ;;
  q <- Dec.truediv p Dec.hundred ;;
  half_up q.

(** [(x / total * Decimal('100')).quantize(Decimal('0.01'), ROUND_HALF_UP)] *)
Definition share_of (x total : Dec.t) : result Dec.t :=
  q <- Dec.truediv x total ;;
  p <- Dec.mul q Dec.hundred ;;
  half_up p.

Definition ten : F64.t := Eval vm_compute in F64.of_Z 10.
Definition twenty : F64.t := Eval vm_compute in F64.of_Z 20.
Definition thirty : F64.t := Eval vm_compute in F64.of_Z 30.

Definition _classificar_carga_tributaria (percentual : F64.t) : string :=
  if F64.ltb percentual ten then "Baixa"
  else if F64.ltb percentual twenty then "Moderada"
  else if F64.ltb percentual thirty then "Alta"
  else "Muito Alta".

Definition _comparar_regimes_tributarios (faturamento_mensal : F64.t) : result value :=
  let fat := _safe_decimal (Some faturamento_mensal) in
  impostos_simples <- percent_of fat (D 100 (-1)) ;;
  impostos_presumido <- percent_of fat (D 365 (-2)) ;;
  impostos_real <- percent_of fat (D 925 (-2)) ;;
  Ok (VDict
        [ ("simples_nacional",
           VDict [ ("impostos_estimados", VFloat (Dec.to_float impostos_simples));
                   ("aliquota_efetiva", VFloat (lit 100 (-1))) ]);
          ("lucro_presumido",
           VDict [ ("impostos_estimados", VFloat (Dec.to_float impostos_presumido));
                   ("aliquota_efetiva", VFloat (lit 365 (-2))) ]);
          ("lucro_real",
           VDict [ ("impostos_estimados_sem_creditos", VFloat (Dec.to_float impostos_real));
                   ("aliquota_base", VFloat (lit 925 (-2)));
                   ("observacao",
                    VStr "Valor pode ser menor com aproveitamento de créditos") ]) ]).

(** The accumulators of the loop of [_analisar_produtos]. *)
Record produtos_acc : Type := {
  pa_valor_total : Dec.t;
  produtos_sem_icms : list value;
  produtos_sem_pis_cofins : list value
}.

Definition analisar_produto (acc : produtos_acc) (prod : Produto) : result produtos_acc :=
  let valor := _safe_decimal (get (valor_total prod)) in
  valor_total <- Dec.add (pa_valor_total acc) valor ;;
  impostos <-
    match get_or (impostos prod) no_impostos with
    | Some i => Ok i
    | None => Raise AttributeError
    end ;;
  let icms_val := get (icms impostos) in
  let nome := VOptStr (get_or (descricao prod) "N/A") in
  let sem_icms :=
    match icms_val with
    | None => true
    | Some x => F64.eqb x F64.zero
    end in
  let sem_pis_cofins := is_none (pis impostos) || is_none (cofins impostos) in
  Ok {| pa_valor_total := valor_total;
        produtos_sem_icms :=
          if sem_icms then (produtos_sem_icms acc ++ [nome])%list
          else produtos_sem_icms acc;
        produtos_sem_pis_cofins :=
          if sem_pis_cofins then (produtos_sem_pis_cofins acc ++ [nome])%list
          else produtos_sem_pis_cofins acc |}.

Fixpoint analisar_produtos_loop (acc : produtos_acc) (produtos : list Produto)
  : result produtos_acc :=
  match produtos with
  | [] => Ok acc
  | prod :: rest =>
      acc' <- analisar_produto acc prod ;;
      analisar_produtos_loop acc' rest
  end.

Definition len_value {A : Type} (l : list A) : value := VInt (Z.of_nat (List.length l)).

(** [produtos] is what [invoice_data.get('produtos', [])] returned: a list, or
    [None] when the key holds None. *)
Definition _analisar_produtos (produtos : option (list Produto)) : result value :=
  match produtos with
  | None | Some [] => Ok (VDict [])
  | Some produtos =>
      acc <- analisar_produtos_loop
               {| pa_valor_total := Dec.zero; produtos_sem_icms := [];
                  produtos_sem_pis_cofins := [] |} produtos ;;
      q <- Dec.truediv (pa_valor_total acc) (Dec.of_Z (Z.of_nat (List.length produtos))) ;;
      valor_medio <- half_up q ;;
      Ok (VDict
            [ ("total_produtos", len_value produtos);
              ("valor_medio_produto", VFloat (Dec.to_float valor_medio));
              ("produtos_sem_icms",
               VDict [ ("quantidade", len_value (produtos_sem_icms acc));
                       ("exemplos", VList (firstn 3 (produtos_sem_icms acc))) ]);
              ("produtos_sem_pis_cofins",
               VDict [ ("quantidade", len_value (produtos_sem_pis_cofins acc));
                       ("exemplos", VList (firstn 3 (produtos_sem_pis_cofins acc))) ]) ])
  end.

(** [['PIS' if ... , 'COFINS' if ..., 'ICMS' if ...]]: the tracked fields that
    hold None or are missing, in the order the source tests them. *)
Definition campos_none_of (totais : Totais) : list string :=
  ((if is_none (valor_pis totais) then ["PIS"] else [])
   ++ (if is_none (valor_cofins totais) then ["COFINS"] else [])
   ++ (if is_none (valor_icms totais) then ["ICMS"] else []))%list.

Definition str_list (l : list string) : value := VList (map VStr l).

Definition is_nil {A : Type} (l : list A) : bool :=
  match l with
  | [] => true
  | _ => false
  end.

Definition analisar_nota_individual (invoice_data : Invoice) : result value :=
  let produtos_ := get_or (produtos invoice_data) [] in
  let emitente_uf :=
    or_default (step (step (get (emitente invoice_data)) emit_endereco) end_uf) "SP" in
  let destinatario_uf :=
    or_default (step (step (get (destinatario invoice_data)) dest_endereco) end_uf) "SP" in
  totais <- section (totais invoice_data) no_totais ;;
  let valor_total := _safe_decimal (get (valor_total_nf totais)) in
  let valor_icms_ := _safe_decimal (get (valor_icms totais)) in
  let valor_pis_ := _safe_decimal (get (valor_pis totais)) in
  let valor_cofins_ := _safe_decimal (get (valor_cofins totais)) in
  let valor_ipi_ := _safe_decimal (get (valor_ipi totais)) in
  let campos_none := campos_none_of totais in
  (* 1. total of the taxes *)
  s1 <- Dec.add valor_icms_ valor_pis_ ;;
  s2 <- Dec.add s1 valor_cofins_ ;;
  s3 <- Dec.add s2 valor_ipi_ ;;
  total_impostos <- half_up s3 ;;
  (* 2. tax burden *)
  positive_total <- Dec.gt valor_total Dec.zero ;;
  carga_tributaria <-
    (if positive_total then share_of total_impostos valor_total else Ok Dec.zero) ;;
  (* 3. recoverable credits *)
  credito_pis_potencial <- percent_of valor_total calc_pis_padrao ;;
  credito_cofins_potencial <- percent_of valor_total calc_cofins_padrao ;;
  d_pis <- Dec.sub credito_pis_potencial valor_pis_ ;;
  credito_pis_recuperavel <- Dec.max Dec.zero d_pis ;;
  d_cofins <- Dec.sub credito_cofins_potencial valor_cofins_ ;;
  credito_cofins_recuperavel <- Dec.max Dec.zero d_cofins ;;
  credito_total_recuperavel <- Dec.add credito_pis_recuperavel credito_cofins_recuperavel ;;
  (* 4. ICMS *)
  let aliquota_icms_uf :=
    lookup_or emitente_uf calc_icms_interno (lookup_or "default" calc_icms_interno Dec.zero) in
  let base_icms := _safe_decimal (get (base_calculo_icms totais)) in
  positive_base <- Dec.gt base_icms Dec.zero ;;
  icms_esperado <-
    (if positive_base then percent_of base_icms aliquota_icms_uf else Ok Dec.zero) ;;
  diferenca_icms <- Dec.sub valor_icms_ icms_esperado ;;
  (* 5. regimes *)
  comparacao_regimes <- _comparar_regimes_tributarios (Dec.to_float valor_total) ;;
  (* 6. products *)
  analise_produtos <- _analisar_produtos produtos_ ;;
  (* 7. interstate operation *)
  let operacao_interestadual := negb (String.eqb emitente_uf destinatario_uf) in
  (* the returned dictionary, evaluated entry by entry *)
  anual <- Dec.mul credito_total_recuperavel (D 12 0) ;;
  small <- Dec.lt (Dec.abs diferenca_icms) (D 50 (-2)) ;;
  total_produtos <-
    match produtos_ with
    | Some l => Ok (len_value l)
    | None => Raise TypeError
    end ;;
  Ok (VDict
        [ ("impostos_calculados",
           VDict [ ("icms", VFloat (Dec.to_float valor_icms_));
                   ("pis", VFloat (Dec.to_float valor_pis_));
                   ("cofins", VFloat (Dec.to_float valor_cofins_));
                   ("ipi", VFloat (Dec.to_float valor_ipi_));
                   ("total_impostos", VFloat (Dec.to_float total_impostos));
                   ("campos_ausentes", str_list campos_none) ]);
          ("carga_tributaria",
           VDict [ ("percentual", VFloat (Dec.to_float carga_tributaria));
                   ("classificacao",
                    VStr (_classificar_carga_tributaria (Dec.to_float carga_tributaria)));
                   ("valor_total_nf", VFloat (Dec.to_float valor_total)) ]);
          ("oportunidades_creditos",
           VDict [ ("pis",
                    VDict [ ("atual", VFloat (Dec.to_float valor_pis_));
                            ("potencial", VFloat (Dec.to_float credito_pis_potencial));
                            ("recuperavel", VFloat (Dec.to_float credito_pis_recuperavel));
                            ("ausente", VBool (is_none (valor_pis totais))) ]);
                   ("cofins",
                    VDict [ ("atual", VFloat (Dec.to_float valor_cofins_));
                            ("potencial", VFloat (Dec.to_float credito_cofins_potencial));
                            ("recuperavel", VFloat (Dec.to_float credito_cofins_recuperavel));
                            ("ausente", VBool (is_none (valor_cofins totais))) ]);
                   ("total_recuperavel_mensal",
                    VFloat (Dec.to_float credito_total_recuperavel));
                   ("total_recuperavel_anual", VFloat (Dec.to_float anual));
                   ("observacao",
                    if is_nil campos_none then VNone
                    else VStr "Valores calculados considerando campos ausentes como R$ 0,00") ]);
          ("analise_icms",
           VDict [ ("valor_cobrado", VFloat (Dec.to_float valor_icms_));
                   ("valor_esperado", VFloat (Dec.to_float icms_esperado));
                   ("diferenca", VFloat (Dec.to_float diferenca_icms));
                   ("aliquota_uf", VFloat (Dec.to_float aliquota_icms_uf));
                   ("base_calculo", VFloat (Dec.to_float base_icms));
                   ("status", VStr (if small then "correto" else "verificar"));
                   ("ausente", VBool (is_none (valor_icms totais))) ]);
          ("comparacao_regimes", comparacao_regimes);
          ("analise_produtos", analise_produtos);
          ("contexto_operacao",
           VDict [ ("interestadual", VBool operacao_interestadual);
                   ("uf_emitente", VStr emitente_uf);
                   ("uf_destinatario", VStr destinatario_uf);
                   ("total_produtos", total_produtos) ]);
          ("qualidade_dados",
           VDict [ ("campos_none_total", len_value campos_none);
                   ("campos_none_lista", str_list campos_none);
                   ("integridade_dados",
                    VStr (if is_nil campos_none then "completa" else "parcial")) ]) ]).

(** *** Aggregation over several invoices *)

(** [sorted(l, key=key, reverse=True)] by a float key: descending and
    stable.  Python's sort asks only [<] of the keys; a key that is NaN is
    unordered against every other and is outside what this models. *)
Fixpoint insert_desc {A : Type} (key : A -> F64.t) (x : A) (l : list A) : list A :=
  match l with
  | [] => [x]
  | y :: l' =>
      if F64.ltb (key y) (key x) then x :: y :: l' else y :: insert_desc key x l'
  end.

Definition sorted_desc {A : Type} (key : A -> F64.t) (l : list A) : list A :=
  fold_left (fun acc x => insert_desc key x acc) l [].

(** [sorted(d.items())] of a dictionary with string keys. *)
Fixpoint insert_by_key {V : Type} (x : string * V) (l : list (string * V))
  : list (string * V) :=
  match l with
  | [] => [x]
  | y :: l' =>
      if String.ltb (fst x) (fst y) then x :: y :: l' else y :: insert_by_key x l'
  end.

Definition sorted_items {V : Type} (l : list (string * V)) : list (string * V) :=
  fold_left (fun acc x => insert_by_key x acc) l [].

(** [if k not in d: d[k] = init] followed by [d[k] = f(d[k])]; a new key
    goes last, as in a Python dictionary. *)
Fixpoint upsert {K V : Type} (eqb : K -> K -> bool) (k : K) (init : V)
    (f : V -> result V) (d : list (K * V)) : result (list (K * V)) :=
  match d with
  | [] => v <- f init ;; Ok [(k, v)]
  | (k', v) :: d' =>
      if eqb k k' then v' <- f v ;; Ok ((k', v') :: d')
      else r <- upsert eqb k init f d' ;; Ok ((k', v) :: r)
  end.

Definition opt_string_eqb (a b : option string) : bool :=
  match a, b with
  | Some x, Some y => String.eqb x y
  | None, None => true
  | _, _ => false
  end.

Record fornecedor : Type := { f_valor : Dec.t; f_quantidade : Z }.
Record produto_agg : Type := {
  p_descricao : option string; p_quantidade : Dec.t; p_valor_total : Dec.t
}.
Record mes_agg : Type := { m_quantidade : Z; m_valor : Dec.t }.

(** The local variables of [analisar_multiplas_notas] that its loop updates. *)
Record acc : Type := {
  faturamento_total : Dec.t;
  impostos_total : Dec.t;
  icms_total : Dec.t;
  pis_total : Dec.t;
  cofins_total : Dec.t;
  ipi_total : Dec.t;
  fornecedores : list (string * fornecedor);
  produtos_dict : list (option string * produto_agg);
  notas_por_mes : list (string * mes_agg);
  notas_com_none : Z;
  none_pis : Z;
  none_cofins : Z;
  none_icms : Z;
  none_ipi : Z
}.

Definition acc0 : acc :=
  {| faturamento_total := Dec.zero; impostos_total := Dec.zero; icms_total := Dec.zero;
     pis_total := Dec.zero; cofins_total := Dec.zero; ipi_total := Dec.zero;
     fornecedores := []; produtos_dict := []; notas_por_mes := [];
     notas_com_none := 0; none_pis := 0; none_cofins := 0; none_icms := 0;
     none_ipi := 0 |}.

Definition bump (b : bool) (n : Z) : Z := if b then n + 1 else n.

Definition add_produto (d : list (option string * produto_agg)) (prod : Produto)
  : result (list (option string * produto_agg)) :=
  let codigo := get_or (codigo prod) "N/A" in
  upsert opt_string_eqb codigo
    {| p_descricao := get_or (descricao prod) "N/A";
       p_quantidade := Dec.zero; p_valor_total := Dec.zero |}
    (fun dados =>
       q <- Dec.add (p_quantidade dados) (_safe_decimal (get (quantidade prod))) ;;
       v <- Dec.add (p_valor_total dados) (_safe_decimal (get (valor_total prod))) ;;
       Ok {| p_descricao := p_descricao dados; p_quantidade := q; p_valor_total := v |})
    d.

Fixpoint add_produtos (d : list (option string * produto_agg)) (l : list Produto)
  : result (list (option string * produto_agg)) :=
  match l with
  | [] => Ok d
  | prod :: rest => d' <- add_produto d prod ;; add_produtos d' rest
  end.

(** The body of [for inv in invoices_data]. *)
Definition accumulate (a : acc) (inv : Invoice) : result acc :=
  totais <- section (totais inv) no_totais ;;
  let valor_nf := _safe_decimal (get (valor_total_nf totais)) in
  faturamento <- Dec.add (faturamento_total a) valor_nf ;;
  let icms_ := _safe_decimal (get (valor_icms totais)) in
  let pis_ := _safe_decimal (get (valor_pis totais)) in
  let cofins_ := _safe_decimal (get (valor_cofins totais)) in
  let ipi_ := _safe_decimal (get (valor_ipi totais)) in
  let nota_tem_none :=
    is_none (valor_pis totais) || is_none (valor_cofins totais)
    || is_none (valor_icms totais) || is_none (valor_ipi totais) in
  icms_t <- Dec.add (icms_total a) icms_ ;;
  pis_t <- Dec.add (pis_total a) pis_ ;;
  cofins_t <- Dec.add (cofins_total a) cofins_ ;;
  ipi_t <- Dec.add (ipi_total a) ipi_ ;;
  s1 <- Dec.add icms_ pis_ ;;
  s2 <- Dec.add s1 cofins_ ;;
  s3 <- Dec.add s2 ipi_ ;;
  impostos_t <- Dec.add (impostos_total a) s3 ;;
  let emitente_ := or_default (step (get (emitente inv)) razao_social) "N/A" in
  fornecedores_ <-
    upsert String.eqb emitente_ {| f_valor := Dec.zero; f_quantidade := 0 |}
      (fun dados =>
         v <- Dec.add (f_valor dados) valor_nf ;;
         Ok {| f_valor := v; f_quantidade := f_quantidade dados + 1 |})
      (fornecedores a) ;;
  produtos_ <- listing (produtos inv) ;;
  produtos_dict_ <- add_produtos (produtos_dict a) produtos_ ;;
  let data_emissao_ := or_default (step (get (identificacao inv)) data_emissao) "" in
  notas_por_mes_ <-
    (if truthy data_emissao_ then
       let mes := substring 0 7 data_emissao_ in
       upsert String.eqb mes {| m_quantidade := 0; m_valor := Dec.zero |}
         (fun dados =>
            v <- Dec.add (m_valor dados) valor_nf ;;
            Ok {| m_quantidade := m_quantidade dados + 1; m_valor := v |})
         (notas_por_mes a)
     else Ok (notas_por_mes a)) ;;
  Ok {| faturamento_total := faturamento; impostos_total := impostos_t;
        icms_total := icms_t; pis_total := pis_t; cofins_total := cofins_t;
        ipi_total := ipi_t; fornecedores := fornecedores_;
        produtos_dict := produtos_dict_; notas_por_mes := notas_por_mes_;
        notas_com_none := bump nota_tem_none (notas_com_none a);
        none_pis := bump (is_none (valor_pis totais)) (none_pis a);
        none_cofins := bump (is_none (valor_cofins totais)) (none_cofins a);
        none_icms := bump (is_none (valor_icms totais)) (none_icms a);
        none_ipi := bump (is_none (valor_ipi totais)) (none_ipi a) |}.

Fixpoint accumulate_all (a : acc) (invoices_data : list Invoice) : result acc :=
  match invoices_data with
  | [] => Ok a
  | inv :: rest => a' <- accumulate a inv ;; accumulate_all a' rest
  end.

(** [float(x)] of a number held in a report. *)
Definition float_of_value (v : value) : F64.t :=
  match v with
  | VFloat x => x
  | VInt n => F64.of_Z n
  | _ => S754_nan
  end.

(** [a + b] on the numbers a report holds: two ints add as ints, otherwise
    the sum is taken in binary64. *)
Definition value_add (a b : value) : value :=
  match a, b with
  | VInt x, VInt y => VInt (x + y)
  | _, _ => VFloat (F64.add (float_of_value a) (float_of_value b))
  end.

(** [sum(vs)], from the int 0. *)
Definition value_sum (vs : list value) : value :=
  fold_left value_add vs (VInt 0).

(** [v > n] for a number [v] of a report and an int literal [n]. *)
Definition value_gt (v : value) (n : Z) : bool :=
  match v with
  | VInt x => n <? x
  | _ => F64.gtb (float_of_value v) (F64.of_Z n)
  end.

(** [float((x / total * Decimal('100')).quantize(...)) if total > 0 else 0] *)
Definition percent_or_zero (x total : Dec.t) : result value :=
  positive_total <- Dec.gt total Dec.zero ;;
  if positive_total then
    p <- share_of x total ;; Ok (VFloat (Dec.to_float p))
  else Ok (VInt 0).

(** An entry of the list that becomes [top_fornecedores], with its sort key. *)
Definition fornecedor_entry (total : Dec.t) (item : string * fornecedor)
  : result (F64.t * value * value) :=
  let '(nome, dados) := item in
  let valor := Dec.to_float (f_valor dados) in
  percentual <- percent_or_zero (f_valor dados) total ;;
  Ok (valor, percentual,
      VDict [ ("nome", VStr nome);
              ("valor_total", VFloat valor);
              ("quantidade_notas", VInt (f_quantidade dados));
              ("percentual_faturamento", percentual) ]).

Definition produto_entry (item : option string * produto_agg) : F64.t * value :=
  let '(codigo, dados) := item in
  let valor := Dec.to_float (p_valor_total dados) in
  (valor,
   VDict [ ("codigo", VOptStr codigo);
           ("descricao", VOptStr (p_descricao dados));
           ("quantidade_total", VFloat (Dec.to_float (p_quantidade dados)));
           ("valor_total", VFloat valor) ]).

Definition mes_entry (item : string * mes_agg) : value :=
  let '(mes, dados) := item in
  VDict [ ("mes", VStr mes);
          ("quantidade_notas", VInt (m_quantidade dados));
          ("faturamento", VFloat (Dec.to_float (m_valor dados))) ].

(** [[f(x) for x in l]] where [f] may raise. *)
Fixpoint map_result {A B : Type} (f : A -> result B) (l : list A) : result (list B) :=
  match l with
  | [] => Ok []
  | x :: l' => y <- f x ;; ys <- map_result f l' ;; Ok (y :: ys)
  end.

Definition analisar_multiplas_notas (invoices_data : list Invoice) : result value :=
  if is_nil invoices_data then Ok (VDict [])
  else
    let total_notas := Z.of_nat (List.length invoices_data) in
    a <- accumulate_all acc0 invoices_data ;;
    positive_total <- Dec.gt (faturamento_total a) Dec.zero ;;
    carga <-
      (if positive_total then share_of (impostos_total a) (faturamento_total a)
       else Ok Dec.zero) ;;
    let carga_tributaria := Dec.to_float carga in
    ticket_medio <-
      (if 0 <? total_notas then
         q <- Dec.truediv (faturamento_total a) (Dec.of_Z total_notas) ;; half_up q
       else Ok Dec.zero) ;;
    entries <- map_result (fornecedor_entry (faturamento_total a)) (fornecedores a) ;;
    let top_fornecedores := firstn 10 (sorted_desc (fun e => fst (fst e)) entries) in
    let top_produtos :=
      firstn 10 (sorted_desc fst (map produto_entry (produtos_dict a))) in
    let concentracao_top3 :=
      value_sum (map (fun e => snd (fst e)) (firstn 3 top_fornecedores)) in
    comparacao_regimes <-
      _comparar_regimes_tributarios (Dec.to_float (faturamento_total a)) ;;
    let evolucao_mensal := map mes_entry (sorted_items (notas_por_mes a)) in
    icms_percent <- percent_or_zero (icms_total a) (impostos_total a) ;;
    pis_percent <- percent_or_zero (pis_total a) (impostos_total a) ;;
    cofins_percent <- percent_or_zero (cofins_total a) (impostos_total a) ;;
    incompletas <-
      (if 0 <? total_notas then
         p <- share_of (Dec.of_Z (notas_com_none a)) (Dec.of_Z total_notas) ;;
         Ok (VFloat (Dec.to_float p))
       else Ok (VInt 0)) ;;
    Ok (VDict
          [ ("metricas_gerais",
             VDict [ ("total_notas", VInt total_notas);
                     ("faturamento_total", VFloat (Dec.to_float (faturamento_total a)));
                     ("ticket_medio", VFloat (Dec.to_float ticket_medio));
                     ("total_fornecedores", len_value (fornecedores a));
                     ("total_produtos_unicos", len_value (produtos_dict a)) ]);
            ("impostos_agregados",
             VDict [ ("icms_total", VFloat (Dec.to_float (icms_total a)));
                     ("pis_total", VFloat (Dec.to_float (pis_total a)));
                     ("cofins_total", VFloat (Dec.to_float (cofins_total a)));
                     ("ipi_total", VFloat (Dec.to_float (ipi_total a)));
                     ("total_impostos", VFloat (Dec.to_float (impostos_total a))) ]);
            ("carga_tributaria_agregada",
             VDict [ ("percentual", VFloat carga_tributaria);
                     ("classificacao",
                      VStr (_classificar_carga_tributaria carga_tributaria));
                     ("distribuicao",
                      VDict [ ("icms_percent", icms_percent);
                              ("pis_percent", pis_percent);
                              ("cofins_percent", cofins_percent) ]) ]);
            ("top_fornecedores", VList (map snd top_fornecedores));
            ("analise_concentracao",
             VDict [ ("concentracao_top3_percent",
                      VFloat (float_of_value concentracao_top3));
                     ("nivel_risco",
                      VStr (if value_gt concentracao_top3 70 then "alto"
                            else if value_gt concentracao_top3 50 then "medio"
                            else "baixo")) ]);
            ("top_produtos", VList (map snd top_produtos));
            ("comparacao_regimes", comparacao_regimes);
            ("evolucao_temporal", VList evolucao_mensal);
            ("qualidade_dados",
             VDict [ ("notas_com_campos_none", VInt (notas_com_none a));
                     ("percentual_notas_incompletas", incompletas);
                     ("campos_none_por_tipo",
                      VDict [ ("PIS", VInt (none_pis a));
                              ("COFINS", VInt (none_cofins a));
                              ("ICMS", VInt (none_icms a));
                              ("IPI", VInt (none_ipi a)) ]);
                     ("observacao",
                      VStr (if 0 <? notas_com_none a then
                              str_of_Z (notas_com_none a) ++ " de " ++ str_of_Z total_notas
                                ++ " notas possuem campos ausentes (None)"
                            else "Todos os campos preenchidos")) ]) ]).

(** *** The instance of the calculator

    The definitions above take for [self.tax_rates] the table [__init__]
    builds.  In the module below the methods of [FiscalCalculator] are
    written once more with the instance explicit: a method is a function of
    the instance that returns its outcome together with the instance as the
    call leaves it, a read of [self.tax_rates] reads the instance in hand,
    and a call [self.m(...)] passes it on. *)
Module Calc.

(** [self.tax_rates]: a dictionary of rates, one of them a dictionary by
    state. *)
Record TaxRates : Type := {
  pis_padrao : Dec.t;
  cofins_padrao : Dec.t;
  pis_cumulativo : Dec.t;
  cofins_cumulativo : Dec.t;
  icms_interno : list (string * Dec.t)
}.

Record FiscalCalculator : Type := { tax_rates : TaxRates }.

(** [FiscalCalculator()] *)
Definition __init__ : FiscalCalculator :=
  {| tax_rates :=
       {| pis_padrao := D 165 (-2);
          cofins_padrao := D 76 (-1);
          pis_cumulativo := D 65 (-2);
          cofins_cumulativo := D 30 (-1);
          icms_interno :=
            [ ("SP", D 180 (-1)); ("RJ", D 200 (-1)); ("MG", D 180 (-1));
              ("PR", D 195 (-1)); ("SC", D 170 (-1)); ("RS", D 170 (-1));
              ("default", D 180 (-1)) ] |} |}.

(** A method: from the instance, an outcome and the instance afterwards. *)
Definition t (A : Type) : Type := FiscalCalculator -> result A * FiscalCalculator.

Definition ret {A : Type} (a : A) : t A := fun self => (Ok a, self).

(** A computation in which [self] does not occur. *)
Definition lift {A : Type} (r : result A) : t A := fun self => (r, self).

Definition bind {A B : Type} (m : t A) (k : A -> t B) : t B :=
  fun self =>
    match m self with
    | (Ok a, self') => k a self'
    | (Raise e, self') => (Raise e, self')
    end.

(** [self.tax_rates[key]] *)
Definition rate {A : Type} (key : TaxRates -> A) : t A :=
  fun self => (Ok (key (tax_rates self)), self).

(** [d[key]] on a dictionary with string keys. *)
Definition item {A : Type} (d : list (string * A)) (key : string) : t A :=
  lift (match lookup key d with
        | Some v => Ok v
        | None => Raise KeyError
        end).

Notation "x <~ m ;; k" := (bind m (fun x => k))
  (at level 61, m at next level, right associativity).

Definition _safe_decimal (value : option F64.t) : t Dec.t :=
  ret (match value with
       | None => Dec.of_float F64.zero
       | Some x => Dec.of_float x
       end).

(** [self._safe_get(d, *keys, default=default)], [found] being what the walk
    along the keys ends on. *)
Definition _safe_get {A : Type} (found : option A) (default : A) : t A :=
  ret (or_default found default).

Definition _classificar_carga_tributaria (percentual : F64.t) : t string :=
  ret (if F64.ltb percentual ten then "Baixa"
       else if F64.ltb percentual twenty then "Moderada"
       else if F64.ltb percentual thirty then "Alta"
       else "Muito Alta").

Definition _comparar_regimes_tributarios (faturamento_mensal : F64.t) : t value :=
  fat <~ _safe_decimal (Some faturamento_mensal) ;;
  impostos_simples <~ lift (percent_of fat (D 100 (-1))) ;;
  impostos_presumido <~ lift (percent_of fat (D 365 (-2))) ;;
  impostos_real <~ lift (percent_of fat (D 925 (-2))) ;;
  ret (VDict
         [ ("simples_nacional",
            VDict [ ("impostos_estimados", VFloat (Dec.to_float impostos_simples));
                    ("aliquota_efetiva", VFloat (lit 100 (-1))) ]);
           ("lucro_presumido",
            VDict [ ("impostos_estimados", VFloat (Dec.to_float impostos_presumido));
                    ("aliquota_efetiva", VFloat (lit 365 (-2))) ]);
           ("lucro_real",
            VDict [ ("impostos_estimados_sem_creditos", VFloat (Dec.to_float impostos_real));
                    ("aliquota_base", VFloat (lit 925 (-2)));
                    ("observacao",
                     VStr "Valor pode ser menor com aproveitamento de créditos") ]) ]).

Definition analisar_produto (acc : produtos_acc) (prod : Produto) : t produtos_acc :=
  valor <~ _safe_decimal (get (valor_total prod)) ;;
  valor_total <~ lift (Dec.add (pa_valor_total acc) valor) ;;
  impostos <~
    lift (match get_or (impostos prod) no_impostos with
          | Some i => Ok i
          | None => Raise AttributeError
          end) ;;
  let icms_val := get (icms impostos) in
  let nome := VOptStr (get_or (descricao prod) "N/A") in
  let sem_icms :=
    match icms_val with
    | None => true
    | Some x => F64.eqb x F64.zero
    end in
  let sem_pis_cofins := is_none (pis impostos) || is_none (cofins impostos) in
  ret {| pa_valor_total := valor_total;
         produtos_sem_icms :=
           if sem_icms then (produtos_sem_icms acc ++ [nome])%list
           else produtos_sem_icms acc;
         produtos_sem_pis_cofins :=
           if sem_pis_cofins then (produtos_sem_pis_cofins acc ++ [nome])%list
           else produtos_sem_pis_cofins acc |}.

Fixpoint analisar_produtos_loop (acc : produtos_acc) (produtos : list Produto)
  : t produtos_acc :=
  match produtos with
  | [] => ret acc
  | prod :: rest =>
      acc' <~ analisar_produto acc prod ;;
      analisar_produtos_loop acc' rest
  end.

Definition _analisar_produtos (produtos : option (list Produto)) : t value :=
  match produtos with
  | None | Some [] => ret (VDict [])
  | Some produtos =>
      acc <~ analisar_produtos_loop
               {| pa_valor_total := Dec.zero; produtos_sem_icms := [];
                  produtos_sem_pis_cofins := [] |} produtos ;;
      q <~ lift (Dec.truediv (pa_valor_total acc)
                   (Dec.of_Z (Z.of_nat (List.length produtos)))) ;;
      valor_medio <~ lift (half_up q) ;;
      ret (VDict
             [ ("total_produtos", len_value produtos);
               ("valor_medio_produto", VFloat (Dec.to_float valor_medio));
               ("produtos_sem_icms",
                VDict [ ("quantidade", len_value (produtos_sem_icms acc));
                        ("exemplos", VList (firstn 3 (produtos_sem_icms acc))) ]);
               ("produtos_sem_pis_cofins",
                VDict [ ("quantidade", len_value (produtos_sem_pis_cofins acc));
                        ("exemplos", VList (firstn 3 (produtos_sem_pis_cofins acc))) ]) ])
  end.

Definition analisar_nota_individual (invoice_data : Invoice) : t value :=
  totais <~ ret (get_or (totais invoice_data) no_totais) ;;
  let produtos_ := get_or (produtos invoice_data) [] in
  emitente_uf <~
    _safe_get (step (step (get (emitente invoice_data)) emit_endereco) end_uf) "SP" ;;
  destinatario_uf <~
    _safe_get (step (step (get (destinatario invoice_data)) dest_endereco) end_uf) "SP" ;;
  totais <~ lift (match totais with
                  | Some t => Ok t
                  | None => Raise AttributeError
                  end) ;;
  valor_total <~ _safe_decimal (get (valor_total_nf totais)) ;;
  valor_icms_ <~ _safe_decimal (get (valor_icms totais)) ;;
  valor_pis_ <~ _safe_decimal (get (valor_pis totais)) ;;
  valor_cofins_ <~ _safe_decimal (get (valor_cofins totais)) ;;
  valor_ipi_ <~ _safe_decimal (get (valor_ipi totais)) ;;
  let campos_none := campos_none_of totais in
  (* 1. total of the taxes *)
  s1 <~ lift (Dec.add valor_icms_ valor_pis_) ;;
  s2 <~ lift (Dec.add s1 valor_cofins_) ;;
  s3 <~ lift (Dec.add s2 valor_ipi_) ;;
  total_impostos <~ lift (half_up s3) ;;
  (* 2. tax burden *)
  positive_total <~ lift (Dec.gt valor_total Dec.zero) ;;
  carga_tributaria <~
    lift (if positive_total then share_of total_impostos valor_total else Ok Dec.zero) ;;
  (* 3. recoverable credits *)
  pis_padrao_ <~ rate pis_padrao ;;
  credito_pis_potencial <~ lift (percent_of valor_total pis_padrao_) ;;
  cofins_padrao_ <~ rate cofins_padrao ;;
  credito_cofins_potencial <~ lift (percent_of valor_total cofins_padrao_) ;;
  d_pis <~ lift (Dec.sub credito_pis_potencial valor_pis_) ;;
  credito_pis_recuperavel <~ lift (Dec.max Dec.zero d_pis) ;;
  d_cofins <~ lift (Dec.sub credito_cofins_potencial valor_cofins_) ;;
  credito_cofins_recuperavel <~ lift (Dec.max Dec.zero d_cofins) ;;
  credito_total_recuperavel <~
    lift (Dec.add credito_pis_recuperavel credito_cofins_recuperavel) ;;
  (* 4. ICMS *)
  icms_interno_ <~ rate icms_interno ;;
  icms_interno_again <~ rate icms_interno ;;
  icms_default <~ item icms_interno_again "default" ;;
  let aliquota_icms_uf := lookup_or emitente_uf icms_interno_ icms_default in
  base_icms <~ _safe_decimal (get (base_calculo_icms totais)) ;;
  positive_base <~ lift (Dec.gt base_icms Dec.zero) ;;
  icms_esperado <~
    lift (if positive_base then percent_of base_icms aliquota_icms_uf else Ok Dec.zero) ;;
  diferenca_icms <~ lift (Dec.sub valor_icms_ icms_esperado) ;;
  (* 5. regimes *)
  comparacao_regimes <~ _comparar_regimes_tributarios (Dec.to_float valor_total) ;;
  (* 6. products *)
  analise_produtos <~ _analisar_produtos produtos_ ;;
  (* 7. interstate operation *)
  let operacao_interestadual := negb (String.eqb emitente_uf destinatario_uf) in
  (* the returned dictionary, evaluated entry by entry *)
  classificacao <~ _classificar_carga_tributaria (Dec.to_float carga_tributaria) ;;
  anual <~ lift (Dec.mul credito_total_recuperavel (D 12 0)) ;;
  small <~ lift (Dec.lt (Dec.abs diferenca_icms) (D 50 (-2))) ;;
  total_produtos <~
    lift (match produtos_ with
          | Some l => Ok (len_value l)
          | None => Raise TypeError
          end) ;;
  ret (VDict
         [ ("impostos_calculados",
            VDict [ ("icms", VFloat (Dec.to_float valor_icms_));
                    ("pis", VFloat (Dec.to_float valor_pis_));
                    ("cofins", VFloat (Dec.to_float valor_cofins_));
                    ("ipi", VFloat (Dec.to_float valor_ipi_));
                    ("total_impostos", VFloat (Dec.to_float total_impostos));
                    ("campos_ausentes", str_list campos_none) ]);
           ("carga_tributaria",
            VDict [ ("percentual", VFloat (Dec.to_float carga_tributaria));
                    ("classificacao", VStr classificacao);
                    ("valor_total_nf", VFloat (Dec.to_float valor_total)) ]);
           ("oportunidades_creditos",
            VDict [ ("pis",
                     VDict [ ("atual", VFloat (Dec.to_float valor_pis_));
                             ("potencial", VFloat (Dec.to_float credito_pis_potencial));
                             ("recuperavel", VFloat (Dec.to_float credito_pis_recuperavel));
                             ("ausente", VBool (is_none (valor_pis totais))) ]);
                    ("cofins",
                     VDict [ ("atual", VFloat (Dec.to_float valor_cofins_));
                             ("potencial", VFloat (Dec.to_float credito_cofins_potencial));
                             ("recuperavel", VFloat (Dec.to_float credito_cofins_recuperavel));
                             ("ausente", VBool (is_none (valor_cofins totais))) ]);
                    ("total_recuperavel_mensal",
                     VFloat (Dec.to_float credito_total_recuperavel));
                    ("total_recuperavel_anual", VFloat (Dec.to_float anual));
                    ("observacao",
                     if is_nil campos_none then VNone
                     else VStr "Valores calculados considerando campos ausentes como R$ 0,00") ]);
           ("analise_icms",
            VDict [ ("valor_cobrado", VFloat (Dec.to_float valor_icms_));
                    ("valor_esperado", VFloat (Dec.to_float icms_esperado));
                    ("diferenca", VFloat (Dec.to_float diferenca_icms));
                    ("aliquota_uf", VFloat (Dec.to_float aliquota_icms_uf));
                    ("base_calculo", VFloat (Dec.to_float base_icms));
                    ("status", VStr (if small then "correto" else "verificar"));
                    ("ausente", VBool (is_none (valor_icms totais))) ]);
           ("comparacao_regimes", comparacao_regimes);
           ("analise_produtos", analise_produtos);
           ("contexto_operacao",
            VDict [ ("interestadual", VBool operacao_interestadual);
                    ("uf_emitente", VStr emitente_uf);
                    ("uf_destinatario", VStr destinatario_uf);
                    ("total_produtos", total_produtos) ]);
           ("qualidade_dados",
            VDict [ ("campos_none_total", len_value campos_none);
                    ("campos_none_lista", str_list campos_none);
                    ("integridade_dados",
                     VStr (if is_nil campos_none then "completa" else "parcial")) ]) ]).


Fixpoint upsert_by {K V : Type} (eqb : K -> K -> bool) (k : K) (init : V)
    (f : V -> t V) (d : list (K * V)) : t (list (K * V)) :=
  match d with
  | [] => v <~ f init ;; ret [(k, v)]
  | (k', v) :: d' =>
      if eqb k k' then v' <~ f v ;; ret ((k', v') :: d')
      else r <~ upsert_by eqb k init f d' ;; ret ((k', v) :: r)
  end.

Definition add_produto (d : list (option string * produto_agg)) (prod : Produto)
  : t (list (option string * produto_agg)) :=
  let codigo := get_or (codigo prod) "N/A" in
  upsert_by opt_string_eqb codigo
    {| p_descricao := get_or (descricao prod) "N/A";
       p_quantidade := Dec.zero; p_valor_total := Dec.zero |}
    (fun dados =>
       quantidade_ <~ _safe_decimal (get (quantidade prod)) ;;
       q <~ lift (Dec.add (p_quantidade dados) quantidade_) ;;
       valor_total_ <~ _safe_decimal (get (valor_total prod)) ;;
       v <~ lift (Dec.add (p_valor_total dados) valor_total_) ;;
       ret {| p_descricao := p_descricao dados; p_quantidade := q; p_valor_total := v |})
    d.

Fixpoint add_produtos (d : list (option string * produto_agg)) (l : list Produto)
  : t (list (option string * produto_agg)) :=
  match l with
  | [] => ret d
  | prod :: rest => d' <~ add_produto d prod ;; add_produtos d' rest
  end.

(** The body of [for inv in invoices_data]. *)
Definition accumulate (a : acc) (inv : Invoice) : t acc :=
  totais <~ lift (section (totais inv) no_totais) ;;
  valor_nf <~ _safe_decimal (get (valor_total_nf totais)) ;;
  faturamento <~ lift (Dec.add (faturamento_total a) valor_nf) ;;
  icms_ <~ _safe_decimal (get (valor_icms totais)) ;;
  pis_ <~ _safe_decimal (get (valor_pis totais)) ;;
  cofins_ <~ _safe_decimal (get (valor_cofins totais)) ;;
  ipi_ <~ _safe_decimal (get (valor_ipi totais)) ;;
  let nota_tem_none :=
    is_none (valor_pis totais) || is_none (valor_cofins totais)
    || is_none (valor_icms totais) || is_none (valor_ipi totais) in
  icms_t <~ lift (Dec.add (icms_total a) icms_) ;;
  pis_t <~ lift (Dec.add (pis_total a) pis_) ;;
  cofins_t <~ lift (Dec.add (cofins_total a) cofins_) ;;
  ipi_t <~ lift (Dec.add (ipi_total a) ipi_) ;;
  s1 <~ lift (Dec.add icms_ pis_) ;;
  s2 <~ lift (Dec.add s1 cofins_) ;;
  s3 <~ lift (Dec.add s2 ipi_) ;;
  impostos_t <~ lift (Dec.add (impostos_total a) s3) ;;
  emitente_ <~ _safe_get (step (get (emitente inv)) razao_social) "N/A" ;;
  fornecedores_ <~
    lift (upsert String.eqb emitente_
            {| f_valor := Dec.zero; f_quantidade := 0 |}
            (fun dados =>
               v <- Dec.add (f_valor dados) valor_nf ;;
               Ok {| f_valor := v; f_quantidade := f_quantidade dados + 1 |})
            (fornecedores a)) ;;
  produtos_ <~ lift (listing (produtos inv)) ;;
  produtos_dict_ <~ add_produtos (produtos_dict a) produtos_ ;;
  data_emissao_ <~ _safe_get (step (get (identificacao inv)) data_emissao) "" ;;
  notas_por_mes_ <~
    lift (if truthy data_emissao_ then
            let mes := substring 0 7 data_emissao_ in
            upsert String.eqb mes {| m_quantidade := 0; m_valor := Dec.zero |}
              (fun dados =>
                 v <- Dec.add (m_valor dados) valor_nf ;;
                 Ok {| m_quantidade := m_quantidade dados + 1; m_valor := v |})
              (notas_por_mes a)
          else Ok (notas_por_mes a)) ;;
  ret {| faturamento_total := faturamento; impostos_total := impostos_t;
         icms_total := icms_t; pis_total := pis_t; cofins_total := cofins_t;
         ipi_total := ipi_t; fornecedores := fornecedores_;
         produtos_dict := produtos_dict_; notas_por_mes := notas_por_mes_;
         notas_com_none := bump nota_tem_none (notas_com_none a);
         none_pis := bump (is_none (valor_pis totais)) (none_pis a);
         none_cofins := bump (is_none (valor_cofins totais)) (none_cofins a);
         none_icms := bump (is_none (valor_icms totais)) (none_icms a);
         none_ipi := bump (is_none (valor_ipi totais)) (none_ipi a) |}.

Fixpoint accumulate_all (a : acc) (invoices_data : list Invoice) : t acc :=
  match invoices_data with
  | [] => ret a
  | inv :: rest => a' <~ accumulate a inv ;; accumulate_all a' rest
  end.

Definition analisar_multiplas_notas (invoices_data : list Invoice) : t value :=
  if is_nil invoices_data then ret (VDict [])
  else
    let total_notas := Z.of_nat (List.length invoices_data) in
    a <~ accumulate_all acc0 invoices_data ;;
    positive_total <~ lift (Dec.gt (faturamento_total a) Dec.zero) ;;
    carga <~
      lift (if positive_total then share_of (impostos_total a) (faturamento_total a)
            else Ok Dec.zero) ;;
    let carga_tributaria := Dec.to_float carga in
    ticket_medio <~
      lift (if 0 <? total_notas then
              q <- Dec.truediv (faturamento_total a) (Dec.of_Z total_notas) ;; half_up q
            else Ok Dec.zero) ;;
    entries <~
      lift (map_result (fornecedor_entry (faturamento_total a)) (fornecedores a)) ;;
    let top_fornecedores := firstn 10 (sorted_desc (fun e => fst (fst e)) entries) in
    let top_produtos :=
      firstn 10 (sorted_desc fst (map produto_entry (produtos_dict a))) in
    let concentracao_top3 :=
      value_sum (map (fun e => snd (fst e)) (firstn 3 top_fornecedores)) in
    comparacao_regimes <~
      _comparar_regimes_tributarios (Dec.to_float (faturamento_total a)) ;;
    let evolucao_mensal := map mes_entry (sorted_items (notas_por_mes a)) in
    classificacao <~ _classificar_carga_tributaria carga_tributaria ;;
    icms_percent <~ lift (percent_or_zero (icms_total a) (impostos_total a)) ;;
    pis_percent <~ lift (percent_or_zero (pis_total a) (impostos_total a)) ;;
    cofins_percent <~ lift (percent_or_zero (cofins_total a) (impostos_total a)) ;;
    incompletas <~
      lift (if 0 <? total_notas then
              p <- share_of (Dec.of_Z (notas_com_none a)) (Dec.of_Z total_notas) ;;
              Ok (VFloat (Dec.to_float p))
            else Ok (VInt 0)) ;;
    ret (VDict
           [ ("metricas_gerais",
              VDict [ ("total_notas", VInt total_notas);
                      ("faturamento_total", VFloat (Dec.to_float (faturamento_total a)));
                      ("ticket_medio", VFloat (Dec.to_float ticket_medio));
                      ("total_fornecedores", len_value (fornecedores a));
                      ("total_produtos_unicos", len_value (produtos_dict a)) ]);
             ("impostos_agregados",
              VDict [ ("icms_total", VFloat (Dec.to_float (icms_total a)));
                      ("pis_total", VFloat (Dec.to_float (pis_total a)));
                      ("cofins_total", VFloat (Dec.to_float (cofins_total a)));
                      ("ipi_total", VFloat (Dec.to_float (ipi_total a)));
                      ("total_impostos", VFloat (Dec.to_float (impostos_total a))) ]);
             ("carga_tributaria_agregada",
              VDict [ ("percentual", VFloat carga_tributaria);
                      ("classificacao", VStr classificacao);
                      ("distribuicao",
                       VDict [ ("icms_percent", icms_percent);
                               ("pis_percent", pis_percent);
                               ("cofins_percent", cofins_percent) ]) ]);
             ("top_fornecedores", VList (map snd top_fornecedores));
             ("analise_concentracao",
              VDict [ ("concentracao_top3_percent",
                       VFloat (float_of_value concentracao_top3));
                      ("nivel_risco",
                       VStr (if value_gt concentracao_top3 70 then "alto"
                             else if value_gt concentracao_top3 50 then "medio"
                             else "baixo")) ]);
             ("top_produtos", VList (map snd top_produtos));
             ("comparacao_regimes", comparacao_regimes);
             ("evolucao_temporal", VList evolucao_mensal);
             ("qualidade_dados",
              VDict [ ("notas_com_campos_none", VInt (notas_com_none a));
                      ("percentual_notas_incompletas", incompletas);
                      ("campos_none_por_tipo",
                       VDict [ ("PIS", VInt (none_pis a));
                               ("COFINS", VInt (none_cofins a));
                               ("ICMS", VInt (none_icms a));
                               ("IPI", VInt (none_ipi a)) ]);
                      ("observacao",
                       VStr (if 0 <? notas_com_none a then
                               str_of_Z (notas_com_none a) ++ " de " ++ str_of_Z total_notas
                                 ++ " notas possuem campos ausentes (None)"
                             else "Todos os campos preenchidos")) ]) ]).

End Calc.

(** * Vocabulary of the properties

    The sequences, samples and predicates the statements below speak of.
    Where a definition follows the wording of the specification rather than
    the source, its comment says so. *)

(** ** Digit sequences *)

(** A decimal digit, and the string that spells a sequence of digits. *)
Definition is_digit_value (d : Z) : Prop := 0 <= d <= 9.

Fixpoint digits_string (ds : list Z) : string :=
  match ds with
  | [] => EmptyString
  | d :: rest => String (digit_char d) (digits_string rest)
  end.

(** The sequence [ds] with its digit at position [i] replaced by [d]. *)
Fixpoint set_nth (i : nat) (d : Z) (ds : list Z) : list Z :=
  match ds, i with
  | [], _ => []
  | _ :: rest, O => d :: rest
  | x :: rest, S j => x :: set_nth j d rest
  end.

(** The check digits as the specification words them: the sum of the
    leading digits weighted by [ws], reduced modulo 11; a remainder below 2
    gives the digit 0, another remainder [r] gives [11 - r]. *)
Definition dot (ws ds : list Z) : Z :=
  fold_right Z.add 0 (map (fun p => fst p * snd p) (combine ws ds)).

Definition check_digit_lt2 (ws ds : list Z) : Z :=
  let r := dot ws ds mod 11 in
  if r <? 2 then 0 else 11 - r.

(** The two check-digit equations of a 14-digit tax id, in the words of the
    specification. *)
Definition cnpj_equations (ds : list Z) : Prop :=
  nth 12 ds 0 = check_digit_lt2 [5; 4; 3; 2; 9; 8; 7; 6; 5; 4; 3; 2] ds
  /\ nth 13 ds 0 = check_digit_lt2 [6; 5; 4; 3; 2; 9; 8; 7; 6; 5; 4; 3; 2] ds.

(** The fourteen digits of the issuer of the repository's sample invoice,
    "31.152.562/0003-46". *)
Definition cnpj_nobre : list Z := [3; 1; 1; 5; 2; 5; 6; 2; 0; 0; 0; 3; 4; 6].

(** The weight of the digit [j] places from the right end of the 43 leading
    digits: 2, 3, ..., 9 and again. *)
Definition cyclic_weight (j : nat) : Z := 2 + Z.of_nat (j mod 8).

(** The check digit of an access key, in the words of the specification:
    modulo 11 over the 43 leading digits, a remainder of 0 or 1 giving 0. *)
Definition chave_check_digit (ds : list Z) : Z :=
  let total :=
    fold_right Z.add 0
      (map (fun i => nth i ds 0 * cyclic_weight (42 - i)) (seq 0 43)) in
  let r := total mod 11 in
  if (r =? 0) || (r =? 1) then 0 else 11 - r.

(** The access key of the repository's sample invoice. *)
Definition chave_nobre : list Z :=
  [3; 5; 2; 5; 0; 5; 3; 1; 1; 5; 2; 5; 6; 2; 0; 0; 0; 3; 4; 6; 5; 5;
   0; 0; 1; 0; 0; 0; 0; 1; 1; 3; 3; 4; 1; 0; 0; 0; 4; 4; 0; 8; 0; 3].

(** ** The line total *)

(** The check as the specification words it, on the decimal values of the
    arguments: [|round(qty * unit_price, 2) - declared| <= tolerance]. *)
Definition line_total_within_decimal (qty unit_price declared tolerance : F64.t)
  : result bool :=
  product <- Dec.mul (Dec.of_float qty) (Dec.of_float unit_price) ;;
  expected <- Dec.round2 product ;;
  d <- Dec.sub expected (Dec.of_float declared) ;;
  above <- Dec.gt (Dec.abs d) (Dec.of_float tolerance) ;;
  Ok (negb above).

(** ** Findings *)

(** [self'] is [self] with errors that satisfy [P] and warnings that
    satisfy [Q] appended. *)
Definition extends (P Q : ValidationError -> Prop) (self self' : FiscalValidator) : Prop :=
  exists es ws,
    errors self' = (errors self ++ es)%list
    /\ warnings self' = (warnings self ++ ws)%list
    /\ Forall P es /\ Forall Q ws.

(** The field of the findings about the access key. *)
Definition key_path : string := "identificacao.chave_acesso".

(** The severities of the findings kept in [errors] and in [warnings]. *)
Definition is_error (e : ValidationError) : Prop :=
  severity e = "critico" \/ severity e = "erro".
Definition is_warning (e : ValidationError) : Prop :=
  severity e = "aviso".
Definition off_key (e : ValidationError) : Prop :=
  field_path e <> key_path.

(** An error, respectively a warning, that is not about the access key. *)
Definition plain_error (e : ValidationError) : Prop := is_error e /\ off_key e.
Definition plain_warning (e : ValidationError) : Prop := is_warning e /\ off_key e.

(** The instance [validate_invoice] compiles its report from. *)
Definition validated (inv : Invoice) : result FiscalValidator :=
  let self := {| errors := []; warnings := [] |} in
  self <- _validate_documents self inv ;;
  self <- _validate_fiscal_codes self inv ;;
  self <- _validate_products_calculations self inv ;;
  self <- _validate_tax_calculations self inv ;;
  self <- _validate_totals self inv ;;
  _validate_consistency self inv.

(** The findings a report lists, and how many of them have a severity. *)
Definition problemas (r : value) : list value :=
  match path_get r ["problemas"] with
  | Some (VList l) => l
  | _ => []
  end.

(** [p['severity'] == sev] for a finding [p] of a report. *)
Definition has_severity (sev : string) (p : value) : bool :=
  match path_get p ["severity"] with
  | Some (VStr s) => String.eqb s sev
  | _ => false
  end.

Definition report_count (sev : string) (r : value) : Z :=
  Z.of_nat (List.length (filter (has_severity sev) (problemas r))).

(** [r['validacao_geral'][k]] *)
Definition geral (r : value) (k : string) : option value :=
  path_get r ["validacao_geral"; k].

(** The number of findings of severity [sev] in a list of the instance. *)
Definition count_of (sev : string) (l : list ValidationError) : Z :=
  Z.of_nat (List.length (filter (fun e => String.eqb (severity e) sev) l)).

(** ** Sample invoices *)

(** The sample invoice of the repository, [exemplo_nf_com_none] in
    [agents/fiscal_intelligence_agent.py]. *)
Definition exemplo_nf_com_none : Invoice :=
  {| identificacao :=
       Given {| chave_acesso :=
                  Given "3525.0531.1525.6200.0346.5500.1000.0113.3410.0044.0803";
                tipo_operacao := Given "0 - Entrada";
                data_emissao := Given "2025-05-09" |};
     emitente :=
       Given {| emit_cnpj := Given "31.152.562/0003-46";
                razao_social := Given "NOBRE COMERCIO DE MOTOCICLETAS";
                emit_uf := Missing;
                emit_endereco := Given {| end_uf := Given "SP" |} |};
     destinatario :=
       Given {| documento := Given "529.278.128-29";
                tipo_documento := Given "CPF";
                dest_endereco := Given {| end_uf := Given "SP" |} |};
     produtos :=
       Given
         [ {| codigo := Given "90793AB42600"; descricao := Given "OLEO YAMALUBE 4T";
              ncm := Given "27101932"; cfop := Given "5656";
              quantidade := Given (lit 10 (-1));
              valor_unitario := Given (lit 329 (-1));
              valor_total := Given (lit 329 (-1));
              impostos :=
                Given {| icms := Given (lit 0 (-1)); pis := Null; cofins := Null |} |};
           {| codigo := Given "904301222700"; descricao := Given "GAXETA";
              ncm := Given "73182900"; cfop := Given "5102";
              quantidade := Given (lit 10 (-1));
              valor_unitario := Given (lit 194 (-2));
              valor_total := Given (lit 194 (-2));
              impostos :=
                Given {| icms := Given (lit 35 (-2)); pis := Null; cofins := Null |} |} ];
     totais :=
       Given {| valor_produtos := Given (lit 25978 (-2));
                valor_total_nf := Given (lit 25978 (-2));
                base_calculo_icms := Given (lit 151 (-1));
                valor_icms := Given (lit 272 (-2));
                aliquota_icms := Missing;
                valor_ipi := Given (lit 0 (-1));
                base_calculo_pis := Missing;
                valor_pis := Null;
                aliquota_pis := Missing;
                base_calculo_cofins := Missing;
                valor_cofins := Null;
                aliquota_cofins := Missing |} |}.

(** A validator as [__init__] leaves it. *)
Definition fresh_validator : FiscalValidator := {| errors := []; warnings := [] |}.

(** ** The per-line gate *)

(** The gate as the specification words it: at least one of the three
    numbers is not zero. *)
Definition some_nonzero (qtd val_unit val_total : F64.t) : bool :=
  negb (F64.eqb qtd F64.zero) || negb (F64.eqb val_unit F64.zero)
  || negb (F64.eqb val_total F64.zero).

(** The locals [qtd], [val_unit], [val_total] and [desc] of the loop of
    [_validate_products_calculations] at line [i]. *)
Definition qtd_of (p : Produto) : F64.t := _safe_float (get (quantidade p)) F64.zero.
Definition val_unit_of (p : Produto) : F64.t := _safe_float (get (valor_unitario p)) F64.zero.
Definition val_total_of (p : Produto) : F64.t := _safe_float (get (valor_total p)) F64.zero.

Definition desc_of (i : nat) (p : Produto) : option string :=
  get_or (descricao p) ("Produto " ++ str_of_nat (i + 1)).

(** A line with its three numbers absent. *)
Definition linha_vazia : Produto :=
  {| codigo := Given "X"; descricao := Given "LINHA"; ncm := Null; cfop := Null;
     quantidade := Null; valor_unitario := Given (lit 0 (-1)); valor_total := Missing;
     impostos := Missing |}.

(** A line that declares a total of -10.00 for no quantity at no price. *)
Definition linha_negativa : Produto :=
  {| codigo := Given "D"; descricao := Given "DESCONTO"; ncm := Null; cfop := Null;
     quantidade := Given (lit 0 (-1)); valor_unitario := Given (lit 0 (-1));
     valor_total := Given (F64.of_decimal true 1000 (-2));
     impostos := Missing |}.

(** [p['field'] == path] for a finding [p] of a report. *)
Definition about (path : string) (p : value) : bool :=
  match path_get p ["field"] with
  | Some (VStr s) => String.eqb s path
  | _ => false
  end.

(** [inv] with the access key [chave]. *)
Definition with_chave (chave : field string) (inv : Invoice) : Invoice :=
  {| identificacao :=
       Given {| chave_acesso := chave;
                tipo_operacao := Given "1 - Saida";
                data_emissao := Given "2025-05-09" |};
     emitente := emitente inv; destinatario := destinatario inv;
     produtos := produtos inv; totais := totais inv |}.

(** A report without its timestamp. *)
Definition without_timestamp (r : value) : value :=
  match r with
  | VDict d => VDict (filter (fun kv => negb (String.eqb (fst kv) "timestamp")) d)
  | _ => r
  end.

(** ** Metrics *)

(** The total of the taxes and the tax burden as [analisar_nota_individual]
    computes them from the section [totais]. *)
Definition total_impostos_of (t : Totais) : result Dec.t :=
  s1 <- Dec.add (_safe_decimal (get (valor_icms t))) (_safe_decimal (get (valor_pis t))) ;;
  s2 <- Dec.add s1 (_safe_decimal (get (valor_cofins t))) ;;
  s3 <- Dec.add s2 (_safe_decimal (get (valor_ipi t))) ;;
  half_up s3.

Definition carga_of (t : Totais) (total_impostos : Dec.t) : result Dec.t :=
  let valor_total := _safe_decimal (get (valor_total_nf t)) in
  positive_total <- Dec.gt valor_total Dec.zero ;;
  if positive_total then share_of total_impostos valor_total else Ok Dec.zero.

(** The figures of the scenario with grand total 259.78 and ICMS 2.72. *)
Definition scenario_holds (r : value) : Prop :=
  path_get r ["impostos_calculados"; "total_impostos"] = Some (VFloat (lit 272 (-2)))
  /\ path_get r ["impostos_calculados"; "campos_ausentes"]
     = Some (VList [VStr "PIS"; VStr "COFINS"])
  /\ path_get r ["qualidade_dados"; "campos_none_lista"]
     = Some (VList [VStr "PIS"; VStr "COFINS"])
  /\ path_get r ["carga_tributaria"; "percentual"] = Some (VFloat (lit 105 (-2))).

(** The exceptions a division by zero raises. *)
Definition division_error (e : exn) : bool :=
  match e with
  | DivisionUndefined | DivisionByZero | ZeroDivisionError => true
  | _ => false
  end.

(** The outcome [r] is not a division error. *)
Definition no_division_error {A : Type} (r : result A) : Prop :=
  match r with
  | Ok _ => True
  | Raise e => division_error e = false
  end.

(** [x] is a zero, of either sign and any exponent. *)
Definition is_zero (x : Dec.t) : bool :=
  match x with
  | Dec.Fin _ c _ => c =? 0
  | _ => false
  end.

(** The entries a report lists under [top_fornecedores]. *)
Definition top_fornecedores_of (r : value) : list value :=
  match path_get r ["top_fornecedores"] with
  | Some (VList l) => l
  | _ => []
  end.

(** The percentages reported under [distribuicao]. *)
Definition distribuicao_of (r : value) : list value :=
  match path_get r ["carga_tributaria_agregada"; "distribuicao"] with
  | Some (VDict d) => map snd d
  | _ => []
  end.

(** An invoice whose totals are all 0.0. *)
Definition nota_zerada : Invoice :=
  {| identificacao := Given {| chave_acesso := Null; tipo_operacao := Null;
                               data_emissao := Given "2025-05-09" |};
     emitente := Given {| emit_cnpj := Null; razao_social := Given "FORNECEDOR";
                          emit_uf := Missing; emit_endereco := Null |};
     destinatario := Given {| documento := Null; tipo_documento := Null;
                              dest_endereco := Null |};
     produtos := Given [];
     totais :=
       Given {| valor_produtos := Given (lit 0 (-1));
                valor_total_nf := Given (lit 0 (-1));
                base_calculo_icms := Given (lit 0 (-1));
                valor_icms := Given (lit 0 (-1));
                aliquota_icms := Missing;
                valor_ipi := Given (lit 0 (-1));
                base_calculo_pis := Missing;
                valor_pis := Given (lit 0 (-1));
                aliquota_pis := Missing;
                base_calculo_cofins := Missing;
                valor_cofins := Given (lit 0 (-1));
                aliquota_cofins := Missing |} |}.

(** ** Digits of a string *)

(** The decimal digits a string holds, in order: what is left of it after
    [re.sub(r'[^0-9]', '', s)]. *)
Definition digits_of (s : string) : list Z :=
  map int_of_char (list_ascii_of_string (only_digits s)).

(** One digit repeated over the whole sequence. *)
Definition one_digit_repeated (ds : list Z) : Prop :=
  exists d, ds = List.repeat d (List.length ds).

(** The weights [10 - i] for [i] in [range(9)] and [11 - i] for [i] in
    [range(10)] of [validate_cpf], and the two equations they give the
    check digits of an 11-digit tax id. *)
Definition cpf_weight_1 : list Z := [10; 9; 8; 7; 6; 5; 4; 3; 2].
Definition cpf_weight_2 : list Z := [11; 10; 9; 8; 7; 6; 5; 4; 3; 2].

Definition cpf_equations (ds : list Z) : Prop :=
  nth 9 ds 0 = check_digit_lt2 cpf_weight_1 ds
  /\ nth 10 ds 0 = check_digit_lt2 cpf_weight_2 ds.

(** The eleven digits of the recipient of the sample invoice,
    "529.278.128-29". *)
Definition cpf_exemplo : list Z := [5; 2; 9; 2; 7; 8; 1; 2; 8; 2; 9].

(** [sum(ds[i] * g(i) for i in range(a, a + n))] *)
Definition positional_sum (g : nat -> Z) (ds : list Z) (a n : nat) : Z :=
  fold_right Z.add 0 (map (fun i => nth i ds 0 * g i) (seq a n)).

(** ** Fiscal codes *)

(** The direction a CFOP stands for: its digits are four and the first is
    1, 2 or 3 (entrada) or 5, 6 or 7 (saida). *)
Definition cfop_direction (cfop : string) : option string :=
  match digits_of cfop with
  | [d; _; _; _] =>
      if (1 <=? d) && (d <=? 3) then Some "entrada"
      else if (5 <=? d) && (d <=? 7) then Some "saida"
      else None
  | _ => None
  end.

(** The product carries a CFOP whose direction is not [tipo_op]. *)
Definition cfop_mismatch (tipo_op : string) (p : Produto) : bool :=
  match get (cfop p) with
  | Some c =>
      match cfop_direction c with
      | Some t => negb (String.eqb t tipo_op)
      | None => false
      end
  | None => false
  end.

(** The positions, counted from [i], of the products of [l] whose CFOP
    mismatches [tipo_op]. *)
Fixpoint mismatched (tipo_op : string) (i : nat) (l : list Produto) : list nat :=
  match l with
  | [] => []
  | p :: rest =>
      if cfop_mismatch tipo_op p then i :: mismatched tipo_op (S i) rest
      else mismatched tipo_op (S i) rest
  end.

(** The product carries a CFOP that [validate_cfop] accepts. *)
Definition cfop_accepted (p : Produto) : bool :=
  match get (cfop p) with
  | Some c => fst (fst (validate_cfop c))
  | None => false
  end.

(** ** Sections that hold None *)

(** One of the five sections of the invoice, or the key [uf] of its
    issuer, holds None. *)
Definition holds_none (inv : Invoice) : Prop :=
  emitente inv = Null \/ destinatario inv = Null \/ identificacao inv = Null
  \/ produtos inv = Null \/ totais inv = Null
  \/ exists em, emitente inv = Given em /\ emit_uf em = Null.

(** The sample invoice with its operation type spelled "Saida", the state
    of the issuer given and the value of the products equal to the sum of
    its two lines. *)
Definition nota_valida : Invoice :=
  {| identificacao :=
       Given {| chave_acesso :=
                  Given "3525.0531.1525.6200.0346.5500.1000.0113.3410.0044.0803";
                tipo_operacao := Given "Saida";
                data_emissao := Given "2025-05-09" |};
     emitente :=
       Given {| emit_cnpj := Given "31.152.562/0003-46";
                razao_social := Given "NOBRE COMERCIO DE MOTOCICLETAS";
                emit_uf := Given "sp";
                emit_endereco := Given {| end_uf := Given "SP" |} |};
     destinatario := destinatario exemplo_nf_com_none;
     produtos := produtos exemplo_nf_com_none;
     totais :=
       Given {| valor_produtos := Given (lit 3484 (-2));
                valor_total_nf := Given (lit 3484 (-2));
                base_calculo_icms := Given (lit 151 (-1));
                valor_icms := Given (lit 272 (-2));
                aliquota_icms := Missing;
                valor_ipi := Given (lit 0 (-1));
                base_calculo_pis := Missing;
                valor_pis := Null;
                aliquota_pis := Missing;
                base_calculo_cofins := Missing;
                valor_cofins := Null;
                aliquota_cofins := Missing |} |}.

(** The sample invoice with the section of its issuer holding None. *)
Definition nota_sem_emitente : Invoice :=
  {| identificacao := identificacao exemplo_nf_com_none;
     emitente := Null;
     destinatario := destinatario exemplo_nf_com_none;
     produtos := produtos exemplo_nf_com_none;
     totais := totais exemplo_nf_com_none |}.

(** ** The calculator's reports *)

(** The two tests of the loop of [_analisar_produtos] on a product whose
    [impostos] is a dictionary: [icms_val is None or icms_val == 0], and
    [impostos.get('pis') is None or impostos.get('cofins') is None]. *)
Definition sem_icms (p : Produto) : bool :=
  match get_or (impostos p) no_impostos with
  | Some i =>
      match get (icms i) with
      | None => true
      | Some x => F64.eqb x F64.zero
      end
  | None => false
  end.

Definition sem_pis_cofins (p : Produto) : bool :=
  match get_or (impostos p) no_impostos with
  | Some i => is_none (pis i) || is_none (cofins i)
  | None => false
  end.

(** The name under which [_analisar_produtos] lists a product. *)
Definition nome_of (p : Produto) : value := VOptStr (get_or (descricao p) "N/A").

(** A float that is a number or an infinity of sign [s] ([true] is minus),
    or a zero of that sign; not a NaN. *)
Definition signed_as (s : bool) (x : F64.t) : Prop :=
  match x with
  | S754_zero s' | S754_infinity s' | S754_finite s' _ _ => s' = s
  | S754_nan => False
  end.

(** A decimal that is not below zero: a finite one whose signed
    coefficient is not negative, or plus infinity. *)
Definition dec_nonneg (x : Dec.t) : Prop :=
  match x with
  | Dec.Fin s c _ => 0 <= Dec.signed s c
  | Dec.Inf s => s = false
  | Dec.NaN => False
  end.

(** The invoice with its issuer, its recipient and its identification
    replaced. *)
Definition with_parties (em : field Emitente) (de : field Destinatario)
    (ident : field Identificacao) (inv : Invoice) : Invoice :=
  {| identificacao := ident; emitente := em; destinatario := de;
     produtos := produtos inv; totais := totais inv |}.

(** [inv.get('totais', {})] when it is a dictionary. *)
Definition totais_of (inv : Invoice) : Totais :=
  match totais inv with
  | Given t => t
  | _ => no_totais
  end.

(** [totais.get(f) is None]. *)
Definition lacks (f : Totais -> field F64.t) (inv : Invoice) : bool :=
  is_none (f (totais_of inv)).

(** One of the four amounts the loop of [analisar_multiplas_notas] tests is
    None or missing. *)
Definition lacks_some (inv : Invoice) : bool :=
  lacks valor_pis inv || lacks valor_cofins inv || lacks valor_icms inv
  || lacks valor_ipi inv.

(** One of the three amounts [analisar_nota_individual] tests is None or
    missing. *)
Definition lacks_tracked (inv : Invoice) : bool :=
  lacks valor_pis inv || lacks valor_cofins inv || lacks valor_icms inv.

(** The number of elements of [l] that satisfy [f]. *)
Definition count_where {A : Type} (f : A -> bool) (l : list A) : Z :=
  Z.of_nat (List.length (filter f l)).

(** Each float is at most the one before it. *)
Fixpoint descending (ks : list F64.t) : Prop :=
  match ks with
  | [] => True
  | a :: rest =>
      match rest with
      | [] => True
      | b :: _ => F64.leb b a = true
      end /\ descending rest
  end.

(** No float is below the one after it; with a NaN in the list this says
    less than [descending]. *)
Fixpoint no_rise (ks : list F64.t) : Prop :=
  match ks with
  | [] => True
  | a :: rest =>
      match rest with
      | [] => True
      | b :: _ => F64.ltb a b = false
      end /\ no_rise rest
  end.

(** Each string is strictly below the one after it, in the order of
    [str.__lt__]. *)
Fixpoint ascending (l : list string) : Prop :=
  match l with
  | [] => True
  | a :: rest =>
      match rest with
      | [] => True
      | b :: _ => String.ltb a b = true
      end /\ ascending rest
  end.

Fixpoint no_fall (l : list string) : Prop :=
  match l with
  | [] => True
  | a :: rest =>
      match rest with
      | [] => True
      | b :: _ => String.ltb b a = false
      end /\ no_fall rest
  end.

(** The list a report holds under [evolucao_temporal]. *)
Definition evolucao_of (r : value) : list value :=
  match path_get r ["evolucao_temporal"] with
  | Some (VList l) => l
  | _ => []
  end.

(** The local [data_emissao] of the loop of [analisar_multiplas_notas],
    whether it is truthy, and the month [data_emissao[:7]]. *)
Definition data_of (inv : Invoice) : string :=
  or_default (step (get (identificacao inv)) data_emissao) "".

Definition dated (inv : Invoice) : bool := truthy (data_of inv).

Definition month_of (inv : Invoice) : string := substring 0 7 (data_of inv).

(** The sum of the counter [q] over the values of a dictionary. *)
Definition tally {K V : Type} (q : V -> Z) (d : list (K * V)) : Z :=
  fold_right (fun kv s => q (snd kv) + s) 0 d.

(** What the loop of [analisar_multiplas_notas] keeps true of its two
    dictionaries [fornecedores] and [notas_por_mes] after the invoices
    [seen], [n] in number: the keys are distinct, every counter is at least 1,
    the counters of the suppliers add up to [n] and those of the months to
    the number of invoices with a date, and the months are those of the
    invoices with a date. *)
Definition ledger_ok (a : acc) (n : Z) (seen : list Invoice) : Prop :=
  NoDup (map fst (fornecedores a))
  /\ Forall (fun kv => 1 <= f_quantidade (snd kv)) (fornecedores a)
  /\ tally f_quantidade (fornecedores a) = n
  /\ NoDup (map fst (notas_por_mes a))
  /\ Forall (fun kv => 1 <= m_quantidade (snd kv)) (notas_por_mes a)
  /\ tally m_quantidade (notas_por_mes a) = count_where dated seen
  /\ (forall m, In m (map fst (notas_por_mes a))
                <-> exists inv, In inv seen /\ dated inv = true /\ month_of inv = m).

(** While the accumulated volume is a number, so is the volume of every
    supplier. *)
Definition suppliers_defined (a : acc) : Prop :=
  faturamento_total a <> Dec.NaN ->
  Forall (fun kv => f_valor (snd kv) <> Dec.NaN) (fornecedores a).

(** The sample invoice with PIS and COFINS given and the IPI holding None. *)
Definition nota_sem_ipi : Invoice :=
  {| identificacao := identificacao exemplo_nf_com_none;
     emitente := emitente exemplo_nf_com_none;
     destinatario := destinatario exemplo_nf_com_none;
     produtos := produtos exemplo_nf_com_none;
     totais :=
       Given {| valor_produtos := Given (lit 25978 (-2));
                valor_total_nf := Given (lit 25978 (-2));
                base_calculo_icms := Given (lit 151 (-1));
                valor_icms := Given (lit 272 (-2));
                aliquota_icms := Missing;
                valor_ipi := Null;
                base_calculo_pis := Missing;
                valor_pis := Given (lit 429 (-2));
                aliquota_pis := Missing;
                base_calculo_cofins := Missing;
                valor_cofins := Given (lit 1974 (-2));
                aliquota_cofins := Missing |} |}.

(** A batch of three invoices: the sample, the one without IPI, and the
    one whose issuer is None. *)
Definition lote_exemplo : list Invoice :=
  [exemplo_nf_com_none; nota_sem_ipi; nota_sem_emitente].

(** * Properties *)

(** ** The empty batch *)

(** C5.  [analisar_multiplas_notas] applied to the empty list of invoices
    returns the empty dictionary; it raises nothing. *)
Theorem analisar_multiplas_notas_empty :
  analisar_multiplas_notas [] = Ok (VDict []).
Proof. reflexivity. Qed.

(** ** Digit sequences and the strings that spell them *)

#[local] Arguments digit_char : simpl never.
#[local] Arguments is_digit : simpl never.
#[local] Arguments int_of_char : simpl never.

Lemma digit_value_cases (d : Z) :
  is_digit_value d ->
  d = 0 \/ d = 1 \/ d = 2 \/ d = 3 \/ d = 4 \/ d = 5 \/ d = 6 \/ d = 7 \/ d = 8 \/ d = 9.
Proof. unfold is_digit_value. lia. Qed.

Ltac each_digit H :=
  apply digit_value_cases in H;
  repeat (destruct H as [H | H]); subst.

Lemma is_digit_digit_char (d : Z) :
  is_digit_value d -> is_digit (digit_char d) = true.
Proof. intros H. each_digit H; reflexivity. Qed.

Lemma int_of_digit_char (d : Z) :
  is_digit_value d -> int_of_char (digit_char d) = d.
Proof. intros H. each_digit H; reflexivity. Qed.

Lemma only_digits_digits_string (ds : list Z) :
  Forall is_digit_value ds -> only_digits (digits_string ds) = digits_string ds.
Proof.
  induction 1 as [| d rest Hd _ IH]; cbn [digits_string only_digits].
  - reflexivity.
  - rewrite (is_digit_digit_char d Hd), IH. reflexivity.
Qed.

Lemma length_digits_string (ds : list Z) :
  String.length (digits_string ds) = List.length ds.
Proof.
  induction ds as [| d rest IH]; cbn [digits_string String.length List.length];
    congruence.
Qed.

Lemma digit_at_digits_string (ds : list Z) :
  Forall is_digit_value ds ->
  forall i, digit_at (digits_string ds) i = nth i ds 0.
Proof.
  unfold digit_at.
  induction 1 as [| d rest Hd _ IH]; intros [| i];
    cbn [digits_string String.get nth]; trivial.
  now apply int_of_digit_char.
Qed.

Lemma digits_string_inj (ds ds' : list Z) :
  Forall is_digit_value ds -> Forall is_digit_value ds' ->
  digits_string ds = digits_string ds' -> ds = ds'.
Proof.
  intros H. revert ds'.
  induction H as [| d rest Hd _ IH]; intros [| d' rest'] H' E;
    cbn [digits_string] in E; try discriminate; trivial.
  inversion H' as [| ? ? Hd' Hrest']; subst.
  injection E as Ec Er.
  f_equal.
  - rewrite <- (int_of_digit_char d Hd), <- (int_of_digit_char d' Hd'). now rewrite Ec.
  - now apply IH.
Qed.

Lemma fold_left_sum_ext (f g : nat -> Z) (l : list nat) (a : Z) :
  (forall i, f i = g i) ->
  fold_left (fun acc i => acc + f i) l a = fold_left (fun acc i => acc + g i) l a.
Proof.
  intros E. revert a. induction l as [| i l IH]; intros a; cbn [fold_left]; trivial.
  now rewrite E, IH.
Qed.

Lemma weighted_sum_digits (ds w : list Z) (n : nat) :
  Forall is_digit_value ds ->
  weighted_sum (digits_string ds) w n
  = fold_left (fun acc i => acc + nth i ds 0 * nth i w 0) (seq 0 n) 0.
Proof.
  intros H. unfold weighted_sum.
  apply (fold_left_sum_ext (fun i => digit_at (digits_string ds) i * nth i w 0)).
  intros i. now rewrite digit_at_digits_string.
Qed.

Lemma digits_string_repeat (d : Z) (n : nat) :
  digits_string (List.repeat d n) = repeat_char (digit_char d) n.
Proof.
  induction n as [| n IH]; cbn [List.repeat digits_string repeat_char]; congruence.
Qed.

Lemma repeated_digits_spelled (n : nat) :
  repeated_digits n
  = map (fun d => digits_string (List.repeat d n)) [0; 1; 2; 3; 4; 5; 6; 7; 8; 9].
Proof.
  cbn [map]. rewrite !digits_string_repeat. reflexivity.
Qed.

(** A string of digits is one of [d * n] only if its digits are all [d]. *)
Lemma str_in_repeated (ds : list Z) :
  Forall is_digit_value ds ->
  ~ (exists d, ds = List.repeat d (List.length ds)) ->
  str_in (digits_string ds) (repeated_digits (List.length ds)) = false.
Proof.
  intros H N.
  assert (R : forall d, is_digit_value d ->
            String.eqb (digits_string ds)
              (digits_string (List.repeat d (List.length ds))) = false).
  { intros d Hd. apply String.eqb_neq. intros E. apply N. exists d.
    apply digits_string_inj in E; trivial.
    clear -Hd. induction (List.length ds); cbn [List.repeat]; constructor; trivial. }
  rewrite repeated_digits_spelled. unfold str_in. cbn [map existsb].
  rewrite !R by (unfold is_digit_value; lia).
  reflexivity.
Qed.

(** ** The 14-digit tax id *)

Ltac explicit_list ds H :=
  repeat (destruct ds as [| ? ds]; try discriminate H); clear H.

Lemma cnpj_sum_1 (ds : list Z) :
  List.length ds = 14%nat ->
  fold_left (fun acc i => acc + nth i ds 0 * nth i weight_1 0) (seq 0 12) 0
  = dot weight_1 ds.
Proof.
  intros L. explicit_list ds L. unfold dot, weight_1.
  cbn [seq fold_left nth combine map fold_right fst snd]. lia.
Qed.

Lemma cnpj_sum_2 (ds : list Z) :
  List.length ds = 14%nat ->
  fold_left (fun acc i => acc + nth i ds 0 * nth i weight_2 0) (seq 0 13) 0
  = dot weight_2 ds.
Proof.
  intros L. explicit_list ds L. unfold dot, weight_2.
  cbn [seq fold_left nth combine map fold_right fst snd]. lia.
Qed.

(** What [validate_cnpj] computes on fourteen digits, in terms of the
    digits themselves. *)
Lemma validate_cnpj_digits (ds : list Z) (s : string) :
  List.length ds = 14%nat -> Forall is_digit_value ds ->
  only_digits s = digits_string ds ->
  validate_cnpj s =
    if str_in (digits_string ds) (repeated_digits 14) then
      (false, "CNPJ com todos os dígitos iguais é inválido")
    else if negb (nth 12 ds 0 =? check_digit_lt2 weight_1 ds) then
      (false, "Primeiro dígito verificador inválido")
    else if negb (nth 13 ds 0 =? check_digit_lt2 weight_2 ds) then
      (false, "Segundo dígito verificador inválido")
    else (true, "CNPJ válido").
Proof.
  intros L D E. unfold validate_cnpj. rewrite E, length_digits_string, L.
  change (negb (14 =? 14)%nat) with false. cbv iota.
  rewrite !weighted_sum_digits, !digit_at_digits_string by assumption.
  rewrite cnpj_sum_1, cnpj_sum_2 by assumption.
  reflexivity.
Qed.

Lemma set_nth_length (i : nat) (d : Z) (ds : list Z) :
  List.length (set_nth i d ds) = List.length ds.
Proof.
  revert i. induction ds as [| x rest IH]; intros [| i]; cbn [set_nth List.length];
    auto.
Qed.

Lemma set_nth_Forall (P : Z -> Prop) (i : nat) (d : Z) (ds : list Z) :
  P d -> Forall P ds -> Forall P (set_nth i d ds).
Proof.
  intros Hd H. revert i.
  induction H as [| x rest Hx Hrest IH]; intros [| i]; cbn [set_nth];
    constructor; auto.
Qed.

Lemma nth_set_nth (i : nat) (d : Z) (ds : list Z) :
  (i < List.length ds)%nat -> nth i (set_nth i d ds) 0 = d.
Proof.
  revert i. induction ds as [| x rest IH]; intros [| i] L; cbn [List.length] in L;
    cbn [set_nth nth]; try lia; trivial.
  apply IH. lia.
Qed.

(** The check digits are computed from the digits that precede them. *)
Lemma check_digit_1_set_nth (d : Z) (ds : list Z) :
  List.length ds = 14%nat ->
  check_digit_lt2 weight_1 (set_nth 12 d ds) = check_digit_lt2 weight_1 ds.
Proof. intros L. explicit_list ds L. reflexivity. Qed.

Lemma check_digit_2_set_nth (d : Z) (ds : list Z) :
  List.length ds = 14%nat ->
  check_digit_lt2 weight_2 (set_nth 13 d ds) = check_digit_lt2 weight_2 ds.
Proof. intros L. explicit_list ds L. reflexivity. Qed.

(** C1, as the code has it.  For every sequence of fourteen digits that
    satisfies the two check-digit equations and is not one digit repeated,
    [validate_cnpj] accepts every string whose digits are that sequence; and
    for every sequence that satisfies the equations, replacing either
    trailing check digit by a different digit makes [validate_cnpj] reject. *)
Theorem validate_cnpj_check_digits (ds : list Z) :
  List.length ds = 14%nat -> Forall is_digit_value ds -> cnpj_equations ds ->
  (~ (exists d, ds = List.repeat d 14) ->
   forall s, only_digits s = digits_string ds -> validate_cnpj s = (true, "CNPJ válido"))
  /\ (forall d s, is_digit_value d -> d <> nth 12 ds 0 ->
        only_digits s = digits_string (set_nth 12 d ds) -> fst (validate_cnpj s) = false)
  /\ (forall d s, is_digit_value d -> d <> nth 13 ds 0 ->
        only_digits s = digits_string (set_nth 13 d ds) -> fst (validate_cnpj s) = false).
Proof.
  intros L D [E1 E2]. split; [| split].
  - intros N s Hs.
    rewrite (validate_cnpj_digits ds s L D Hs).
    rewrite <- L at 1. rewrite str_in_repeated by (trivial; now rewrite L).
    change weight_1 with [5; 4; 3; 2; 9; 8; 7; 6; 5; 4; 3; 2].
    change weight_2 with [6; 5; 4; 3; 2; 9; 8; 7; 6; 5; 4; 3; 2].
    rewrite <- E1, <- E2, !Z.eqb_refl. reflexivity.
  - intros d s Hd Hne Hs.
    assert (L' : List.length (set_nth 12 d ds) = 14%nat)
      by now rewrite set_nth_length.
    rewrite (validate_cnpj_digits _ s L' (set_nth_Forall _ 12 d ds Hd D) Hs).
    destruct (str_in _ _); trivial.
    rewrite nth_set_nth by lia.
    rewrite check_digit_1_set_nth by assumption.
    change weight_1 with [5; 4; 3; 2; 9; 8; 7; 6; 5; 4; 3; 2].
    rewrite <- E1. apply Z.eqb_neq in Hne. rewrite Hne. reflexivity.
  - intros d s Hd Hne Hs.
    assert (L' : List.length (set_nth 13 d ds) = 14%nat)
      by now rewrite set_nth_length.
    rewrite (validate_cnpj_digits _ s L' (set_nth_Forall _ 13 d ds Hd D) Hs).
    destruct (str_in _ _); trivial.
    destruct (negb (nth 12 _ 0 =? _)); trivial.
    rewrite nth_set_nth by lia.
    rewrite check_digit_2_set_nth by assumption.
    change weight_2 with [6; 5; 4; 3; 2; 9; 8; 7; 6; 5; 4; 3; 2].
    rewrite <- E2. apply Z.eqb_neq in Hne. rewrite Hne. reflexivity.
Qed.

Lemma validate_cnpj_check_digits_witness :
  validate_cnpj "31.152.562/0003-46" = (true, "CNPJ válido")
  /\ fst (validate_cnpj "31.152.562/0003-96") = false
  /\ fst (validate_cnpj "31.152.562/0003-47") = false.
Proof.
  assert (L : List.length cnpj_nobre = 14%nat) by reflexivity.
  assert (D : Forall is_digit_value cnpj_nobre).
  { repeat (apply Forall_cons; [unfold is_digit_value; lia |]). apply Forall_nil. }
  assert (E : cnpj_equations cnpj_nobre) by (split; reflexivity).
  destruct (validate_cnpj_check_digits cnpj_nobre L D E) as (A & B & C).
  split; [| split].
  - apply A.
    + intros [d H]. vm_compute in H. congruence.
    + reflexivity.
  - apply (B 9); [unfold is_digit_value; lia | discriminate | reflexivity].
  - apply (C 7); [unfold is_digit_value; lia | discriminate | reflexivity].
Defined.

(** C1, as the specification states it, fails on fourteen zeros: they
    satisfy both check-digit equations and [validate_cnpj] rejects them. *)
Lemma validate_cnpj_rejects_zeros :
  List.length (List.repeat 0 14) = 14%nat
  /\ Forall is_digit_value (List.repeat 0 14)
  /\ cnpj_equations (List.repeat 0 14)
  /\ digits_string (List.repeat 0 14) = "00000000000000"
  /\ validate_cnpj "00000000000000"
     = (false, "CNPJ com todos os dígitos iguais é inválido").
Proof.
  repeat split; try reflexivity.
  cbn [List.repeat].
  repeat (apply Forall_cons; [unfold is_digit_value; lia |]). apply Forall_nil.
Qed.

(** ** The access key *)

Lemma chave_sum_digits (ds : list Z) :
  List.length ds = 44%nat -> Forall is_digit_value ds ->
  chave_sum (digits_string ds)
  = fold_right Z.add 0 (map (fun i => nth i ds 0 * cyclic_weight (42 - i)) (seq 0 43)).
Proof.
  intros L D. unfold chave_sum.
  rewrite (fold_left_sum_ext
             (fun i => digit_at (digits_string ds) i * nth (42 - i) chave_weights 0)
             (fun i => nth i ds 0 * nth (42 - i) chave_weights 0))
    by (intros i; now rewrite digit_at_digits_string).
  explicit_list ds L. clear D.
  unfold chave_weights, cyclic_weight.
  cbn [seq fold_left fold_right map nth Nat.sub Nat.modulo Nat.divmod fst snd
       List.concat List.repeat app Z.of_nat Pos.of_succ_nat Pos.succ Z.add Pos.add].
  lia.
Qed.

Lemma details_of_digits (ds : list Z) :
  List.length ds = 44%nat ->
  let s := digits_string ds in
  (substring 0 2 s ++ substring 2 4 s ++ substring 6 14 s ++ substring 20 2 s
     ++ substring 22 3 s ++ substring 25 9 s ++ substring 34 1 s
     ++ substring 35 8 s ++ substring 43 1 s) = s
  /\ map String.length
       [substring 0 2 s; substring 2 4 s; substring 6 14 s; substring 20 2 s;
        substring 22 3 s; substring 25 9 s; substring 34 1 s; substring 35 8 s;
        substring 43 1 s]
     = [2; 4; 14; 2; 3; 9; 1; 8; 1]%nat.
Proof.
  intros L. explicit_list ds L.
  cbn [digits_string substring append map String.length]. split; reflexivity.
Qed.

(** C8.  For every string whose digits are 44 in number and end in the
    modulo-11 check digit of the 43 before it (weights 2 to 9 cycling from
    the right), [validate_chave_acesso] answers ok with the nine fields
    uf, ano_mes, cnpj, modelo, serie, numero, tipo_emissao, codigo, dv, of
    widths 2, 4, 14, 2, 3, 9, 1, 8, 1, whose concatenation in that order is
    the 44 digits. *)
Theorem validate_chave_acesso_decomposes (ds : list Z) (s : string) :
  List.length ds = 44%nat -> Forall is_digit_value ds ->
  nth 43 ds 0 = chave_check_digit ds ->
  only_digits s = digits_string ds ->
  exists uf ano_mes cnpj modelo serie numero tipo_emissao codigo dv,
    validate_chave_acesso s
    = (true, "Chave de acesso válida",
       [("uf", uf); ("ano_mes", ano_mes); ("cnpj", cnpj); ("modelo", modelo);
        ("serie", serie); ("numero", numero); ("tipo_emissao", tipo_emissao);
        ("codigo", codigo); ("dv", dv)])
    /\ map String.length
         [uf; ano_mes; cnpj; modelo; serie; numero; tipo_emissao; codigo; dv]
       = [2; 4; 14; 2; 3; 9; 1; 8; 1]%nat
    /\ (uf ++ ano_mes ++ cnpj ++ modelo ++ serie ++ numero ++ tipo_emissao
          ++ codigo ++ dv) = digits_string ds.
Proof.
  intros L D E Hs.
  destruct (details_of_digits ds L) as [C W].
  do 9 eexists. split; [| split; [exact W | exact C]].
  unfold validate_chave_acesso, chave_expected_dv.
  rewrite Hs, length_digits_string, L.
  change (negb (44 =? 44)%nat) with false. cbv iota.
  rewrite chave_sum_digits, digit_at_digits_string by assumption.
  rewrite E. unfold chave_check_digit. rewrite Z.eqb_refl. reflexivity.
Qed.

Lemma validate_chave_acesso_decomposes_witness :
  exists uf ano_mes cnpj modelo serie numero tipo_emissao codigo dv,
    validate_chave_acesso "3525.0531.1525.6200.0346.5500.1000.0113.3410.0044.0803"
    = (true, "Chave de acesso válida",
       [("uf", uf); ("ano_mes", ano_mes); ("cnpj", cnpj); ("modelo", modelo);
        ("serie", serie); ("numero", numero); ("tipo_emissao", tipo_emissao);
        ("codigo", codigo); ("dv", dv)])
    /\ map String.length
         [uf; ano_mes; cnpj; modelo; serie; numero; tipo_emissao; codigo; dv]
       = [2; 4; 14; 2; 3; 9; 1; 8; 1]%nat
    /\ (uf ++ ano_mes ++ cnpj ++ modelo ++ serie ++ numero ++ tipo_emissao
          ++ codigo ++ dv) = digits_string chave_nobre.
Proof.
  apply (validate_chave_acesso_decomposes chave_nobre).
  - reflexivity.
  - repeat (apply Forall_cons; [unfold is_digit_value; lia |]). apply Forall_nil.
  - reflexivity.
  - reflexivity.
Defined.

(** ** Order on binary64 *)

Lemma compare_cont_antisym (p q : positive) (c : comparison) :
  Pos.compare_cont c p q = CompOpp (Pos.compare_cont (CompOpp c) q p).
Proof.
  rewrite (Pos.compare_cont_antisym q p (CompOpp c)).
  now destruct c.
Qed.

Lemma SFcompare_antisym (x y : F64.t) :
  SFcompare x y = option_map CompOpp (SFcompare y x).
Proof.
  destruct x as [sx | sx | | sx mx ex], y as [sy | sy | | sy my ey];
    cbn [SFcompare option_map]; try reflexivity;
    try (destruct sx; reflexivity); try (destruct sy; reflexivity);
    try (destruct sx, sy; reflexivity).
  destruct sx, sy; cbn [CompOpp]; try reflexivity.
  - rewrite (Z.compare_antisym ex ey).
    destruct (ex ?= ey); cbn [CompOpp]; try reflexivity.
    rewrite (compare_cont_antisym mx my Eq). cbn [CompOpp].
    now destruct (Pos.compare_cont Eq my mx).
  - rewrite (Z.compare_antisym ex ey).
    destruct (ex ?= ey); cbn [CompOpp]; try reflexivity.
    rewrite (compare_cont_antisym mx my Eq). cbn [CompOpp].
    now destruct (Pos.compare_cont Eq my mx).
Qed.

(** Away from NaN, "not greater" is "less or equal". *)
Lemma not_gtb_leb (x y : F64.t) :
  F64.is_nan x = false -> F64.is_nan y = false ->
  negb (F64.gtb x y) = F64.leb x y.
Proof.
  intros Hx Hy. unfold F64.gtb, F64.leb, SFltb, SFleb.
  rewrite (SFcompare_antisym y x).
  destruct x, y; try discriminate; cbn [SFcompare option_map];
    try reflexivity;
    repeat match goal with s : bool |- _ => destruct s end; try reflexivity;
    match goal with
    | |- context [Z.compare ?a ?b] =>
        destruct (Z.compare a b); try reflexivity;
        match goal with
        | |- context [Pos.compare_cont Eq ?p ?q] =>
            destruct (Pos.compare_cont Eq p q); reflexivity
        end
    end.
Qed.

(** ** The line total *)

(** C7.  [validate_product_calculation] departs from the rule of the
    specification, [|round(qty * unit_price, 2) - declared| <= tolerance] in
    decimals with the boundary included, in two ways.  The declared total
    0.32 against 1 x 0.30 differs by exactly 0.02 in decimals, within the
    tolerance, and is rejected: the code subtracts in binary64, where the
    difference is 0.020000000000000018.  And a declared total that is NaN
    is accepted, although no difference is then within the tolerance. *)
Lemma validate_product_calculation_boundary :
  line_total_within_decimal (lit 1 0) (lit 30 (-2)) (lit 32 (-2)) tolerance_default
  = Ok true
  /\ (exists msg details,
        validate_product_calculation (Some (lit 1 0)) (Some (lit 30 (-2)))
          (Some (lit 32 (-2))) (Some "Produto") tolerance_default
        = Ok (false, msg, details)
        /\ Dec.of_float (lit 30 (-2)) = Dec.Fin false 3 (-1)
        /\ Dec.of_float (lit 32 (-2)) = Dec.Fin false 32 (-2)
        /\ Dec.of_float tolerance_default = Dec.Fin false 2 (-2)
        /\ option_map float_of_value (dict_get details "diferenca")
           = Some (lit 20000000000000018 (-18)))
  /\ (exists msg details,
        validate_product_calculation (Some (lit 1 0)) (Some (lit 30 (-2)))
          (Some S754_nan) (Some "Produto") tolerance_default
        = Ok (true, msg, details)
        /\ dict_get details "diferenca" = Some (VFloat S754_nan)
        /\ F64.leb S754_nan tolerance_default = false).
Proof.
  split; [vm_compute; reflexivity |].
  split; do 2 eexists; vm_compute; repeat split; reflexivity.
Qed.

(** ** What a validation step adds to the instance *)

Section Extends.

Variables P Q : ValidationError -> Prop.

Lemma extends_refl (self : FiscalValidator) : extends P Q self self.
Proof. exists [], []. now rewrite !app_nil_r. Qed.

Lemma extends_trans (a b c : FiscalValidator) :
  extends P Q a b -> extends P Q b c -> extends P Q a c.
Proof.
  intros (es & ws & E & W & HE & HW) (es' & ws' & E' & W' & HE' & HW').
  exists (es ++ es')%list, (ws ++ ws')%list.
  rewrite E', W', E, W, !app_assoc. repeat split; trivial; now apply Forall_app.
Qed.

Lemma extends_error (self mid : FiscalValidator) (e : ValidationError) :
  extends P Q self mid -> P e -> extends P Q self (append_error mid e).
Proof.
  intros H He. apply (extends_trans self mid); trivial.
  exists [e], []. cbn. rewrite app_nil_r. repeat split; auto.
Qed.

Lemma extends_warning (self mid : FiscalValidator) (e : ValidationError) :
  extends P Q self mid -> Q e -> extends P Q self (append_warning mid e).
Proof.
  intros H He. apply (extends_trans self mid); trivial.
  exists [], [e]. cbn. rewrite app_nil_r. repeat split; auto.
Qed.

Lemma extends_from_empty (self : FiscalValidator) :
  extends P Q {| errors := []; warnings := [] |} self ->
  Forall P (errors self) /\ Forall Q (warnings self).
Proof. intros (es & ws & E & W & HE & HW). cbn in E, W. now rewrite E, W. Qed.

End Extends.

Lemma extends_weaken (P Q P' Q' : ValidationError -> Prop) (a b : FiscalValidator) :
  (forall e, P e -> P' e) -> (forall e, Q e -> Q' e) ->
  extends P Q a b -> extends P' Q' a b.
Proof.
  intros HP HQ (es & ws & E & W & HE & HW). exists es, ws.
  repeat split; trivial; eapply Forall_impl; eauto.
Qed.

Ltac finding :=
  unfold plain_error, plain_warning, is_error, is_warning, off_key, key_path;
  cbn [severity field_path produto_path append imposto_error documento_error];
  repeat split;
  first [ reflexivity | left; reflexivity | right; reflexivity | discriminate ].

(** Case analysis along the computations that returned [Ok]. *)
Ltac returned :=
  repeat match goal with
         | H : Raise _ = Ok _ |- _ => discriminate H
         | H : Ok _ = Ok _ |- _ => inversion H; subst; clear H
         | H : bind ?m _ = Ok _ |- _ =>
             let E := fresh "E" in destruct m eqn:E; cbn [bind] in H
         | H : (match ?x with _ => _ end) = Ok _ |- _ =>
             destruct x eqn:?; cbv beta iota in H
         | H : (let _ := _ in _) = Ok _ |- _ => cbv zeta in H
         end.

Ltac appended :=
  repeat first [ apply extends_refl
               | apply extends_error; [| finding]
               | apply extends_warning; [| finding] ].

Lemma fiscal_codes_of_extends (self : FiscalValidator) (i : nat) (produto : Produto) :
  extends plain_error plain_warning self (fiscal_codes_of self i produto).
Proof.
  unfold fiscal_codes_of.
  repeat match goal with
         | |- context [match ?x with _ => _ end] => destruct x
         end; appended.
Qed.

Lemma fiscal_codes_loop_extends (produtos : list Produto) :
  forall self i,
    extends plain_error plain_warning self (fiscal_codes_loop self i produtos).
Proof.
  induction produtos as [| produto rest IH]; intros self i; cbn [fiscal_codes_loop].
  - apply extends_refl.
  - eapply extends_trans; [apply fiscal_codes_of_extends | apply IH].
Qed.

Lemma _validate_fiscal_codes_extends (self self' : FiscalValidator) (inv : Invoice) :
  _validate_fiscal_codes self inv = Ok self' ->
  extends plain_error plain_warning self self'.
Proof.
  unfold _validate_fiscal_codes. intros H.
  destruct (listing (produtos inv)); cbn [bind] in H; [| discriminate].
  injection H as <-. apply fiscal_codes_loop_extends.
Qed.

Ltac cases_of_goal :=
  cbv zeta;
  repeat match goal with
         | |- context [match ?x with _ => _ end] => destruct x eqn:?
         end.

Lemma _validate_documents_extends (self self' : FiscalValidator) (inv : Invoice) :
  _validate_documents self inv = Ok self' ->
  extends is_error is_warning self self'.
Proof.
  unfold _validate_documents. intros H. returned; cases_of_goal; appended.
Qed.

(** With an access key that is the empty string, the document checks add
    nothing about the access key. *)
Lemma _validate_documents_empty_key
    (self self' : FiscalValidator) (inv : Invoice) (ident : Identificacao) :
  identificacao inv = Given ident -> chave_acesso ident = Given "" ->
  _validate_documents self inv = Ok self' ->
  extends plain_error plain_warning self self'.
Proof.
  unfold _validate_documents. intros Hi Hc H.
  rewrite Hi in H. cbn [section] in H.
  destruct (section (emitente inv) no_emitente); cbn [bind] in H; [| discriminate].
  destruct (section (destinatario inv) no_destinatario); cbn [bind] in H; [| discriminate].
  rewrite Hc in H. cbn [get truthy] in H.
  injection H as <-.
  cases_of_goal; appended.
Qed.

Lemma products_calculation_of_extends
    (self self' : FiscalValidator) (i : nat) (produto : Produto) :
  products_calculation_of self i produto = Ok self' ->
  extends plain_error plain_warning self self'.
Proof.
  unfold products_calculation_of. intros H. returned; cases_of_goal; appended.
Qed.

Lemma products_calculations_loop_extends (produtos : list Produto) :
  forall self self' i,
    products_calculations_loop self i produtos = Ok self' ->
    extends plain_error plain_warning self self'.
Proof.
  induction produtos as [| produto rest IH]; intros self self' i H;
    cbn [products_calculations_loop] in H.
  - injection H as <-. apply extends_refl.
  - destruct (products_calculation_of self i produto) as [mid |] eqn:E;
      cbn [bind] in H; [| discriminate].
    eapply extends_trans; [eapply products_calculation_of_extends, E | eapply IH, H].
Qed.

Lemma _validate_products_calculations_extends
    (self self' : FiscalValidator) (inv : Invoice) :
  _validate_products_calculations self inv = Ok self' ->
  extends plain_error plain_warning self self'.
Proof.
  unfold _validate_products_calculations. intros H.
  destruct (listing (produtos inv)); cbn [bind] in H; [| discriminate].
  eapply products_calculations_loop_extends, H.
Qed.

(** The two calls of [contribution_check] in the source name the fields
    of PIS and of COFINS. *)
Lemma contribution_check_extends
    (self self' : FiscalValidator) (base valor aliquota padrao : F64.t)
    (accepted : list F64.t) (nome path_valor path_aliquota h1 esperado h2 : string) :
  path_valor <> key_path -> path_aliquota <> key_path ->
  contribution_check self base valor aliquota padrao accepted
    nome path_valor path_aliquota h1 esperado h2 = Ok self' ->
  extends plain_error plain_warning self self'.
Proof.
  unfold contribution_check. intros N1 N2 H.
  returned; cases_of_goal;
    repeat first [ apply extends_refl
                 | apply extends_error;
                     [| split; [right; reflexivity | exact N1]]
                 | apply extends_warning;
                     [| split; [reflexivity | exact N2]] ].
Qed.

Lemma _validate_tax_calculations_extends
    (self self' : FiscalValidator) (inv : Invoice) :
  _validate_tax_calculations self inv = Ok self' ->
  extends plain_error plain_warning self self'.
Proof.
  unfold _validate_tax_calculations. intros H. returned;
    match goal with
    | E1 : contribution_check ?a _ _ _ _ _ _ _ _ _ _ _ = Ok ?b,
      E2 : contribution_check ?b _ _ _ _ _ _ _ _ _ _ _ = Ok ?c
      |- extends _ _ ?s ?c =>
        apply (extends_trans _ _ s b c);
        [ apply (extends_trans _ _ s a b);
          [ cases_of_goal; appended
          | eapply contribution_check_extends; [| | exact E1]; discriminate ]
        | eapply contribution_check_extends; [| | exact E2]; discriminate ]
    end.
Qed.

Lemma _validate_totals_extends (self self' : FiscalValidator) (inv : Invoice) :
  _validate_totals self inv = Ok self' ->
  extends plain_error plain_warning self self'.
Proof.
  unfold _validate_totals. intros H. returned; cases_of_goal; appended.
Qed.

Lemma consistency_of_extends
    (self : FiscalValidator) (tipo_op : string) (i : nat) (produto : Produto) :
  extends plain_error plain_warning self (consistency_of self tipo_op i produto).
Proof. unfold consistency_of. cases_of_goal; appended. Qed.

Lemma consistency_loop_extends (tipo_op : string) (produtos : list Produto) :
  forall self i,
    extends plain_error plain_warning self (consistency_loop self tipo_op i produtos).
Proof.
  induction produtos as [| produto rest IH]; intros self i; cbn [consistency_loop].
  - apply extends_refl.
  - eapply extends_trans; [apply consistency_of_extends | apply IH].
Qed.

Lemma _validate_consistency_extends (self self' : FiscalValidator) (inv : Invoice) :
  _validate_consistency self inv = Ok self' ->
  extends plain_error plain_warning self self'.
Proof.
  unfold _validate_consistency. intros H. returned.
  - apply consistency_loop_extends.
  - appended.
Qed.

Lemma plain_is_error (e : ValidationError) : plain_error e -> is_error e.
Proof. now intros []. Qed.

Lemma plain_is_warning (e : ValidationError) : plain_warning e -> is_warning e.
Proof. now intros []. Qed.

Lemma validate_invoice_validated (self : FiscalValidator) (now : string) (inv : Invoice) :
  validate_invoice self now inv
  = (final <- validated inv ;; Ok (_compile_validation_result final now, final)).
Proof.
  unfold validate_invoice, validated.
  repeat match goal with
         | |- context [bind ?m _] => destruct m; cbn [bind]; try reflexivity
         end.
Qed.

Ltac chain :=
  repeat match goal with
         | H : _validate_documents _ _ = Ok _ |- _ =>
             first [ eapply _validate_documents_empty_key in H; [| eassumption ..]
                   | apply _validate_documents_extends in H ]
         | H : _validate_fiscal_codes _ _ = Ok _ |- _ =>
             apply _validate_fiscal_codes_extends in H
         | H : _validate_products_calculations _ _ = Ok _ |- _ =>
             apply _validate_products_calculations_extends in H
         | H : _validate_tax_calculations _ _ = Ok _ |- _ =>
             apply _validate_tax_calculations_extends in H
         | H : _validate_totals _ _ = Ok _ |- _ =>
             apply _validate_totals_extends in H
         | H : _validate_consistency _ _ = Ok _ |- _ =>
             apply _validate_consistency_extends in H
         end.

Ltac compose :=
  repeat match goal with
         | H : extends ?P ?Q ?a ?b |- extends ?P ?Q ?a ?c =>
             first [ exact H | apply (extends_trans P Q a b c H); clear H ]
         end.

(** Every finding filed under [errors] is critical or an error, and every
    one filed under [warnings] is a warning. *)
Lemma validated_severities (inv : Invoice) (final : FiscalValidator) :
  validated inv = Ok final ->
  Forall is_error (errors final) /\ Forall is_warning (warnings final).
Proof.
  unfold validated. intros H. cbv zeta in H. returned.
  apply extends_from_empty.
  chain.
  repeat match goal with
         | H : extends plain_error plain_warning _ _ |- _ =>
             apply (extends_weaken _ _ is_error is_warning _ _
                      plain_is_error plain_is_warning) in H
         end.
  compose.
Qed.

(** With an access key that is the empty string, no finding is about the
    access key. *)
Lemma validated_empty_key (inv : Invoice) (ident : Identificacao)
    (final : FiscalValidator) :
  identificacao inv = Given ident -> chave_acesso ident = Given "" ->
  validated inv = Ok final ->
  Forall off_key (errors final) /\ Forall off_key (warnings final).
Proof.
  unfold validated. intros Hi Hc H. cbv zeta in H. returned.
  apply extends_from_empty.
  chain.
  repeat match goal with
         | H : extends plain_error plain_warning _ _ |- _ =>
             apply (extends_weaken _ _ off_key off_key) in H;
             [| now intros ? [] | now intros ? []]
         end.
  compose.
Qed.

(** ** The compiled report *)

Lemma count_of_cons (sev : string) (e : ValidationError) (l : list ValidationError) :
  count_of sev (e :: l)
  = (if String.eqb (severity e) sev then 1 else 0) + count_of sev l.
Proof.
  unfold count_of. cbn [filter].
  destruct (String.eqb (severity e) sev); cbn [List.length]; lia.
Qed.

Lemma count_severity_cons (names : list string) (e : ValidationError)
    (l : list ValidationError) :
  count_severity names (e :: l)
  = (if str_in (severity e) names then 1 else 0) + count_severity names l.
Proof.
  unfold count_severity. cbn [filter].
  destruct (str_in (severity e) names); cbn [List.length]; lia.
Qed.

Lemma count_of_nonneg (sev : string) (l : list ValidationError) : 0 <= count_of sev l.
Proof. unfold count_of. lia. Qed.

Lemma counts_of_errors (l : list ValidationError) :
  Forall is_error l ->
  count_severity ["critico"] l = count_of "critico" l
  /\ count_severity ["critico"; "erro"] l = count_of "critico" l + count_of "erro" l
  /\ count_severity ["aviso"] l = 0
  /\ count_of "aviso" l = 0.
Proof.
  induction 1 as [| e l He _ (IH1 & IH2 & IH3 & IH4)].
  - repeat split.
  - rewrite !count_severity_cons, !count_of_cons, IH1, IH2, IH3, IH4.
    destruct He as [-> | ->];
      cbn [str_in existsb String.eqb Ascii.eqb Bool.eqb orb andb];
      repeat split; lia.
Qed.

Lemma counts_of_warnings (l : list ValidationError) :
  Forall is_warning l ->
  count_of "critico" l = 0 /\ count_of "erro" l = 0
  /\ count_of "aviso" l = Z.of_nat (List.length l).
Proof.
  induction 1 as [| e l He _ (IH1 & IH2 & IH3)].
  - repeat split.
  - rewrite !count_of_cons, IH1, IH2, IH3. unfold is_warning in He. rewrite He.
    repeat split. cbn [String.eqb Ascii.eqb Bool.eqb List.length]. lia.
Qed.

Lemma filter_map_to_dict (sev : string) (l : list ValidationError) :
  List.length (filter (has_severity sev) (map to_dict l))
  = List.length (filter (fun e => String.eqb (severity e) sev) l).
Proof.
  induction l as [| e l IH]; cbn [map filter]; trivial.
  change (has_severity sev (to_dict e)) with (String.eqb (severity e) sev).
  destruct (String.eqb (severity e) sev); cbn [List.length]; congruence.
Qed.

Lemma report_count_compile (sev : string) (self : FiscalValidator) (now : string) :
  report_count sev (_compile_validation_result self now)
  = count_of sev (errors self) + count_of sev (warnings self).
Proof.
  unfold report_count, count_of.
  change (problemas (_compile_validation_result self now))
    with (map to_dict (errors self) ++ map to_dict (warnings self))%list.
  rewrite filter_app, length_app, !filter_map_to_dict. lia.
Qed.

Lemma geral_compile (self : FiscalValidator) (now : string) :
  let r := _compile_validation_result self now in
  let total_errors := count_severity ["critico"; "erro"] (errors self) in
  let total_warnings :=
    count_severity ["aviso"] (errors self) + Z.of_nat (List.length (warnings self)) in
  let total_critical := count_severity ["critico"] (errors self) in
  let verdict :=
    if 0 <? total_critical then ("invalido", false)
    else if 0 <? total_errors then ("invalido", false)
    else if 0 <? total_warnings then ("com_avisos", true)
    else ("valido", true) in
  geral r "total_erros_criticos" = Some (VInt total_critical)
  /\ geral r "total_erros" = Some (VInt (total_errors - total_critical))
  /\ geral r "total_avisos" = Some (VInt total_warnings)
  /\ geral r "score_conformidade"
     = Some (VInt (Z.max 0 (100 - total_critical * 25
                              - (total_errors - total_critical) * 10
                              - total_warnings * 3)))
  /\ geral r "status" = Some (VStr (fst verdict))
  /\ geral r "apto_para_processamento" = Some (VBool (snd verdict)).
Proof. repeat split. Qed.

(** C2.  Whenever [validate_invoice] returns a report, with [critical],
    [errs] and [warns] the numbers of findings of severity critico, erro and
    aviso the report lists: the three counts reported are these; the score is
    [max(0, 100 - 25 critical - 10 errs - 3 warns)]; the status is invalido
    when [critical > 0] or [errs > 0], else com_avisos when [warns > 0], else
    valido; and apto_para_processamento is true exactly when the status is
    not invalido. *)
Theorem validate_invoice_report
    (self self' : FiscalValidator) (now : string) (inv : Invoice) (r : value) :
  validate_invoice self now inv = Ok (r, self') ->
  let critical := report_count "critico" r in
  let errs := report_count "erro" r in
  let warns := report_count "aviso" r in
  let status :=
    if (0 <? critical) || (0 <? errs) then "invalido"
    else if 0 <? warns then "com_avisos" else "valido" in
  geral r "total_erros_criticos" = Some (VInt critical)
  /\ geral r "total_erros" = Some (VInt errs)
  /\ geral r "total_avisos" = Some (VInt warns)
  /\ geral r "score_conformidade"
     = Some (VInt (Z.max 0 (100 - 25 * critical - 10 * errs - 3 * warns)))
  /\ geral r "status" = Some (VStr status)
  /\ geral r "apto_para_processamento"
     = Some (VBool (negb (String.eqb status "invalido"))).
Proof.
  intros H. rewrite validate_invoice_validated in H.
  destruct (validated inv) as [final |] eqn:V; cbn [bind] in H; [| discriminate].
  injection H as <- <-.
  destruct (validated_severities _ _ V) as [HE HW].
  destruct (counts_of_errors _ HE) as (A1 & A2 & A3 & A4).
  destruct (counts_of_warnings _ HW) as (B1 & B2 & B3).
  pose proof (count_of_nonneg "critico" (errors final)) as N1.
  pose proof (count_of_nonneg "erro" (errors final)) as N2.
  cbv zeta. rewrite !report_count_compile, A4, B1, B2, B3.
  destruct (geral_compile final now) as (G1 & G2 & G3 & G4 & G5 & G6).
  rewrite G1, G2, G3, G4, G5, G6, A1, A2, A3. clear G1 G2 G3 G4 G5 G6.
  set (tc := count_of "critico" (errors final)) in *.
  set (er := count_of "erro" (errors final)) in *.
  set (w := Z.of_nat (List.length (warnings final))).
  repeat split; try (do 2 f_equal; lia);
    repeat match goal with
           | |- context [?a <? ?b] => destruct (Z.ltb_spec a b)
           end; cbn [orb fst snd]; try reflexivity; lia.
Qed.

Lemma validate_invoice_report_witness :
  exists r self',
    validate_invoice fresh_validator "2025-05-09T12:00:00" exemplo_nf_com_none
    = Ok (r, self')
    /\ geral r "score_conformidade"
       = Some (VInt (Z.max 0 (100 - 25 * report_count "critico" r
                                - 10 * report_count "erro" r
                                - 3 * report_count "aviso" r)))
    /\ report_count "critico" r = 0
    /\ report_count "erro" r = 3
    /\ report_count "aviso" r = 0.
Proof.
  destruct (validate_invoice fresh_validator "2025-05-09T12:00:00" exemplo_nf_com_none)
    as [[r final] |] eqn:E; [| vm_compute in E; discriminate E].
  exists r, final. split; [reflexivity |]. split.
  - exact (proj1 (proj2 (proj2 (proj2
             (validate_invoice_report fresh_validator final _ _ r E))))).
  - vm_compute in E. injection E as <- _. repeat split.
Defined.

(** ** The per-line gate *)

Lemma zero_not_positive (x : F64.t) :
  F64.eqb x F64.zero = true -> F64.gtb x F64.zero = false.
Proof.
  destruct x as [s | [] | | [] m e]; intros H; vm_compute in H |- *;
    try discriminate H; trivial.
Qed.

(** C9, as the code has it.  The arithmetic check of a line is evaluated
    exactly when one of quantity, unit price and line total (absent read as
    0.0) is greater than zero: then the line gets a finding on
    [produtos[i].valor_total] exactly when the check answers not ok.  A line
    with none of them positive, in particular one with all three zero or
    absent, is skipped without a finding, and so is a whole invoice of such
    lines. *)
Theorem line_check_gate (self : FiscalValidator) (i : nat) (p : Produto) :
  let checked := line_is_checked (qtd_of p) (val_unit_of p) (val_total_of p) in
  (checked = true <->
     F64.gtb (qtd_of p) F64.zero = true \/ F64.gtb (val_unit_of p) F64.zero = true
     \/ F64.gtb (val_total_of p) F64.zero = true)
  /\ (checked = false -> products_calculation_of self i p = Ok self)
  /\ (checked = true ->
      forall valid msg details,
        validate_product_calculation (Some (qtd_of p)) (Some (val_unit_of p))
          (Some (val_total_of p)) (desc_of i p) tolerance_default
        = Ok (valid, msg, details) ->
        if valid then products_calculation_of self i p = Ok self
        else exists e,
            products_calculation_of self i p = Ok (append_error self e)
            /\ severity e = "erro" /\ category e = "calculo"
            /\ field_path e = produto_path i "valor_total"
            /\ description e = msg)
  /\ (F64.eqb (qtd_of p) F64.zero = true -> F64.eqb (val_unit_of p) F64.zero = true ->
      F64.eqb (val_total_of p) F64.zero = true ->
      products_calculation_of self i p = Ok self)
  /\ (forall l j,
        Forall (fun p => line_is_checked (qtd_of p) (val_unit_of p) (val_total_of p)
                         = false) l ->
        products_calculations_loop self j l = Ok self).
Proof.
  cbv zeta. unfold products_calculation_of.
  fold (qtd_of p) (val_unit_of p) (val_total_of p) (desc_of i p).
  split; [| split; [| split; [| split]]].
  - unfold line_is_checked. rewrite !orb_true_iff. tauto.
  - intros ->. reflexivity.
  - intros -> valid msg details E. rewrite E. cbn [bind].
    destruct valid; cbn [negb]; trivial.
    unfold validate_product_calculation in E.
    destruct (Dec.mul _ _); cbn [bind] in E; [| discriminate].
    destruct (Dec.round2 _); cbn [bind] in E; [| discriminate].
    destruct (F64.gtb _ tolerance_default); [| discriminate].
    injection E as <- <-. cbn [item_float dict_get String.eqb Ascii.eqb Bool.eqb bind].
    eexists. split; [reflexivity |]. repeat split.
  - intros Hq Hu Ht. unfold line_is_checked.
    now rewrite !zero_not_positive.
  - intros l j H. revert j.
    induction H as [| p' l Hp _ IH]; intros j; cbn [products_calculations_loop]; trivial.
    unfold products_calculation_of at 1.
    fold (qtd_of p') (val_unit_of p') (val_total_of p'). rewrite Hp. cbn [bind].
    apply IH.
Qed.

Lemma line_check_gate_witness :
  products_calculation_of fresh_validator 0 linha_vazia = Ok fresh_validator
  /\ products_calculations_loop fresh_validator 0 [linha_vazia; linha_vazia]
     = Ok fresh_validator.
Proof.
  destruct (line_check_gate fresh_validator 0 linha_vazia) as (_ & A & _ & _ & B).
  split.
  - apply A. reflexivity.
  - apply B. repeat constructor.
Defined.

(** C9, as the specification states it, fails on a line whose only nonzero
    number is negative: the line is skipped, although its arithmetic check
    answers not ok. *)
Lemma negative_line_is_skipped :
  some_nonzero (qtd_of linha_negativa) (val_unit_of linha_negativa)
    (val_total_of linha_negativa) = true
  /\ products_calculation_of fresh_validator 0 linha_negativa = Ok fresh_validator
  /\ exists msg details,
       validate_product_calculation (Some (qtd_of linha_negativa))
         (Some (val_unit_of linha_negativa)) (Some (val_total_of linha_negativa))
         (desc_of 0 linha_negativa) tolerance_default
       = Ok (false, msg, details).
Proof.
  split; [reflexivity |]. split; [reflexivity |].
  do 2 eexists. vm_compute. reflexivity.
Qed.

(** ** An access key that is the empty string *)

Lemma filter_about_off_key (l : list ValidationError) :
  Forall off_key l -> filter (about key_path) (map to_dict l) = [].
Proof.
  induction 1 as [| e l He _ IH]; cbn [map filter]; trivial.
  change (about key_path (to_dict e)) with (String.eqb (field_path e) key_path).
  apply String.eqb_neq in He. now rewrite He.
Qed.

(** C10.  When the invoice carries the access key [""], the report of
    [validate_invoice] lists no finding on [identificacao.chave_acesso]:
    neither the warning for an absent key nor the critical error for a
    malformed one. *)
Theorem empty_access_key_no_finding
    (self self' : FiscalValidator) (now : string) (inv : Invoice)
    (ident : Identificacao) (r : value) :
  identificacao inv = Given ident -> chave_acesso ident = Given "" ->
  validate_invoice self now inv = Ok (r, self') ->
  filter (about "identificacao.chave_acesso") (problemas r) = [].
Proof.
  intros Hi Hc H. rewrite validate_invoice_validated in H.
  destruct (validated inv) as [final |] eqn:V; cbn [bind] in H; [| discriminate].
  injection H as <- <-.
  destruct (validated_empty_key _ _ _ Hi Hc V) as [HE HW].
  change (problemas (_compile_validation_result final now))
    with (map to_dict (errors final) ++ map to_dict (warnings final))%list.
  rewrite filter_app.
  change "identificacao.chave_acesso" with key_path.
  now rewrite !filter_about_off_key.
Qed.

Lemma empty_access_key_no_finding_witness :
  exists r self',
    validate_invoice fresh_validator "2025-05-09T12:00:00"
      (with_chave (Given "") exemplo_nf_com_none) = Ok (r, self')
    /\ filter (about "identificacao.chave_acesso") (problemas r) = [].
Proof.
  destruct (validate_invoice fresh_validator "2025-05-09T12:00:00"
              (with_chave (Given "") exemplo_nf_com_none))
    as [[r final] |] eqn:E; [| vm_compute in E; discriminate E].
  exists r, final. split; [reflexivity |].
  apply (empty_access_key_no_finding fresh_validator final "2025-05-09T12:00:00"
           (with_chave (Given "") exemplo_nf_com_none)
           {| chave_acesso := Given ""; tipo_operacao := Given "1 - Saida";
              data_emissao := Given "2025-05-09" |} r);
    [reflexivity | reflexivity | exact E].
Defined.

(** ** Successive calls *)

Lemma validate_invoice_timestamp
    (self self' : FiscalValidator) (now : string) (inv : Invoice) (r : value) :
  validate_invoice self now inv = Ok (r, self') ->
  path_get r ["timestamp"] = Some (VStr now).
Proof.
  intros H. rewrite validate_invoice_validated in H.
  destruct (validated inv); cbn [bind] in H; [| discriminate].
  injection H as <- _. reflexivity.
Qed.

(** ** The instance across a call *)

(** One step of a method whose first action leaves the instance as it is. *)
Lemma calc_bind_run {A B : Type} (m : Calc.t A) (k : A -> Calc.t B) (r : result A)
    (self : Calc.FiscalCalculator) :
  m self = (r, self) ->
  Calc.bind m k self
  = match r with
    | Ok a => k a self
    | Raise e => (Raise e, self)
    end.
Proof. unfold Calc.bind. intros ->. reflexivity. Qed.

Ltac calc_run :=
  repeat first
    [ progress cbn [Calc.bind Calc.ret Calc.lift Calc.rate Calc.item Calc._safe_decimal
                    Calc._safe_get Calc._classificar_carga_tributaria bind fst snd]
    | match goal with
      | |- context [match ?r with Ok _ => _ | Raise _ => _ end] => destruct r
      end ].

Lemma calc_comparar_regimes (x : F64.t) (self : Calc.FiscalCalculator) :
  Calc._comparar_regimes_tributarios x self = (_comparar_regimes_tributarios x, self).
Proof.
  unfold Calc._comparar_regimes_tributarios, _comparar_regimes_tributarios.
  cbv zeta. unfold _safe_decimal. calc_run; reflexivity.
Qed.

Lemma calc_analisar_produto (a : produtos_acc) (p : Produto) (self : Calc.FiscalCalculator) :
  Calc.analisar_produto a p self = (analisar_produto a p, self).
Proof.
  unfold Calc.analisar_produto, analisar_produto. cbv zeta. unfold _safe_decimal.
  calc_run; reflexivity.
Qed.

Lemma calc_analisar_produtos_loop (l : list Produto) :
  forall a self,
    Calc.analisar_produtos_loop a l self = (analisar_produtos_loop a l, self).
Proof.
  induction l as [| p l IH]; intros a self;
    cbn [Calc.analisar_produtos_loop analisar_produtos_loop]; [reflexivity |].
  rewrite (calc_bind_run _ _ _ _ (calc_analisar_produto a p self)).
  destruct (analisar_produto a p); cbn [bind]; [apply IH | reflexivity].
Qed.

Lemma calc_analisar_produtos (o : option (list Produto)) (self : Calc.FiscalCalculator) :
  Calc._analisar_produtos o self = (_analisar_produtos o, self).
Proof.
  unfold Calc._analisar_produtos, _analisar_produtos.
  destruct o as [[| p l] |]; try reflexivity.
  rewrite (calc_bind_run _ _ _ _ (calc_analisar_produtos_loop (p :: l) _ self)).
  calc_run; reflexivity.
Qed.

Lemma calc_upsert_by {K V : Type} (eqb : K -> K -> bool) (k : K) (init : V)
    (f : V -> Calc.t V) (g : V -> result V) (d : list (K * V))
    (self : Calc.FiscalCalculator) :
  (forall v, f v self = (g v, self)) ->
  Calc.upsert_by eqb k init f d self = (upsert eqb k init g d, self).
Proof.
  intros H. induction d as [| [k' v] d IH]; cbn [Calc.upsert_by upsert].
  - rewrite (calc_bind_run _ _ _ _ (H init)). destruct (g init); reflexivity.
  - destruct (eqb k k').
    + rewrite (calc_bind_run _ _ _ _ (H v)). destruct (g v); reflexivity.
    + rewrite (calc_bind_run _ _ _ _ IH). destruct (upsert eqb k init g d); reflexivity.
Qed.

Lemma calc_add_produto (d : list (option string * produto_agg)) (p : Produto)
    (self : Calc.FiscalCalculator) :
  Calc.add_produto d p self = (add_produto d p, self).
Proof.
  unfold Calc.add_produto, add_produto. cbv zeta. apply calc_upsert_by.
  intros v. unfold _safe_decimal. calc_run; reflexivity.
Qed.

Lemma calc_add_produtos (l : list Produto) :
  forall d self, Calc.add_produtos d l self = (add_produtos d l, self).
Proof.
  induction l as [| p l IH]; intros d self; cbn [Calc.add_produtos add_produtos];
    [reflexivity |].
  rewrite (calc_bind_run _ _ _ _ (calc_add_produto d p self)).
  destruct (add_produto d p); cbn [bind]; [apply IH | reflexivity].
Qed.

Lemma calc_accumulate (a : acc) (inv : Invoice) (self : Calc.FiscalCalculator) :
  Calc.accumulate a inv self = (accumulate a inv, self).
Proof.
  unfold Calc.accumulate, accumulate. cbv zeta. unfold _safe_decimal.
  repeat first
    [ rewrite (calc_bind_run _ _ _ _ (calc_add_produtos _ _ self))
    | progress cbn [Calc.bind Calc.ret Calc.lift Calc._safe_decimal Calc._safe_get bind]
    | match goal with
      | |- context [match ?r with Ok _ => _ | Raise _ => _ end] => destruct r
      end ]; reflexivity.
Qed.

Lemma calc_accumulate_all (l : list Invoice) :
  forall a self, Calc.accumulate_all a l self = (accumulate_all a l, self).
Proof.
  induction l as [| inv l IH]; intros a self; cbn [Calc.accumulate_all accumulate_all];
    [reflexivity |].
  rewrite (calc_bind_run _ _ _ _ (calc_accumulate a inv self)).
  destruct (accumulate a inv); cbn [bind]; [apply IH | reflexivity].
Qed.

Lemma calc_analisar_multiplas_notas (invs : list Invoice) (self : Calc.FiscalCalculator) :
  Calc.analisar_multiplas_notas invs self = (analisar_multiplas_notas invs, self).
Proof.
  unfold Calc.analisar_multiplas_notas, analisar_multiplas_notas.
  destruct (is_nil invs); [reflexivity |]. cbv zeta.
  rewrite (calc_bind_run _ _ _ _ (calc_accumulate_all invs acc0 self)).
  destruct (accumulate_all acc0 invs) as [a |]; cbn [bind]; [| reflexivity].
  repeat first
    [ rewrite (calc_bind_run _ _ _ _ (calc_comparar_regimes _ self))
    | progress cbn [Calc.bind Calc.ret Calc.lift Calc._classificar_carga_tributaria bind]
    | match goal with
      | |- context [match ?r with Ok _ => _ | Raise _ => _ end] => destruct r
      end ]; reflexivity.
Qed.

(** A call of [analisar_nota_individual] leaves the instance as it found
    it, whatever rates the instance holds. *)
Lemma calc_analisar_nota_individual_frame (inv : Invoice) (self : Calc.FiscalCalculator) :
  snd (Calc.analisar_nota_individual inv self) = self.
Proof.
  unfold Calc.analisar_nota_individual. cbv zeta.
  repeat first
    [ rewrite (calc_bind_run _ _ _ _ (calc_comparar_regimes _ self))
    | rewrite (calc_bind_run _ _ _ _ (calc_analisar_produtos _ self))
    | progress cbn [Calc.bind Calc.ret Calc.lift Calc.rate Calc.item Calc._safe_decimal
                    Calc._safe_get Calc._classificar_carga_tributaria snd]
    | match goal with
      | |- context [match ?r with Ok _ => _ | Raise _ => _ end] => destruct r
      | |- context [match ?o with Some _ => _ | None => _ end] => destruct o
      end ]; reflexivity.
Qed.

(** On an instance that holds the rates [__init__] sets, its outcome is the
    one the definition with the constant table gives. *)
Lemma calc_analisar_nota_individual_rates (inv : Invoice) (self : Calc.FiscalCalculator) :
  Calc.tax_rates self = Calc.tax_rates Calc.__init__ ->
  fst (Calc.analisar_nota_individual inv self) = analisar_nota_individual inv.
Proof.
  intros R.
  assert (I : Calc.item (Calc.icms_interno (Calc.tax_rates self)) "default" self
              = (Ok (D 180 (-1)), self)) by (rewrite R; reflexivity).
  unfold Calc.analisar_nota_individual, analisar_nota_individual. cbv zeta.
  unfold _safe_decimal.
  change (lookup_or "default" calc_icms_interno Dec.zero) with (D 180 (-1)).
  change calc_icms_interno with (Calc.icms_interno (Calc.tax_rates Calc.__init__)).
  change calc_pis_padrao with (Calc.pis_padrao (Calc.tax_rates Calc.__init__)).
  change calc_cofins_padrao with (Calc.cofins_padrao (Calc.tax_rates Calc.__init__)).
  rewrite <- R. clear R.
  destruct (totais inv) as [| | t]; cbn [get_or section]; try reflexivity;
  repeat first
    [ rewrite (calc_bind_run _ _ _ _ (calc_comparar_regimes _ self))
    | rewrite (calc_bind_run _ _ _ _ (calc_analisar_produtos _ self))
    | rewrite (calc_bind_run _ _ _ _ I)
    | progress cbn [Calc.bind Calc.ret Calc.lift Calc.rate Calc._safe_decimal
                    Calc._safe_get Calc._classificar_carga_tributaria bind fst]
    | match goal with
      | |- context [match ?r with Ok _ => _ | Raise _ => _ end] => destruct r
      end ]; reflexivity.
Qed.

(** C3, as the code has it.  The outcome of [validate_invoice] does not
    depend on the state the instance is in when the call starts; of two
    successive calls on one invoice, the second returns when the first does,
    with a report that differs from the first in its timestamp at most,
    which is the clock's reading at each call, and it raises what the first
    raised otherwise.  A call of [analisar_nota_individual] or of
    [analisar_multiplas_notas] leaves the instance of the calculator, its
    rate table, as it found it, whatever the table holds and whether the
    call returns or raises; so of two successive calls on one input the
    second has the outcome of the first.  On the instance [__init__] builds
    the outcome of [analisar_nota_individual] is the function of the invoice
    defined above with the constant table, and the outcome of
    [analisar_multiplas_notas] is on every instance the function of the
    batch defined above. *)
Theorem entry_points_repeat :
  (forall self1 self2 now inv,
     validate_invoice self1 now inv = validate_invoice self2 now inv)
  /\ (forall self now1 now2 inv r1 self1,
        validate_invoice self now1 inv = Ok (r1, self1) ->
        exists r2 self2,
          validate_invoice self1 now2 inv = Ok (r2, self2)
          /\ without_timestamp r1 = without_timestamp r2
          /\ path_get r1 ["timestamp"] = Some (VStr now1)
          /\ path_get r2 ["timestamp"] = Some (VStr now2)
          /\ (now1 = now2 -> r1 = r2))
  /\ (forall self self' now1 now2 inv e,
        validate_invoice self now1 inv = Raise e ->
        validate_invoice self' now2 inv = Raise e)
  /\ (forall self inv o1 self1 o2 self2,
        Calc.analisar_nota_individual inv self = (o1, self1) ->
        Calc.analisar_nota_individual inv self1 = (o2, self2) ->
        self1 = self /\ self2 = self /\ o2 = o1)
  /\ (forall self invs o1 self1 o2 self2,
        Calc.analisar_multiplas_notas invs self = (o1, self1) ->
        Calc.analisar_multiplas_notas invs self1 = (o2, self2) ->
        self1 = self /\ self2 = self /\ o2 = o1)
  /\ (forall inv,
        Calc.analisar_nota_individual inv Calc.__init__
        = (analisar_nota_individual inv, Calc.__init__))
  /\ (forall invs self,
        Calc.analisar_multiplas_notas invs self = (analisar_multiplas_notas invs, self)).
Proof.
  split; [| split; [| split; [| split; [| split; [| split]]]]].
  - intros. now rewrite !validate_invoice_validated.
  - intros self now1 now2 inv r1 self1 H.
    rewrite validate_invoice_validated in H |- *.
    destruct (validated inv) as [final |]; cbn [bind] in H |- *; [| discriminate].
    injection H as <- <-.
    do 2 eexists. split; [reflexivity |].
    repeat split. now intros ->.
  - intros self self' now1 now2 inv e H.
    rewrite validate_invoice_validated in H |- *.
    destruct (validated inv); cbn [bind] in H |- *; [discriminate | exact H].
  - intros self inv o1 self1 o2 self2 H1 H2.
    pose proof (calc_analisar_nota_individual_frame inv self) as F.
    rewrite H1 in F. cbn [snd] in F. subst self1.
    rewrite H1 in H2. injection H2 as <- <-. repeat split.
  - intros self invs o1 self1 o2 self2 H1 H2.
    rewrite calc_analisar_multiplas_notas in H1. injection H1 as <- <-.
    rewrite calc_analisar_multiplas_notas in H2. injection H2 as <- <-.
    repeat split.
  - intros inv.
    pose proof (calc_analisar_nota_individual_frame inv Calc.__init__) as F.
    pose proof (calc_analisar_nota_individual_rates inv Calc.__init__ eq_refl) as G.
    destruct (Calc.analisar_nota_individual inv Calc.__init__) as [o self'].
    cbn [fst snd] in F, G. now subst.
  - intros invs self. apply calc_analisar_multiplas_notas.
Qed.

Lemma entry_points_repeat_witness :
  (exists r1 self1 r2 self2,
     validate_invoice fresh_validator "2025-05-09T12:00:00" exemplo_nf_com_none
     = Ok (r1, self1)
     /\ validate_invoice self1 "2025-05-09T12:00:01" exemplo_nf_com_none
        = Ok (r2, self2)
     /\ without_timestamp r1 = without_timestamp r2)
  /\ (exists r,
        Calc.analisar_nota_individual exemplo_nf_com_none Calc.__init__
        = (Ok r, Calc.__init__)
        /\ path_get r ["impostos_calculados"; "total_impostos"]
           = Some (VFloat (lit 272 (-2)))).
Proof.
  split.
  - destruct (validate_invoice fresh_validator "2025-05-09T12:00:00" exemplo_nf_com_none)
      as [[r1 self1] |] eqn:E; [| vm_compute in E; discriminate E].
    destruct (proj1 (proj2 entry_points_repeat)
                fresh_validator "2025-05-09T12:00:00" "2025-05-09T12:00:01"
                exemplo_nf_com_none r1 self1 E)
      as (r2 & self2 & E2 & W & _).
    exists r1, self1, r2, self2. repeat split; assumption.
  - destruct entry_points_repeat as (_ & _ & _ & _ & _ & I & _).
    rewrite (I exemplo_nf_com_none).
    destruct (analisar_nota_individual exemplo_nf_com_none) as [r |] eqn:E;
      [| vm_compute in E; discriminate E].
    exists r. split; [reflexivity |].
    vm_compute in E. injection E as <-. reflexivity.
Defined.

(** C3, as the specification states it, fails for [validate_invoice]: two
    successive calls on the sample invoice, one second apart, return
    reports that are not identical. *)
Lemma validate_invoice_reports_differ :
  exists r1 self1 r2 self2,
    validate_invoice fresh_validator "2025-05-09T12:00:00" exemplo_nf_com_none
    = Ok (r1, self1)
    /\ validate_invoice self1 "2025-05-09T12:00:01" exemplo_nf_com_none
       = Ok (r2, self2)
    /\ r1 <> r2.
Proof.
  destruct (validate_invoice fresh_validator "2025-05-09T12:00:00" exemplo_nf_com_none)
    as [[r1 self1] |] eqn:E1; [| vm_compute in E1; discriminate E1].
  destruct (validate_invoice self1 "2025-05-09T12:00:01" exemplo_nf_com_none)
    as [[r2 self2] |] eqn:E2.
  - exists r1, self1, r2, self2. split; [reflexivity |]. split; [exact E2 |].
    apply validate_invoice_timestamp in E1.
    apply validate_invoice_timestamp in E2.
    intros R. rewrite R, E2 in E1. discriminate E1.
  - rewrite validate_invoice_validated in E2. vm_compute in E2. discriminate E2.
Qed.

(** ** The metrics of one invoice *)

Ltac replay :=
  repeat match goal with
         | E : ?m = Ok _ |- context [bind ?m _] => rewrite E; cbn [bind]
         end.

(** What a returned report says of the taxes, the burden and the absent
    fields. *)
Lemma analisar_nota_individual_fields (inv : Invoice) (r : value) :
  analisar_nota_individual inv = Ok r ->
  exists t total_impostos carga,
    section (totais inv) no_totais = Ok t
    /\ total_impostos_of t = Ok total_impostos
    /\ carga_of t total_impostos = Ok carga
    /\ path_get r ["impostos_calculados"; "total_impostos"]
       = Some (VFloat (Dec.to_float total_impostos))
    /\ path_get r ["carga_tributaria"; "percentual"]
       = Some (VFloat (Dec.to_float carga))
    /\ path_get r ["impostos_calculados"; "campos_ausentes"]
       = Some (str_list (campos_none_of t))
    /\ path_get r ["qualidade_dados"; "campos_none_lista"]
       = Some (str_list (campos_none_of t)).
Proof.
  unfold analisar_nota_individual. intros H. cbv zeta in H.
  destruct (section (totais inv) no_totais) as [t |] eqn:Et; cbn [bind] in H;
    [| discriminate].
  destruct (Dec.add (_safe_decimal (get (valor_icms t))) _) as [s1 |] eqn:E1;
    cbn [bind] in H; [| discriminate].
  destruct (Dec.add s1 _) as [s2 |] eqn:E2; cbn [bind] in H; [| discriminate].
  destruct (Dec.add s2 _) as [s3 |] eqn:E3; cbn [bind] in H; [| discriminate].
  destruct (half_up s3) as [total_impostos |] eqn:E4; cbn [bind] in H; [| discriminate].
  destruct (Dec.gt _ Dec.zero) as [positive_total |] eqn:E5; cbn [bind] in H;
    [| discriminate].
  match type of H with
  | bind ?m _ = _ => destruct m as [carga |] eqn:E6; cbn [bind] in H; [| discriminate]
  end.
  exists t, total_impostos, carga.
  split; [reflexivity |]. split; [unfold total_impostos_of; replay; exact E4 |].
  split; [unfold carga_of; cbv zeta; replay; exact E6 |].
  returned; repeat split.
Qed.

(** C4.  On the sample invoice of the repository, whose totals are
    valor_total_nf = 259.78, valor_icms = 2.72, valor_pis = None,
    valor_cofins = None and valor_ipi = 0.0, [analisar_nota_individual]
    returns total_impostos = 2.72, campos_ausentes = ["PIS", "COFINS"], the
    same list under qualidade_dados.campos_none_lista, and
    carga_tributaria.percentual = 1.05; and so does every report it returns
    for an invoice with these totals. *)
Theorem analisar_nota_individual_scenario :
  (exists r, analisar_nota_individual exemplo_nf_com_none = Ok r /\ scenario_holds r)
  /\ (forall inv t r,
        totais inv = Given t ->
        valor_total_nf t = Given (lit 25978 (-2)) ->
        valor_icms t = Given (lit 272 (-2)) ->
        get (valor_pis t) = None -> get (valor_cofins t) = None ->
        valor_ipi t = Given (lit 0 (-1)) ->
        analisar_nota_individual inv = Ok r ->
        scenario_holds r).
Proof.
  split.
  - eexists. split; [vm_compute; reflexivity |]. repeat split.
  - intros inv t r Ht Hv Hi Hp Hc Hipi H.
    destruct (analisar_nota_individual_fields inv r H)
      as (t' & total_impostos & carga & Et & E1 & E2 & G1 & G2 & G3 & G4).
    rewrite Ht in Et. injection Et as <-.
    unfold total_impostos_of in E1. rewrite Hi, Hp, Hc, Hipi in E1.
    vm_compute in E1. injection E1 as <-.
    unfold carga_of in E2. rewrite Hv in E2. vm_compute in E2. injection E2 as <-.
    unfold scenario_holds. rewrite G1, G2, G3, G4.
    unfold campos_none_of, is_none. 
    destruct (valor_pis t); try discriminate Hp;
      destruct (valor_cofins t); try discriminate Hc;
      rewrite Hi; repeat split.
Qed.

Lemma analisar_nota_individual_scenario_witness :
  exists r, analisar_nota_individual exemplo_nf_com_none = Ok r /\ scenario_holds r.
Proof.
  destruct (analisar_nota_individual exemplo_nf_com_none) as [r |] eqn:E;
    [| vm_compute in E; discriminate E].
  exists r. split; [reflexivity |].
  refine (proj2 analisar_nota_individual_scenario exemplo_nf_com_none _ r
            eq_refl _ _ _ _ _ E); reflexivity.
Defined.

(** ** Divisions *)

Lemma nde_bind {A B : Type} (m : result A) (k : A -> result B) :
  no_division_error m ->
  (forall a, m = Ok a -> no_division_error (k a)) ->
  no_division_error (bind m k).
Proof. destruct m; cbn [bind]; auto. Qed.

Lemma nde_Ok {A : Type} (a : A) : no_division_error (Ok a).
Proof. exact I. Qed.

Lemma nde_add (x y : Dec.t) : no_division_error (Dec.add x y).
Proof.
  destruct x as [s c e | s |], y as [s' c' e' | s' |]; cbn [Dec.add]; try exact I.
  destruct (Bool.eqb s s'); reflexivity.
Qed.

Lemma nde_sub (x y : Dec.t) : no_division_error (Dec.sub x y).
Proof.
  destruct x as [s c e | s |], y as [s' c' e' | s' |];
    cbn [Dec.sub Dec.copy_negate]; try exact I; apply nde_add.
Qed.

Lemma nde_mul (x y : Dec.t) : no_division_error (Dec.mul x y).
Proof.
  destruct x as [s c e | s |], y as [s' c' e' | s' |]; cbn [Dec.mul]; try exact I;
    match goal with |- context [?c =? 0] => destruct (c =? 0) end; reflexivity.
Qed.

Lemma nde_quantize (r : Dec.rounding) (x : Dec.t) (qe : Z) :
  no_division_error (Dec.quantize r x qe).
Proof.
  destruct x as [s c e | s |]; cbn [Dec.quantize]; try reflexivity.
  repeat match goal with
         | |- context [if ?b then _ else _] => destruct b
         end; reflexivity.
Qed.

Lemma nde_gt (x y : Dec.t) : no_division_error (Dec.gt x y).
Proof. destruct x, y; reflexivity. Qed.

Lemma nde_max (x y : Dec.t) : no_division_error (Dec.max x y).
Proof. unfold Dec.max. apply nde_bind; [apply nde_gt | intros; exact I]. Qed.

(** A division raises a division error only on a divisor that is zero. *)
Lemma nde_truediv (x y : Dec.t) :
  is_zero y = false -> no_division_error (Dec.truediv x y).
Proof.
  destruct x as [s c e | s |], y as [s' c' e' | s' |]; cbn [Dec.truediv is_zero];
    intros H; try reflexivity.
  rewrite H. cbv zeta.
  repeat match goal with
         | |- context [if ?b then _ else _] => destruct b
         | |- context [let '(_, _) := ?p in _] => destruct p
         end; reflexivity.
Qed.

(** What passed the guard [x > 0] is not zero. *)
Lemma gt_zero_not_zero (x : Dec.t) : Dec.gt x Dec.zero = Ok true -> is_zero x = false.
Proof.
  destruct x as [s c e | s |]; cbn [is_zero]; trivial.
  unfold Dec.gt, Dec.zero, Dec.cmp. intros H.
  destruct (c =? 0) eqn:C; trivial.
  apply Z.eqb_eq in C. subst c.
  rewrite Z.mul_0_l in H. destruct s; discriminate H.
Qed.

Lemma nde_half_up (x : Dec.t) : no_division_error (half_up x).
Proof. apply nde_quantize. Qed.

Lemma nde_round2 (x : Dec.t) : no_division_error (Dec.round2 x).
Proof. apply nde_quantize. Qed.

Lemma nde_percent_of (x rate : Dec.t) : no_division_error (percent_of x rate).
Proof.
  unfold percent_of.
  apply nde_bind; [apply nde_mul | intros p _].
  apply nde_bind; [now apply nde_truediv | intros q _].
  apply nde_half_up.
Qed.

Lemma nde_share_of (x total : Dec.t) :
  is_zero total = false -> no_division_error (share_of x total).
Proof.
  intros H. unfold share_of.
  apply nde_bind; [now apply nde_truediv | intros q _].
  apply nde_bind; [apply nde_mul | intros p _].
  apply nde_half_up.
Qed.

Lemma nde_guarded_share (x total : Dec.t) (b : bool) :
  Dec.gt total Dec.zero = Ok b ->
  no_division_error (if b then share_of x total else Ok Dec.zero).
Proof.
  destruct b; intros H; [| exact I].
  apply nde_share_of. now apply gt_zero_not_zero.
Qed.

Lemma nde_percent_or_zero (x total : Dec.t) :
  no_division_error (percent_or_zero x total).
Proof.
  unfold percent_or_zero.
  apply nde_bind; [apply nde_gt | intros [] H]; [| exact I].
  apply nde_bind; [| intros; exact I].
  apply nde_share_of. now apply gt_zero_not_zero.
Qed.

Create HintDb nde.
#[local] Hint Resolve nde_Ok nde_add nde_sub nde_mul nde_quantize nde_gt nde_max
  nde_half_up nde_round2 nde_percent_of nde_percent_or_zero nde_guarded_share : nde.

(** Follows a computation bind by bind. *)
Ltac nde :=
  repeat first
    [ exact I
    | match goal with |- no_division_error (Raise _) => reflexivity end
    | solve [eauto with nde]
    | apply nde_bind; [| intros ? ?]
    | match goal with
      | |- no_division_error (match ?x with _ => _ end) => destruct x eqn:?
      | |- no_division_error (let _ := _ in _) => cbv zeta
      end ].

Lemma is_zero_of_Z (n : Z) : (0 <? n) = true -> is_zero (Dec.of_Z n) = false.
Proof. intros H. apply Z.ltb_lt in H. unfold Dec.of_Z, is_zero. lia. Qed.

Lemma nde_truediv_count (x : Dec.t) (n : Z) :
  (0 <? n) = true -> no_division_error (Dec.truediv x (Dec.of_Z n)).
Proof. intros H. now apply nde_truediv, is_zero_of_Z. Qed.

Lemma nde_share_count (x : Dec.t) (n : Z) :
  (0 <? n) = true -> no_division_error (share_of x (Dec.of_Z n)).
Proof. intros H. now apply nde_share_of, is_zero_of_Z. Qed.

Lemma nde_truediv_hundred (x : Dec.t) : no_division_error (Dec.truediv x Dec.hundred).
Proof. now apply nde_truediv. Qed.

Lemma nde_section {A : Type} (f : field A) (empty : A) :
  no_division_error (section f empty).
Proof. destruct f; reflexivity. Qed.

Lemma nde_listing {A : Type} (f : field (list A)) : no_division_error (listing f).
Proof. destruct f; reflexivity. Qed.

Lemma nde_item_float (d : dict) (k : string) : no_division_error (item_float d k).
Proof. unfold item_float. destruct (dict_get d k) as [[] |]; reflexivity. Qed.

#[local] Hint Resolve nde_truediv_count nde_share_count nde_truediv_hundred
  nde_section nde_listing nde_item_float : nde.

Lemma nde_validate_product_calculation q u t desc tol :
  no_division_error (validate_product_calculation q u t desc tol).
Proof. unfold validate_product_calculation. nde. Qed.

Lemma nde_validate_tax_calculation b a v tipo tol :
  no_division_error (validate_tax_calculation b a v tipo tol).
Proof. unfold validate_tax_calculation. nde. Qed.

#[local] Hint Resolve nde_validate_product_calculation
  nde_validate_tax_calculation : nde.

Lemma nde_documents self inv : no_division_error (_validate_documents self inv).
Proof. unfold _validate_documents. nde. Qed.

Lemma nde_fiscal_codes self inv : no_division_error (_validate_fiscal_codes self inv).
Proof. unfold _validate_fiscal_codes. nde. Qed.

Lemma nde_products_calculation_of self i p :
  no_division_error (products_calculation_of self i p).
Proof. unfold products_calculation_of. nde. Qed.

Lemma nde_products_calculations_loop l :
  forall self i, no_division_error (products_calculations_loop self i l).
Proof.
  induction l as [| p l IH]; intros self i; cbn [products_calculations_loop];
    [exact I |].
  apply nde_bind; [apply nde_products_calculation_of | intros; apply IH].
Qed.

#[local] Hint Resolve nde_products_calculations_loop : nde.

Lemma nde_products_calculations self inv :
  no_division_error (_validate_products_calculations self inv).
Proof. unfold _validate_products_calculations. nde. Qed.

Lemma nde_contribution_check self b v a p acc n p1 p2 h1 e h2 :
  no_division_error (contribution_check self b v a p acc n p1 p2 h1 e h2).
Proof. unfold contribution_check. nde. Qed.

#[local] Hint Resolve nde_contribution_check : nde.

Lemma nde_tax_calculations self inv :
  no_division_error (_validate_tax_calculations self inv).
Proof. unfold _validate_tax_calculations. nde. Qed.

Lemma nde_totals self inv : no_division_error (_validate_totals self inv).
Proof. unfold _validate_totals. nde. Qed.

Lemma nde_consistency self inv : no_division_error (_validate_consistency self inv).
Proof. unfold _validate_consistency. nde. Qed.

#[local] Hint Resolve nde_documents nde_fiscal_codes nde_products_calculations
  nde_tax_calculations nde_totals nde_consistency : nde.

Lemma nde_validate_invoice self now inv :
  no_division_error (validate_invoice self now inv).
Proof. unfold validate_invoice. nde. Qed.

Lemma nde_comparar_regimes (x : F64.t) :
  no_division_error (_comparar_regimes_tributarios x).
Proof. unfold _comparar_regimes_tributarios. nde. Qed.

Lemma nde_analisar_produto a p : no_division_error (analisar_produto a p).
Proof. unfold analisar_produto. nde. Qed.

Lemma nde_analisar_produtos_loop l :
  forall a, no_division_error (analisar_produtos_loop a l).
Proof.
  induction l as [| p l IH]; intros a; cbn [analisar_produtos_loop]; [exact I |].
  apply nde_bind; [apply nde_analisar_produto | intros; apply IH].
Qed.

#[local] Hint Resolve nde_comparar_regimes nde_analisar_produtos_loop : nde.

Lemma nde_analisar_produtos o : no_division_error (_analisar_produtos o).
Proof.
  unfold _analisar_produtos. destruct o as [[| p l] |]; try exact I.
  apply nde_bind; [apply nde_analisar_produtos_loop | intros acc _].
  apply nde_bind; [now apply nde_truediv_count | intros q _].
  nde.
Qed.

#[local] Hint Resolve nde_analisar_produtos : nde.

Lemma nde_analisar_nota_individual inv :
  no_division_error (analisar_nota_individual inv).
Proof. unfold analisar_nota_individual. nde. Qed.

Lemma nde_upsert {K V : Type} (eqb : K -> K -> bool) (k : K) (init : V)
    (f : V -> result V) (d : list (K * V)) :
  (forall v, no_division_error (f v)) ->
  no_division_error (upsert eqb k init f d).
Proof.
  intros Hf. induction d as [| [k' v] d IH]; cbn [upsert].
  - apply nde_bind; [apply Hf | intros; exact I].
  - destruct (eqb k k').
    + apply nde_bind; [apply Hf | intros; exact I].
    + apply nde_bind; [apply IH | intros; exact I].
Qed.

Lemma nde_add_produto d p : no_division_error (add_produto d p).
Proof. unfold add_produto. apply nde_upsert. intros v. nde. Qed.

Lemma nde_add_produtos l : forall d, no_division_error (add_produtos d l).
Proof.
  induction l as [| p l IH]; intros d; cbn [add_produtos]; [exact I |].
  apply nde_bind; [apply nde_add_produto | intros; apply IH].
Qed.

#[local] Hint Resolve nde_add_produtos : nde.

Lemma nde_accumulate a inv : no_division_error (accumulate a inv).
Proof.
  unfold accumulate.
  repeat first
    [ exact I
    | solve [eauto with nde]
    | apply nde_upsert; intros ?
    | apply nde_bind; [| intros ? ?]
    | match goal with
      | |- no_division_error (match ?x with _ => _ end) => destruct x eqn:?
      | |- no_division_error (let _ := _ in _) => cbv zeta
      end ].
Qed.

Lemma nde_accumulate_all l : forall a, no_division_error (accumulate_all a l).
Proof.
  induction l as [| inv l IH]; intros a; cbn [accumulate_all]; [exact I |].
  apply nde_bind; [apply nde_accumulate | intros; apply IH].
Qed.

Lemma nde_fornecedor_entry total item :
  no_division_error (fornecedor_entry total item).
Proof. unfold fornecedor_entry. destruct item. nde. Qed.

Lemma nde_map_result {A B : Type} (f : A -> result B) (l : list A) :
  (forall x, no_division_error (f x)) -> no_division_error (map_result f l).
Proof.
  intros Hf. induction l as [| x l IH]; cbn [map_result]; [exact I |].
  apply nde_bind; [apply Hf | intros y _].
  apply nde_bind; [apply IH | intros; exact I].
Qed.

#[local] Hint Resolve nde_accumulate_all : nde.

Lemma nde_analisar_multiplas_notas invs :
  no_division_error (analisar_multiplas_notas invs).
Proof.
  unfold analisar_multiplas_notas.
  repeat first
    [ exact I
    | solve [eauto with nde]
    | apply nde_map_result; intros ?; apply nde_fornecedor_entry
    | apply nde_bind; [| intros ? ?]
    | match goal with
      | |- no_division_error (match ?x with _ => _ end) => destruct x eqn:?
      | |- no_division_error (let _ := _ in _) => cbv zeta
      end ].
Qed.

(** ** Percentages of a zero total *)

Lemma gt_zero_of_zero (x : Dec.t) : is_zero x = true -> Dec.gt x Dec.zero = Ok false.
Proof.
  destruct x as [s c e | s |]; cbn [is_zero]; try discriminate.
  intros H. apply Z.eqb_eq in H. subst c.
  unfold Dec.gt, Dec.zero, Dec.cmp. rewrite Z.mul_0_l. now destruct s.
Qed.

Lemma percent_or_zero_of_zero (x total : Dec.t) :
  is_zero total = true -> percent_or_zero x total = Ok (VInt 0).
Proof. intros H. unfold percent_or_zero. now rewrite gt_zero_of_zero. Qed.

Lemma In_insert_desc {A : Type} (key : A -> F64.t) (x y : A) (l : list A) :
  In y (insert_desc key x l) -> y = x \/ In y l.
Proof.
  induction l as [| z l IH]; cbn [insert_desc].
  - intros [<- | H]; [now left | destruct H].
  - destruct (F64.ltb (key z) (key x)).
    + intros [<- | H]; auto.
    + intros [<- | H]; [right; now left |].
      destruct (IH H); auto. right. now right.
Qed.

Lemma In_sorted_desc {A : Type} (key : A -> F64.t) (y : A) (l : list A) :
  In y (sorted_desc key l) -> In y l.
Proof.
  unfold sorted_desc.
  assert (G : forall acc, In y (fold_left (fun acc x => insert_desc key x acc) l acc)
                          -> In y acc \/ In y l).
  { induction l as [| x l IH]; intros acc; cbn [fold_left]; auto.
    intros H. destruct (IH _ H) as [H' | H'].
    - destruct (In_insert_desc _ _ _ _ H') as [-> | H'']; auto.
      right. now left.
    - right. now right. }
  intros H. destruct (G [] H) as [H' | H']; [destruct H' | exact H'].
Qed.

Lemma In_firstn {A : Type} (n : nat) (y : A) (l : list A) :
  In y (firstn n l) -> In y l.
Proof.
  revert l. induction n as [| n IH]; intros [| x l] H; cbn [firstn In] in H;
    try contradiction.
  destruct H as [<- | H]; [now left | right; auto].
Qed.

Lemma entries_of_zero (total : Dec.t) (l : list (string * fornecedor))
    (entries : list (F64.t * value * value)) :
  is_zero total = true ->
  map_result (fornecedor_entry total) l = Ok entries ->
  Forall (fun e => path_get (snd e) ["percentual_faturamento"] = Some (VInt 0)) entries.
Proof.
  intros Hz. revert entries.
  induction l as [| [nome dados] l IH]; intros entries H; cbn [map_result] in H.
  - injection H as <-. constructor.
  - unfold fornecedor_entry at 1 in H.
    rewrite (percent_or_zero_of_zero _ _ Hz) in H. cbn [bind] in H.
    destruct (map_result _ l) as [rest |]; cbn [bind] in H; [| discriminate].
    injection H as <-. constructor; [reflexivity | now apply IH].
Qed.

(** What a returned aggregate report lists under [top_fornecedores] and
    [distribuicao]. *)
Lemma analisar_multiplas_notas_fields (inv : Invoice) (invs : list Invoice) (r : value) :
  analisar_multiplas_notas (inv :: invs) = Ok r ->
  exists a entries icms_percent pis_percent cofins_percent,
    accumulate_all acc0 (inv :: invs) = Ok a
    /\ map_result (fornecedor_entry (faturamento_total a)) (fornecedores a) = Ok entries
    /\ percent_or_zero (icms_total a) (impostos_total a) = Ok icms_percent
    /\ percent_or_zero (pis_total a) (impostos_total a) = Ok pis_percent
    /\ percent_or_zero (cofins_total a) (impostos_total a) = Ok cofins_percent
    /\ top_fornecedores_of r
       = map snd (firstn 10 (sorted_desc (fun e => fst (fst e)) entries))
    /\ distribuicao_of r = [icms_percent; pis_percent; cofins_percent]
    /\ (is_zero (faturamento_total a) = true ->
        path_get r ["carga_tributaria_agregada"; "percentual"]
        = Some (VFloat F64.zero)).
Proof.
  unfold analisar_multiplas_notas. cbn [is_nil]. intros H. cbv zeta in H.
  returned; do 5 eexists; repeat split; try eassumption; try reflexivity;
    intros Hz; apply gt_zero_of_zero in Hz; congruence.
Qed.

Lemma length_insert_desc {A : Type} (key : A -> F64.t) (x : A) (l : list A) :
  List.length (insert_desc key x l) = S (List.length l).
Proof.
  induction l as [| y l IH]; cbn [insert_desc]; trivial.
  destruct (F64.ltb (key y) (key x)); cbn [List.length]; congruence.
Qed.

Lemma length_sorted_desc {A : Type} (key : A -> F64.t) (l : list A) :
  List.length (sorted_desc key l) = List.length l.
Proof.
  unfold sorted_desc.
  assert (G : forall acc,
            List.length (fold_left (fun acc x => insert_desc key x acc) l acc)
            = (List.length acc + List.length l)%nat).
  { induction l as [| x l IH]; intros acc; cbn [fold_left List.length]; [lia |].
    rewrite IH, length_insert_desc. lia. }
  apply G.
Qed.

Lemma upsert_length {K V : Type} (eqb : K -> K -> bool) (k : K) (init : V)
    (f : V -> result V) (d d' : list (K * V)) :
  upsert eqb k init f d = Ok d' ->
  (List.length d <= List.length d' <= S (List.length d))%nat
  /\ (1 <= List.length d')%nat.
Proof.
  revert d'. induction d as [| [k' v] d IH]; intros d' H; cbn [upsert] in H.
  - destruct (f init); cbn [bind] in H; [| discriminate].
    injection H as <-. cbn [List.length]. lia.
  - destruct (eqb k k').
    + destruct (f v); cbn [bind] in H; [| discriminate].
      injection H as <-. cbn [List.length]. lia.
    + destruct (upsert eqb k init f d) as [r |]; cbn [bind] in H; [| discriminate].
      injection H as <-. destruct (IH r eq_refl). cbn [List.length]. lia.
Qed.

Lemma accumulate_suppliers_length (a a' : acc) (inv : Invoice) :
  accumulate a inv = Ok a' ->
  (List.length (fornecedores a) <= List.length (fornecedores a')
   <= S (List.length (fornecedores a)))%nat
  /\ (1 <= List.length (fornecedores a'))%nat.
Proof.
  unfold accumulate. intros H. cbv zeta in H.
  repeat match type of H with
         | bind (upsert String.eqb _ {| f_valor := _; f_quantidade := _ |} _ _) _ = Ok _ =>
             fail 1
         | bind ?m _ = Ok _ => destruct m; cbn [bind] in H; [| discriminate H]
         end.
  match type of H with
  | bind ?m _ = Ok _ => destruct m as [fs |] eqn:U; cbn [bind] in H; [| discriminate H]
  end.
  repeat match type of H with
         | bind ?m _ = Ok _ => destruct m; cbn [bind] in H; [| discriminate H]
         end.
  injection H as <-. cbn [fornecedores]. exact (upsert_length _ _ _ _ _ _ U).
Qed.

Lemma accumulate_all_suppliers_length (invs : list Invoice) (a a' : acc) :
  accumulate_all a invs = Ok a' ->
  (List.length (fornecedores a) <= List.length (fornecedores a')
   <= List.length (fornecedores a) + List.length invs)%nat
  /\ (invs <> [] -> 1 <= List.length (fornecedores a'))%nat.
Proof.
  revert a. induction invs as [| inv invs IH]; intros a H; cbn [accumulate_all] in H.
  - injection H as <-. cbn [List.length]. split; [lia | congruence].
  - destruct (accumulate a inv) as [a1 |] eqn:E; cbn [bind] in H; [| discriminate].
    destruct (accumulate_suppliers_length _ _ _ E) as [L1 L2].
    destruct (IH _ H) as [L3 _]. cbn [List.length]. split; [lia | intros _; lia].
Qed.

Lemma map_result_length {A B : Type} (f : A -> result B) (l : list A) (l' : list B) :
  map_result f l = Ok l' -> List.length l' = List.length l.
Proof.
  revert l'. induction l as [| x l IH]; intros l' H; cbn [map_result] in H.
  - now injection H as <-.
  - destruct (f x); cbn [bind] in H; [| discriminate].
    destruct (map_result f l) as [rest |]; cbn [bind] in H; [| discriminate].
    injection H as <-. cbn [List.length]. now rewrite (IH rest).
Qed.

(** Where a returned aggregate report keeps its suppliers and its
    distribution. *)
Lemma analisar_multiplas_notas_places (inv : Invoice) (invs : list Invoice) (r : value) :
  analisar_multiplas_notas (inv :: invs) = Ok r ->
  exists icms_percent pis_percent cofins_percent,
    path_get r ["top_fornecedores"] = Some (VList (top_fornecedores_of r))
    /\ path_get r ["carga_tributaria_agregada"; "distribuicao"]
       = Some (VDict [ ("icms_percent", icms_percent); ("pis_percent", pis_percent);
                       ("cofins_percent", cofins_percent) ])
    /\ distribuicao_of r = [icms_percent; pis_percent; cofins_percent].
Proof.
  unfold analisar_multiplas_notas. cbn [is_nil]. intros H. cbv zeta in H.
  returned; do 3 eexists; repeat split.
Qed.

(** C6.  A percentage over a zero denominator is reported as zero: the tax
    burden of an invoice whose grand total is zero (0.0 or absent) is 0.0;
    in a batch whose accumulated volume is zero every supplier listed has
    percentual_faturamento 0, a batch that is not empty listing
    min(10, total_fornecedores) suppliers, at least one, under
    top_fornecedores, and the aggregate burden of a batch that is not empty
    is 0.0; in a batch whose accumulated taxes are zero every percentage of
    the distribution is 0, a batch that is not empty reporting the three of
    them, icms_percent, pis_percent and cofins_percent.  And no entry point
    raises a division error (DivisionByZero, DivisionUndefined,
    ZeroDivisionError) on any input. *)
Theorem zero_denominators :
  (forall inv t r,
     section (totais inv) no_totais = Ok t ->
     F64.eqb (_safe_float (get (valor_total_nf t)) F64.zero) F64.zero = true ->
     analisar_nota_individual inv = Ok r ->
     path_get r ["carga_tributaria"; "percentual"] = Some (VFloat F64.zero))
  /\ (forall invs a r,
        accumulate_all acc0 invs = Ok a -> is_zero (faturamento_total a) = true ->
        analisar_multiplas_notas invs = Ok r ->
        Forall (fun f => path_get f ["percentual_faturamento"] = Some (VInt 0))
          (top_fornecedores_of r)
        /\ (invs <> [] ->
            path_get r ["top_fornecedores"] = Some (VList (top_fornecedores_of r))
            /\ List.length (top_fornecedores_of r)
               = Nat.min 10 (List.length (fornecedores a))
            /\ (1 <= List.length (fornecedores a))%nat))
  /\ (forall inv invs a r,
        accumulate_all acc0 (inv :: invs) = Ok a ->
        is_zero (faturamento_total a) = true ->
        analisar_multiplas_notas (inv :: invs) = Ok r ->
        path_get r ["carga_tributaria_agregada"; "percentual"]
        = Some (VFloat F64.zero))
  /\ (forall invs a r,
        accumulate_all acc0 invs = Ok a -> is_zero (impostos_total a) = true ->
        analisar_multiplas_notas invs = Ok r ->
        Forall (fun v => v = VInt 0) (distribuicao_of r)
        /\ (invs <> [] ->
            path_get r ["carga_tributaria_agregada"; "distribuicao"]
            = Some (VDict [ ("icms_percent", VInt 0); ("pis_percent", VInt 0);
                            ("cofins_percent", VInt 0) ])))
  /\ (forall self now inv, no_division_error (validate_invoice self now inv))
  /\ (forall inv, no_division_error (analisar_nota_individual inv))
  /\ (forall invs, no_division_error (analisar_multiplas_notas invs)).
Proof.
  split; [| split; [| split; [| split; [| split; [| split]]]]].
  - intros inv t r Ht Hz H.
    destruct (analisar_nota_individual_fields inv r H)
      as (t' & total_impostos & carga & Et & _ & E2 & _ & G & _).
    rewrite Ht in Et. injection Et as <-.
    rewrite G. unfold carga_of in E2. cbv zeta in E2.
    assert (Z0 : Dec.gt (_safe_decimal (get (valor_total_nf t))) Dec.zero = Ok false).
    { destruct (get (valor_total_nf t)) as [[s | s | | s m e] |];
        cbn [_safe_float] in Hz; try discriminate Hz; try reflexivity;
        destruct s; try discriminate Hz; reflexivity. }
    rewrite Z0 in E2. cbn [bind] in E2. injection E2 as <-. reflexivity.
  - intros [| inv invs] a r Ha Hz H.
    + injection H as <-. split; [constructor | intros N; now destruct N].
    + destruct (analisar_multiplas_notas_fields inv invs r H)
        as (a' & entries & _ & _ & _ & Ea & Ee & _ & _ & _ & T & _).
      rewrite Ha in Ea. injection Ea as <-.
      destruct (analisar_multiplas_notas_places inv invs r H) as (_ & _ & _ & P & _).
      split.
      * rewrite T. apply Forall_forall. intros f Hf.
        apply in_map_iff in Hf. destruct Hf as (e & <- & He).
        apply In_firstn, In_sorted_desc in He.
        pose proof (entries_of_zero _ _ _ Hz Ee) as F.
        rewrite Forall_forall in F. now apply F.
      * intros _. split; [exact P |]. split.
        -- rewrite T, length_map, length_firstn, length_sorted_desc.
           now rewrite (map_result_length _ _ _ Ee).
        -- destruct (accumulate_all_suppliers_length _ _ _ Ha) as [_ B].
           apply B. discriminate.
  - intros inv invs a r Ha Hz H.
    destruct (analisar_multiplas_notas_fields inv invs r H)
      as (a' & _ & _ & _ & _ & Ea & _ & _ & _ & _ & _ & _ & G).
    rewrite Ha in Ea. injection Ea as <-. now apply G.
  - intros [| inv invs] a r Ha Hz H.
    + injection H as <-. split; [constructor | intros N; now destruct N].
    + destruct (analisar_multiplas_notas_fields inv invs r H)
        as (a' & entries & p1 & p2 & p3 & Ea & _ & E1 & E2 & E3 & _ & T & _).
      rewrite Ha in Ea. injection Ea as <-.
      rewrite (percent_or_zero_of_zero _ _ Hz) in E1.
      rewrite (percent_or_zero_of_zero _ _ Hz) in E2.
      rewrite (percent_or_zero_of_zero _ _ Hz) in E3.
      injection E1 as <-. injection E2 as <-. injection E3 as <-.
      destruct (analisar_multiplas_notas_places inv invs r H)
        as (q1 & q2 & q3 & _ & P & D).
      rewrite T in D. injection D as <- <- <-.
      split; [rewrite T; repeat constructor | intros _; exact P].
  - apply nde_validate_invoice.
  - apply nde_analisar_nota_individual.
  - apply nde_analisar_multiplas_notas.
Qed.

Lemma zero_denominators_witness :
  (exists r,
     analisar_nota_individual nota_zerada = Ok r
     /\ path_get r ["carga_tributaria"; "percentual"] = Some (VFloat F64.zero))
  /\ (exists r supplier,
        analisar_multiplas_notas [nota_zerada; nota_zerada] = Ok r
        /\ path_get r ["top_fornecedores"] = Some (VList [supplier])
        /\ path_get supplier ["nome"] = Some (VStr "FORNECEDOR")
        /\ path_get supplier ["percentual_faturamento"] = Some (VInt 0)
        /\ path_get r ["carga_tributaria_agregada"; "distribuicao"]
           = Some (VDict [ ("icms_percent", VInt 0); ("pis_percent", VInt 0);
                           ("cofins_percent", VInt 0) ])).
Proof.
  destruct zero_denominators as (A & B & _ & C & _).
  split.
  - destruct (analisar_nota_individual nota_zerada) as [r |] eqn:E;
      [| vm_compute in E; discriminate E].
    exists r. split; [reflexivity |].
    refine (A nota_zerada _ r eq_refl _ E). reflexivity.
  - destruct (analisar_multiplas_notas [nota_zerada; nota_zerada]) as [r |] eqn:E;
      [| vm_compute in E; discriminate E].
    destruct (accumulate_all acc0 [nota_zerada; nota_zerada]) as [a |] eqn:Ea;
      [| vm_compute in Ea; discriminate Ea].
    assert (Z1 : is_zero (faturamento_total a) = true)
      by (vm_compute in Ea; injection Ea as <-; reflexivity).
    assert (Z2 : is_zero (impostos_total a) = true)
      by (vm_compute in Ea; injection Ea as <-; reflexivity).
    destruct (B _ a r Ea Z1 E) as [F L].
    destruct (L ltac:(discriminate)) as (P & N & _).
    destruct (C _ a r Ea Z2 E) as [_ D].
    specialize (D ltac:(discriminate)).
    assert (S : exists supplier,
               top_fornecedores_of r = [supplier]
               /\ path_get supplier ["nome"] = Some (VStr "FORNECEDOR")).
    { vm_compute in E. injection E as <-. eexists. split; reflexivity. }
    destruct S as (supplier & S & Nm).
    exists r, supplier. split; [reflexivity |].
    rewrite S in P, F. split; [exact P |]. split; [exact Nm |].
    split; [now inversion F | exact D].
Defined.

(** * Further properties of the validator *)

(** ** The digits of a string *)

Lemma digit_of_is_digit (c : ascii) :
  is_digit c = true ->
  digit_char (int_of_char c) = c /\ is_digit_value (int_of_char c).
Proof.
  destruct c as [[] [] [] [] [] [] [] []]; intros H; vm_compute in H;
    try discriminate H; split; try reflexivity; vm_compute; split; discriminate.
Qed.

Lemma only_digits_digits_of (s : string) :
  only_digits s = digits_string (digits_of s) /\ Forall is_digit_value (digits_of s).
Proof.
  unfold digits_of.
  induction s as [| c s [IH1 IH2]]; cbn [only_digits].
  - split; [reflexivity | constructor].
  - destruct (is_digit c) eqn:E; [| now split].
    destruct (digit_of_is_digit c E) as [E1 E2].
    cbn [list_ascii_of_string map digits_string]. split.
    + now rewrite E1, <- IH1.
    + now constructor.
Qed.

Lemma length_digits_of (s : string) :
  List.length (digits_of s) = String.length (only_digits s).
Proof.
  destruct (only_digits_digits_of s) as [E _].
  now rewrite E, length_digits_string.
Qed.

Lemma repeated_is_listed (d : Z) (n : nat) :
  is_digit_value d ->
  str_in (digits_string (List.repeat d n)) (repeated_digits n) = true.
Proof.
  intros H. rewrite repeated_digits_spelled. unfold str_in. cbn [map existsb].
  each_digit H; rewrite String.eqb_refl, ?orb_true_r; reflexivity.
Qed.

Lemma str_in_repeated_iff (ds : list Z) :
  Forall is_digit_value ds -> ds <> [] ->
  str_in (digits_string ds) (repeated_digits (List.length ds)) = false
  <-> ~ one_digit_repeated ds.
Proof.
  intros D N. split.
  - intros H [d E]. 
    assert (Hd : is_digit_value d).
    { destruct ds as [| x ds]; [congruence |].
      cbn [List.length List.repeat] in E. injection E as -> _.
      now inversion D. }
    rewrite E in H at 1. rewrite repeated_is_listed in H by assumption. discriminate.
  - intros H. now apply str_in_repeated.
Qed.

(** ** What the tax-id validators accept *)

(** X1.  [validate_cnpj] accepts a string exactly when the digits it holds
    are fourteen, are not one digit repeated, and end in the two check
    digits that the weights 5,4,3,2,9,8,7,6,5,4,3,2 and
    6,5,4,3,2,9,8,7,6,5,4,3,2 give modulo 11; every other character of the
    string is ignored. *)
Theorem validate_cnpj_accepts_iff (s : string) :
  fst (validate_cnpj s) = true
  <-> List.length (digits_of s) = 14%nat
      /\ ~ one_digit_repeated (digits_of s)
      /\ cnpj_equations (digits_of s).
Proof.
  destruct (only_digits_digits_of s) as [E D].
  destruct (Nat.eq_dec (List.length (digits_of s)) 14) as [L | L].
  - rewrite (validate_cnpj_digits _ s L D E).
    assert (N : digits_of s <> []) by (intros N; now rewrite N in L).
    pose proof (str_in_repeated_iff _ D N) as R. rewrite L in R.
    unfold cnpj_equations. fold weight_1 weight_2.
    destruct (str_in _ _).
    + split; [discriminate |]. intros (_ & A & _). destruct R as [_ R]. specialize (R A). discriminate.
    + destruct (Z.eqb_spec (nth 12 (digits_of s) 0) (check_digit_lt2 weight_1 (digits_of s)));
        cbn [negb fst];
        [| split; [discriminate | intros (_ & _ & A & _); contradiction]].
      destruct (Z.eqb_spec (nth 13 (digits_of s) 0) (check_digit_lt2 weight_2 (digits_of s)));
        cbn [negb fst];
        [| split; [discriminate | intros (_ & _ & _ & A); contradiction]].
      split; [| reflexivity]. intros _. repeat split; trivial. now apply R.
  - split; [| intros [A _]; contradiction].
    unfold validate_cnpj. rewrite <- length_digits_of.
    apply Nat.eqb_neq in L. rewrite L. discriminate.
Qed.

Lemma descending_sum_digits (ds : list Z) (top : Z) (n : nat) :
  Forall is_digit_value ds ->
  descending_sum (digits_string ds) top n
  = fold_left (fun acc i => acc + nth i ds 0 * (top - Z.of_nat i)) (seq 0 n) 0.
Proof.
  intros H. unfold descending_sum.
  apply (fold_left_sum_ext (fun i => digit_at (digits_string ds) i * (top - Z.of_nat i))).
  intros i. now rewrite digit_at_digits_string.
Qed.

Lemma cpf_sum_1 (ds : list Z) :
  List.length ds = 11%nat ->
  fold_left (fun acc i => acc + nth i ds 0 * (10 - Z.of_nat i)) (seq 0 9) 0
  = dot cpf_weight_1 ds.
Proof.
  intros L. explicit_list ds L. unfold dot, cpf_weight_1.
  cbn [seq fold_left nth combine map fold_right fst snd Z.of_nat Pos.of_succ_nat Pos.succ].
  lia.
Qed.

Lemma cpf_sum_2 (ds : list Z) :
  List.length ds = 11%nat ->
  fold_left (fun acc i => acc + nth i ds 0 * (11 - Z.of_nat i)) (seq 0 10) 0
  = dot cpf_weight_2 ds.
Proof.
  intros L. explicit_list ds L. unfold dot, cpf_weight_2.
  cbn [seq fold_left nth combine map fold_right fst snd Z.of_nat Pos.of_succ_nat Pos.succ].
  lia.
Qed.

(** What [validate_cpf] computes on eleven digits, in terms of the digits
    themselves. *)

Lemma validate_cpf_digits (ds : list Z) (s : string) :
  List.length ds = 11%nat -> Forall is_digit_value ds ->
  only_digits s = digits_string ds ->
  validate_cpf s =
    if str_in (digits_string ds) (repeated_digits 11) then
      (false, "CPF com todos os dígitos iguais é inválido")
    else if negb (nth 9 ds 0 =? check_digit_lt2 cpf_weight_1 ds) then
      (false, "Primeiro dígito verificador inválido")
    else if negb (nth 10 ds 0 =? check_digit_lt2 cpf_weight_2 ds) then
      (false, "Segundo dígito verificador inválido")
    else (true, "CPF válido").
Proof.
  intros L D E. unfold validate_cpf. rewrite E, length_digits_string, L.
  change (negb (11 =? 11)%nat) with false. cbv iota.
  rewrite !descending_sum_digits, !digit_at_digits_string by assumption.
  rewrite cpf_sum_1, cpf_sum_2 by assumption.
  reflexivity.
Qed.

(** X2.  [validate_cpf] accepts a string exactly when the digits it holds
    are eleven, are not one digit repeated, and end in the two check digits
    that the weights 10 down to 2 over the first nine digits, and 11 down to
    2 over the first ten, give modulo 11. *)
Theorem validate_cpf_accepts_iff (s : string) :
  fst (validate_cpf s) = true
  <-> List.length (digits_of s) = 11%nat
      /\ ~ one_digit_repeated (digits_of s)
      /\ cpf_equations (digits_of s).
Proof.
  destruct (only_digits_digits_of s) as [E D].
  destruct (Nat.eq_dec (List.length (digits_of s)) 11) as [L | L].
  - rewrite (validate_cpf_digits _ s L D E).
    assert (N : digits_of s <> []) by (intros N; now rewrite N in L).
    pose proof (str_in_repeated_iff _ D N) as R. rewrite L in R.
    unfold cpf_equations.
    destruct (str_in _ _).
    + split; [discriminate |]. intros (_ & A & _). destruct R as [_ R]. specialize (R A). discriminate.
    + destruct (Z.eqb_spec (nth 9 (digits_of s) 0) (check_digit_lt2 cpf_weight_1 (digits_of s)));
        cbn [negb fst];
        [| split; [discriminate | intros (_ & _ & A & _); contradiction]].
      destruct (Z.eqb_spec (nth 10 (digits_of s) 0) (check_digit_lt2 cpf_weight_2 (digits_of s)));
        cbn [negb fst];
        [| split; [discriminate | intros (_ & _ & _ & A); contradiction]].
      split; [| reflexivity]. intros _. repeat split; trivial. now apply R.
  - split; [| intros [A _]; contradiction].
    unfold validate_cpf. rewrite <- length_digits_of.
    apply Nat.eqb_neq in L. rewrite L. discriminate.
Qed.

(** ** Single-digit errors *)

Lemma nth_set_nth_other (i j : nat) (d : Z) (ds : list Z) :
  i <> j -> nth j (set_nth i d ds) 0 = nth j ds 0.
Proof.
  revert i j. induction ds as [| x rest IH]; intros [| i] [| j] N;
    cbn [set_nth nth]; try reflexivity; try congruence.
  apply IH. congruence.
Qed.

Lemma dot_set_nth (ws : list Z) :
  forall (ds : list Z) (i : nat) (d : Z),
    (i < List.length ds)%nat ->
    dot ws (set_nth i d ds) = dot ws ds + nth i ws 0 * (d - nth i ds 0).
Proof.
  unfold dot.
  induction ws as [| w ws IH]; intros [| x ds] i d L; cbn [List.length] in L;
    try lia.
  - destruct i; cbn [set_nth combine map fold_right nth]; lia.
  - destruct i as [| i]; cbn [set_nth combine map fold_right nth fst snd].
    + lia.
    + rewrite IH by lia. lia.
Qed.

(** A weight between 2 and 10 moves the remainder modulo 11 of a sum when
    the digit it multiplies changes. *)
Lemma weighted_change_mod11 (w delta : Z) :
  2 <= w <= 10 -> -9 <= delta <= 9 -> delta <> 0 -> (w * delta) mod 11 <> 0.
Proof.
  intros Hw Hd N.
  assert (C : w = 2 \/ w = 3 \/ w = 4 \/ w = 5 \/ w = 6 \/ w = 7 \/ w = 8 \/ w = 9
              \/ w = 10) by lia.
  repeat (destruct C as [-> | C]); try subst w; Z.div_mod_to_equations; lia.
Qed.

(** A check digit that is not 0 does not survive a change of the remainder. *)
Lemma mod11_digit_moves (sum k : Z) :
  k mod 11 <> 0 -> mod11_digit sum <> 0 -> mod11_digit (sum + k) <> mod11_digit sum.
Proof.
  unfold mod11_digit. cbv zeta. intros Hk.
  destruct (Z.ltb_spec (sum mod 11) 2); [congruence |]. intros _.
  destruct (Z.ltb_spec ((sum + k) mod 11) 2); Z.div_mod_to_equations; lia.
Qed.

Lemma check_digit_moves (ws ds : list Z) (i : nat) (d : Z) :
  2 <= nth i ws 0 <= 10 -> (i < List.length ds)%nat ->
  Forall is_digit_value ds -> is_digit_value d -> d <> nth i ds 0 ->
  check_digit_lt2 ws ds <> 0 ->
  check_digit_lt2 ws (set_nth i d ds) <> check_digit_lt2 ws ds.
Proof.
  intros W Ld D Hd N Z0.
  change (mod11_digit (dot ws (set_nth i d ds)) <> mod11_digit (dot ws ds)).
  rewrite dot_set_nth by assumption.
  apply mod11_digit_moves; [| exact Z0].
  apply weighted_change_mod11; trivial.
  - assert (is_digit_value (nth i ds 0)).
    { rewrite Forall_forall in D. apply D, nth_In, Ld. }
    unfold is_digit_value in *. lia.
  - lia.
Qed.

Lemma weight_1_range (i : nat) : (i < 12)%nat -> 2 <= nth i weight_1 0 <= 10.
Proof.
  intros H. do 12 (destruct i as [| i]; [cbn; lia |]). lia.
Qed.

Lemma weight_2_range (i : nat) : (i < 13)%nat -> 2 <= nth i weight_2 0 <= 10.
Proof.
  intros H. do 13 (destruct i as [| i]; [cbn; lia |]). lia.
Qed.

Lemma cpf_weight_1_range (i : nat) : (i < 9)%nat -> 2 <= nth i cpf_weight_1 0 <= 10.
Proof.
  intros H. do 9 (destruct i as [| i]; [cbn; lia |]). lia.
Qed.

Lemma cpf_weight_2_range (i : nat) :
  (0 < i < 10)%nat -> 2 <= nth i cpf_weight_2 0 <= 10.
Proof.
  intros H. destruct i as [| i]; [lia |].
  do 9 (destruct i as [| i]; [cbn; lia |]). lia.
Qed.

(** X3.  In a CNPJ that satisfies the check-digit equations and whose two
    check digits are not both 0, replacing any one of the fourteen digits by
    a different digit makes [validate_cnpj] reject.  The condition is
    needed: 71.046.563/4148-00 and 51.046.563/4148-00 differ in one digit
    and are both accepted. *)
Theorem cnpj_substitution_detected :
  (forall (ds : list Z) (i : nat) (d : Z) (s : string),
     List.length ds = 14%nat -> Forall is_digit_value ds -> cnpj_equations ds ->
     nth 12 ds 0 <> 0 \/ nth 13 ds 0 <> 0 ->
     (i < 14)%nat -> is_digit_value d -> d <> nth i ds 0 ->
     only_digits s = digits_string (set_nth i d ds) ->
     fst (validate_cnpj s) = false)
  /\ (validate_cnpj "71.046.563/4148-00" = (true, "CNPJ válido")
      /\ validate_cnpj "51.046.563/4148-00" = (true, "CNPJ válido")).
Proof.
  split; [| split; reflexivity].
  intros ds i d s L D [E1 E2] NZ Hi Hd Hne Hs.
  fold weight_1 in E1. fold weight_2 in E2.
  assert (L' : List.length (set_nth i d ds) = 14%nat) by now rewrite set_nth_length.
  rewrite (validate_cnpj_digits _ s L' (set_nth_Forall _ i d ds Hd D) Hs).
  destruct (str_in _ _); trivial.
  destruct (Nat.eq_dec i 12) as [-> | N12]; [| destruct (Nat.eq_dec i 13) as [-> | N13]].
  - rewrite nth_set_nth by lia. rewrite check_digit_1_set_nth by assumption.
    rewrite <- E1. apply Z.eqb_neq in Hne. now rewrite Hne.
  - destruct (negb (nth 12 _ 0 =? _)); trivial.
    rewrite nth_set_nth by lia. rewrite check_digit_2_set_nth by assumption.
    rewrite <- E2. apply Z.eqb_neq in Hne. now rewrite Hne.
  - assert (I : (i < 12)%nat) by lia.
    rewrite !nth_set_nth_other by assumption.
    assert (M1 : nth 12 ds 0 <> 0 ->
                 nth 12 ds 0 <> check_digit_lt2 weight_1 (set_nth i d ds)).
    { intros Z0 A. rewrite E1 in A at 1. symmetry in A. revert A.
      apply check_digit_moves; trivial; [apply weight_1_range | | congruence]; lia. }
    assert (M2 : nth 13 ds 0 <> 0 ->
                 nth 13 ds 0 <> check_digit_lt2 weight_2 (set_nth i d ds)).
    { intros Z0 A. rewrite E2 in A at 1. symmetry in A. revert A.
      apply check_digit_moves; trivial; [apply weight_2_range | | congruence]; lia. }
    destruct (Z.eqb_spec (nth 12 ds 0) (check_digit_lt2 weight_1 (set_nth i d ds)));
      cbn [negb]; trivial.
    destruct (Z.eqb_spec (nth 13 ds 0) (check_digit_lt2 weight_2 (set_nth i d ds)));
      cbn [negb]; trivial.
    exfalso. destruct NZ as [Z0 | Z0]; [now apply M1 | now apply M2].
Qed.

Lemma cnpj_substitution_detected_witness :
  fst (validate_cnpj "31.152.572/0003-46") = false.
Proof.
  apply (proj1 cnpj_substitution_detected cnpj_nobre 6%nat 7).
  - reflexivity.
  - repeat (apply Forall_cons; [unfold is_digit_value; lia |]). apply Forall_nil.
  - split; reflexivity.
  - left. discriminate.
  - lia.
  - unfold is_digit_value. lia.
  - discriminate.
  - reflexivity.
Defined.

(** X4.  In a CPF that satisfies the check-digit equations, replacing one
    digit by a different digit makes [validate_cpf] reject when the digit is
    one of the two check digits, when the first check digit is not 0, or
    when the second check digit is not 0 and the digit replaced is not the
    first of the eleven (whose weight in the second sum is 11).  The
    condition is needed: 223.149.888-09 and 323.149.888-09 are both
    accepted. *)
Theorem cpf_substitution_detected :
  (forall (ds : list Z) (i : nat) (d : Z) (s : string),
     List.length ds = 11%nat -> Forall is_digit_value ds -> cpf_equations ds ->
     (9 <= i)%nat \/ nth 9 ds 0 <> 0 \/ (nth 10 ds 0 <> 0 /\ i <> 0%nat) ->
     (i < 11)%nat -> is_digit_value d -> d <> nth i ds 0 ->
     only_digits s = digits_string (set_nth i d ds) ->
     fst (validate_cpf s) = false)
  /\ (validate_cpf "223.149.888-09" = (true, "CPF válido")
      /\ validate_cpf "323.149.888-09" = (true, "CPF válido")).
Proof.
  split; [| split; reflexivity].
  intros ds i d s L D [E1 E2] NZ Hi Hd Hne Hs.
  assert (L' : List.length (set_nth i d ds) = 11%nat) by now rewrite set_nth_length.
  rewrite (validate_cpf_digits _ s L' (set_nth_Forall _ i d ds Hd D) Hs).
  destruct (str_in _ _); trivial.
  destruct (Nat.eq_dec i 9) as [-> | N9]; [| destruct (Nat.eq_dec i 10) as [-> | N10]].
  - rewrite nth_set_nth by lia.
    replace (check_digit_lt2 cpf_weight_1 (set_nth 9 d ds))
      with (check_digit_lt2 cpf_weight_1 ds)
      by (clear -L; explicit_list ds L; reflexivity).
    rewrite <- E1. apply Z.eqb_neq in Hne. now rewrite Hne.
  - destruct (negb (nth 9 _ 0 =? _)); trivial.
    rewrite nth_set_nth by lia.
    replace (check_digit_lt2 cpf_weight_2 (set_nth 10 d ds))
      with (check_digit_lt2 cpf_weight_2 ds)
      by (clear -L; explicit_list ds L; reflexivity).
    rewrite <- E2. apply Z.eqb_neq in Hne. now rewrite Hne.
  - assert (I : (i < 9)%nat) by lia.
    rewrite !nth_set_nth_other by assumption.
    assert (M1 : nth 9 ds 0 <> 0 ->
                 nth 9 ds 0 <> check_digit_lt2 cpf_weight_1 (set_nth i d ds)).
    { intros Z0 A. rewrite E1 in A at 1. symmetry in A. revert A.
      apply check_digit_moves; trivial; [apply cpf_weight_1_range | | congruence]; lia. }
    assert (M2 : nth 10 ds 0 <> 0 -> i <> 0%nat ->
                 nth 10 ds 0 <> check_digit_lt2 cpf_weight_2 (set_nth i d ds)).
    { intros Z0 I0 A. rewrite E2 in A at 1. symmetry in A. revert A.
      apply check_digit_moves; trivial; [apply cpf_weight_2_range | | congruence]; lia. }
    destruct (Z.eqb_spec (nth 9 ds 0) (check_digit_lt2 cpf_weight_1 (set_nth i d ds)));
      cbn [negb]; trivial.
    destruct (Z.eqb_spec (nth 10 ds 0) (check_digit_lt2 cpf_weight_2 (set_nth i d ds)));
      cbn [negb]; trivial.
    exfalso. destruct NZ as [Z0 | [Z0 | [Z0 I0]]]; [lia | now apply M1 | now apply M2].
Qed.

Lemma cpf_substitution_detected_witness :
  fst (validate_cpf "520.278.128-29") = false.
Proof.
  apply (proj1 cpf_substitution_detected cpf_exemplo 2%nat 0).
  - reflexivity.
  - repeat (apply Forall_cons; [unfold is_digit_value; lia |]). apply Forall_nil.
  - split; reflexivity.
  - right. left. discriminate.
  - lia.
  - unfold is_digit_value. lia.
  - discriminate.
  - reflexivity.
Defined.

(** ** The access key, accepted and rejected *)

Lemma positional_sum_set_nth (g : nat -> Z) (ds : list Z) (j : nat) (d : Z) :
  (j < List.length ds)%nat ->
  forall n a,
    positional_sum g (set_nth j d ds) a n
    = positional_sum g ds a n
      + (if (a <=? j)%nat && (j <? a + n)%nat then g j * (d - nth j ds 0) else 0).
Proof.
  intros L. unfold positional_sum.
  induction n as [| n IH]; intros a; cbn [seq map fold_right].
  - replace ((a <=? j)%nat && (j <? a + 0)%nat) with false; [lia |].
    symmetry. apply andb_false_iff.
    destruct (Nat.leb_spec a j); [right; apply Nat.ltb_ge; lia | now left].
  - rewrite IH.
    destruct (Nat.eq_dec a j) as [-> | N].
    + rewrite nth_set_nth by assumption.
      replace ((S j <=? j)%nat && (j <? S j + n)%nat) with false
        by (symmetry; apply andb_false_iff; left; apply Nat.leb_gt; lia).
      replace ((j <=? j)%nat && (j <? j + S n)%nat) with true
        by (symmetry; apply andb_true_iff; split;
            [apply Nat.leb_le | apply Nat.ltb_lt]; lia).
      lia.
    + rewrite nth_set_nth_other by congruence.
      replace ((a <=? j)%nat && (j <? a + S n)%nat)
        with ((S a <=? j)%nat && (j <? S a + n)%nat); [lia |].
      destruct (Nat.leb_spec (S a) j), (Nat.leb_spec a j); try lia; cbn [andb]; trivial.
      destruct (Nat.ltb_spec j (S a + n)), (Nat.ltb_spec j (a + S n)); trivial; lia.
Qed.

Lemma cyclic_weight_range (j : nat) : 2 <= cyclic_weight j <= 10.
Proof.
  unfold cyclic_weight.
  pose proof (Nat.mod_upper_bound j 8). lia.
Qed.

(** What [validate_chave_acesso] computes on 44 digits. *)

Lemma validate_chave_acesso_digits (ds : list Z) (s : string) :
  List.length ds = 44%nat -> Forall is_digit_value ds ->
  only_digits s = digits_string ds ->
  validate_chave_acesso s =
    if negb (nth 43 ds 0 =? chave_check_digit ds) then
      (false,
       "Dígito verificador inválido (esperado: " ++ str_of_Z (chave_check_digit ds) ++ ")",
       chave_details (digits_string ds))
    else (true, "Chave de acesso válida", chave_details (digits_string ds)).
Proof.
  intros L D Hs.
  unfold validate_chave_acesso, chave_expected_dv.
  rewrite Hs, length_digits_string, L.
  change (negb (44 =? 44)%nat) with false. cbv iota.
  rewrite chave_sum_digits, digit_at_digits_string by assumption.
  reflexivity.
Qed.

Lemma chave_check_digit_moves (ds : list Z) (i : nat) (d : Z) :
  List.length ds = 44%nat -> (i < 43)%nat ->
  Forall is_digit_value ds -> is_digit_value d -> d <> nth i ds 0 ->
  chave_check_digit ds <> 0 ->
  chave_check_digit (set_nth i d ds) <> chave_check_digit ds.
Proof.
  intros L I D Hd N.
  unfold chave_check_digit. cbv zeta.
  fold (positional_sum (fun i => cyclic_weight (42 - i)) (set_nth i d ds) 0 43).
  fold (positional_sum (fun i => cyclic_weight (42 - i)) ds 0 43).
  rewrite positional_sum_set_nth by lia.
  replace ((0 <=? i)%nat && (i <? 0 + 43)%nat) with true
    by (symmetry; apply andb_true_iff; split; [reflexivity | apply Nat.ltb_lt; lia]).
  set (total := positional_sum _ ds 0 43).
  assert (K : (cyclic_weight (42 - i) * (d - nth i ds 0)) mod 11 <> 0).
  { apply weighted_change_mod11; [apply cyclic_weight_range | | lia].
    assert (is_digit_value (nth i ds 0)).
    { rewrite Forall_forall in D. apply D, nth_In. lia. }
    unfold is_digit_value in *. lia. }
  set (k := cyclic_weight (42 - i) * (d - nth i ds 0)) in *.
  destruct (Z.eqb_spec (total mod 11) 0), (Z.eqb_spec (total mod 11) 1);
    cbn [orb]; try congruence.
  intros _.
  destruct (Z.eqb_spec ((total + k) mod 11) 0), (Z.eqb_spec ((total + k) mod 11) 1);
    cbn [orb]; Z.div_mod_to_equations; lia.
Qed.

(** X5.  [validate_chave_acesso] accepts a string exactly when the digits
    it holds are 44 and the last is the modulo-11 check digit of the 43
    before it.  With another number of digits it returns no details; with
    44 digits it returns their decomposition whether or not it accepts, and
    when it rejects them its message names the check digit it expected. *)
Theorem validate_chave_acesso_accepts_iff (s : string) :
  let ds := digits_of s in
  (fst (fst (validate_chave_acesso s)) = true
   <-> List.length ds = 44%nat /\ nth 43 ds 0 = chave_check_digit ds)
  /\ (List.length ds <> 44%nat -> snd (validate_chave_acesso s) = [])
  /\ (List.length ds = 44%nat ->
      snd (validate_chave_acesso s) = chave_details (only_digits s)
      /\ (nth 43 ds 0 <> chave_check_digit ds ->
          snd (fst (validate_chave_acesso s))
          = "Dígito verificador inválido (esperado: "
              ++ str_of_Z (chave_check_digit ds) ++ ")")).
Proof.
  cbv zeta.
  destruct (only_digits_digits_of s) as [E D].
  destruct (Nat.eq_dec (List.length (digits_of s)) 44) as [L | L].
  - rewrite (validate_chave_acesso_digits _ s L D E), <- E.
    destruct (Z.eqb_spec (nth 43 (digits_of s) 0) (chave_check_digit (digits_of s)));
      cbn [negb fst snd]; repeat split; trivial; try tauto; try discriminate.
  - assert (R : validate_chave_acesso s
                = (false, "Chave deve ter 44 dígitos (encontrado: "
                            ++ str_of_nat (String.length (only_digits s)) ++ ")", [])).
    { unfold validate_chave_acesso. rewrite <- length_digits_of.
      apply Nat.eqb_neq in L. now rewrite L. }
    rewrite R. cbn [fst snd]. repeat split; trivial; try discriminate; try tauto.
Qed.

(** X6.  In an access key of 44 digits that ends in its check digit,
    replacing one digit by a different digit makes [validate_chave_acesso]
    reject when the digit replaced is the check digit or the check digit is
    not 0.  The condition is needed: two keys that end in 0 and differ in
    their 36th digit are both accepted. *)
Theorem chave_substitution_detected :
  (forall (ds : list Z) (i : nat) (d : Z) (s : string),
     List.length ds = 44%nat -> Forall is_digit_value ds ->
     nth 43 ds 0 = chave_check_digit ds ->
     i = 43%nat \/ nth 43 ds 0 <> 0 ->
     (i < 44)%nat -> is_digit_value d -> d <> nth i ds 0 ->
     only_digits s = digits_string (set_nth i d ds) ->
     fst (fst (validate_chave_acesso s)) = false)
  /\ (fst (fst (validate_chave_acesso "35250531152562000346550010000113341518190930"))
      = true
      /\ fst (fst (validate_chave_acesso "35250531152562000346550010000113341018190930"))
         = true).
Proof.
  split; [| split; reflexivity].
  intros ds i d s L D E NZ Hi Hd Hne Hs.
  assert (L' : List.length (set_nth i d ds) = 44%nat) by now rewrite set_nth_length.
  rewrite (validate_chave_acesso_digits _ s L' (set_nth_Forall _ i d ds Hd D) Hs).
  destruct (Nat.eq_dec i 43) as [-> | N].
  - rewrite nth_set_nth by lia.
    replace (chave_check_digit (set_nth 43 d ds)) with (chave_check_digit ds)
      by (clear -L; explicit_list ds L; reflexivity).
    rewrite <- E. apply Z.eqb_neq in Hne. now rewrite Hne.
  - rewrite nth_set_nth_other by assumption.
    destruct NZ as [-> | Z0]; [congruence |].
    assert (M : chave_check_digit (set_nth i d ds) <> chave_check_digit ds)
      by (apply chave_check_digit_moves; trivial; [lia | congruence]).
    rewrite E. apply not_eq_sym, Z.eqb_neq in M. now rewrite M.
Qed.

Lemma chave_substitution_detected_witness :
  fst (fst (validate_chave_acesso "35250531159562000346550010000113341000440803"))
  = false.
Proof.
  apply (proj1 chave_substitution_detected chave_nobre 10%nat 9).
  - reflexivity.
  - repeat (apply Forall_cons; [unfold is_digit_value; lia |]). apply Forall_nil.
  - reflexivity.
  - right. discriminate.
  - lia.
  - unfold is_digit_value. lia.
  - discriminate.
  - reflexivity.
Defined.

(** ** Fiscal codes *)

Lemma truthy_only_digits (s : string) :
  (if truthy s then only_digits s else "") = only_digits s.
Proof. now destruct s. Qed.

Lemma validate_cfop_direction (cfop : string) :
  match cfop_direction cfop with
  | Some t => exists natureza,
      validate_cfop cfop = (true, "CFOP válido", cfop_details t natureza)
  | None => fst (fst (validate_cfop cfop)) = false
  end.
Proof.
  unfold cfop_direction, validate_cfop. cbv zeta. rewrite truthy_only_digits.
  destruct (only_digits_digits_of cfop) as [E D]. rewrite E, length_digits_string.
  destruct (digits_of cfop) as [| a [| b [| c [| d [| x l]]]]]; try reflexivity.
  inversion D as [| ? ? Ha _]; subst.
  cbn [List.length Nat.eqb negb digits_string substring].
  each_digit Ha; cbn [Z.leb Z.compare andb]; vm_compute; eauto.
Qed.

(** X7.  [validate_ncm] accepts a string exactly when it holds eight
    digits.  [validate_cfop] accepts a string exactly when it holds four
    digits of which the first is 1, 2, 3, 5, 6 or 7, and then reports the
    operation type entrada for 1 to 3 and saida for 5 to 7. *)
Theorem fiscal_codes_accepted_iff (s : string) :
  (fst (validate_ncm s) = true <-> List.length (digits_of s) = 8%nat)
  /\ (fst (fst (validate_cfop s)) = true
      <-> List.length (digits_of s) = 4%nat
          /\ (1 <= nth 0 (digits_of s) 0 <= 3 \/ 5 <= nth 0 (digits_of s) 0 <= 7))
  /\ (fst (fst (validate_cfop s)) = true ->
      1 <= nth 0 (digits_of s) 0 <= 3 ->
      lookup "tipo_operacao" (snd (validate_cfop s)) = Some "entrada")
  /\ (fst (fst (validate_cfop s)) = true ->
      5 <= nth 0 (digits_of s) 0 <= 7 ->
      lookup "tipo_operacao" (snd (validate_cfop s)) = Some "saida").
Proof.
  split.
  { unfold validate_ncm. cbv zeta. rewrite truthy_only_digits, <- length_digits_of.
    destruct (Nat.eqb_spec (List.length (digits_of s)) 8); cbn [negb fst];
      split; trivial; try discriminate; contradiction. }
  pose proof (validate_cfop_direction s) as H. unfold cfop_direction in H.
  destruct (only_digits_digits_of s) as [_ D].
  destruct (digits_of s) as [| a [| b [| c [| d [| x l]]]]]; cbn [List.length nth];
    try (rewrite H; repeat split; try discriminate; intros [A _]; discriminate A).
  inversion D as [| ? ? Ha _]; subst.
  each_digit Ha; cbn [Z.leb Z.compare Pos.compare Pos.compare_cont andb] in H;
    lazymatch type of H with
    | _ = false => rewrite H
    | _ => destruct H as [natureza H]; rewrite H
    end;
    cbn [fst snd cfop_details lookup String.eqb Ascii.eqb Bool.eqb];
    repeat split; intros; trivial; try discriminate; try lia.
Qed.

(** ** The ICMS rate *)

Lemma lookup_In {A : Type} (k : string) (l : list (string * A)) (v : A) :
  lookup k l = Some v -> In v (map snd l).
Proof.
  induction l as [| [k' v'] l IH]; cbn [lookup map snd]; [discriminate |].
  destruct (String.eqb k k'); [intros H; injection H as <-; now left | right; auto].
Qed.

Lemma lookup_or_In {A : Type} (k : string) (l : list (string * A)) (d : A) :
  In d (map snd l) -> In (lookup_or k l d) (map snd l).
Proof.
  intros H. unfold lookup_or. destruct (lookup k l) eqn:E; trivial.
  eapply lookup_In, E.
Qed.

(** X8.  [get_icms_aliquota] answers 12.0 for every operation type other
    than 'interno', whatever the state; for 'interno' it answers a rate of
    the table [icms_interno], the default 18.0 when the state is not in the
    table.  Its answer always lies between 12.0 and 23.0, hence within the
    range of 7 to 25 outside which a declared rate is reported as unusual;
    the rate 7.0 of [outras_regioes] is never returned. *)
Theorem get_icms_aliquota_range (uf operacao_tipo : string) :
  (operacao_tipo <> "interno" -> get_icms_aliquota uf operacao_tipo = lit 120 (-1))
  /\ In (get_icms_aliquota uf "interno") (map snd icms_interno)
  /\ (lookup (upper uf) icms_interno = None ->
      get_icms_aliquota uf "interno" = lit 180 (-1))
  /\ F64.leb (lit 120 (-1)) (get_icms_aliquota uf operacao_tipo) = true
  /\ F64.leb (get_icms_aliquota uf operacao_tipo) (lit 230 (-1)) = true
  /\ F64.leb seven (get_icms_aliquota uf operacao_tipo)
     && F64.leb (get_icms_aliquota uf operacao_tipo) twenty_five = true.
Proof.
  assert (I : In (get_icms_aliquota uf "interno") (map snd icms_interno)).
  { unfold get_icms_aliquota. cbn [String.eqb Ascii.eqb Bool.eqb].
    apply lookup_or_In. vm_compute. tauto. }
  assert (O : operacao_tipo <> "interno" ->
              get_icms_aliquota uf operacao_tipo = lit 120 (-1)).
  { intros N. unfold get_icms_aliquota. apply String.eqb_neq in N. now rewrite N. }
  assert (B : forall x, In x (map snd icms_interno) \/ x = lit 120 (-1) ->
              F64.leb (lit 120 (-1)) x = true /\ F64.leb x (lit 230 (-1)) = true
              /\ F64.leb seven x && F64.leb x twenty_five = true).
  { intros x [H | ->]; [| now vm_compute].
    cbn [icms_interno map snd In] in H.
    repeat (destruct H as [<- | H]; [now vm_compute |]). destruct H. }
  assert (R : In (get_icms_aliquota uf operacao_tipo) (map snd icms_interno)
              \/ get_icms_aliquota uf operacao_tipo = lit 120 (-1)).
  { destruct (String.eqb_spec operacao_tipo "interno") as [-> | N]; auto. }
  destruct (B _ R) as (B1 & B2 & B3).
  repeat split; trivial.
  intros N. unfold get_icms_aliquota, lookup_or. cbn [String.eqb Ascii.eqb Bool.eqb].
  rewrite N. reflexivity.
Qed.

(** ** Inputs that are not a number *)

Lemma sub_nan_l (x : F64.t) : F64.sub S754_nan x = S754_nan.
Proof. now destruct x. Qed.

Lemma sub_nan_r (x : F64.t) : F64.sub x S754_nan = S754_nan.
Proof. now destruct x. Qed.

Lemma nan_not_greater (x : F64.t) : F64.gtb S754_nan x = false.
Proof. now destruct x as [| [] | | []]. Qed.

(** X9.  A NaN passes the arithmetic checks.  [validate_product_calculation]
    answers ok when the quantity or the unit price is NaN;
    [validate_tax_calculation] answers ok when the base is NaN, or the rate
    is NaN and the base is not zero; [validate_total_sum] answers ok when
    either total is NaN.  So a line of an invoice whose quantity or unit
    price is NaN never gets an arithmetic finding. *)
Theorem nan_passes_the_checks :
  (forall q u t desc tol,
     q = Some S754_nan \/ u = Some S754_nan ->
     exists details,
       validate_product_calculation q u t desc tol
       = Ok (true, fmt desc ++ ": Cálculo correto", details))
  /\ (forall b a v tipo tol,
        b = Some S754_nan \/ (a = Some S754_nan /\ F64.eqb (_safe_float b F64.zero) F64.zero = false) ->
        exists details,
          validate_tax_calculation b a v tipo tol
          = Ok (true, tipo ++ ": Cálculo correto", details))
  /\ (forall x y name tol,
        x = Some S754_nan \/ y = Some S754_nan ->
        exists details,
          validate_total_sum x y name tol = (true, name ++ ": Soma correta", details))
  /\ (forall self i p,
        quantidade p = Given S754_nan \/ valor_unitario p = Given S754_nan ->
        products_calculation_of self i p = Ok self).
Proof.
  assert (A : forall q u t desc tol,
     q = Some S754_nan \/ u = Some S754_nan ->
     exists details,
       validate_product_calculation q u t desc tol
       = Ok (true, fmt desc ++ ": Cálculo correto", details)).
  { intros q u t desc tol H. unfold validate_product_calculation. cbv zeta.
    assert (M : Dec.mul (Dec.of_float (_safe_float q F64.zero))
                  (Dec.of_float (_safe_float u F64.zero)) = Ok Dec.NaN).
    { destruct H as [-> | ->]; cbn [_safe_float Dec.of_float Dec.mul]; trivial.
      now destruct (Dec.of_float _). }
    rewrite M. cbn [bind Dec.round2 Dec.quantize Dec.to_float].
    rewrite sub_nan_l. cbn [F64.abs SFabs]. rewrite nan_not_greater. eauto. }
  split; [exact A | split; [| split]].
  - intros b a v tipo tol H. unfold validate_tax_calculation. cbv zeta.
    assert (Z0 : F64.eqb (_safe_float b F64.zero) F64.zero = false)
      by (destruct H as [-> | [_ H]]; [reflexivity | exact H]).
    rewrite Z0.
    assert (M : Dec.mul (Dec.of_float (_safe_float b F64.zero))
                  (Dec.of_float (_safe_float a F64.zero)) = Ok Dec.NaN).
    { destruct H as [-> | [-> _]]; cbn [_safe_float Dec.of_float Dec.mul]; trivial.
      now destruct (Dec.of_float _). }
    rewrite M. cbn [bind Dec.truediv Dec.round2 Dec.quantize Dec.to_float].
    rewrite sub_nan_l. cbn [F64.abs SFabs]. rewrite nan_not_greater. eauto.
  - intros x y name tol H. unfold validate_total_sum. cbv zeta.
    assert (S : F64.sub (_safe_float x F64.zero) (_safe_float y F64.zero) = S754_nan)
      by (destruct H as [-> | ->]; cbn [_safe_float]; [apply sub_nan_l | apply sub_nan_r]).
    rewrite S. cbn [F64.abs SFabs]. rewrite nan_not_greater. eauto.
  - intros self i p H. unfold products_calculation_of. cbv zeta.
    destruct (line_is_checked _ _ _); trivial.
    destruct (A (Some (_safe_float (get (quantidade p)) F64.zero))
                (Some (_safe_float (get (valor_unitario p)) F64.zero))
                (Some (_safe_float (get (valor_total p)) F64.zero))
                (get_or (descricao p) ("Produto " ++ str_of_nat (i + 1)))
                tolerance_default) as [details E].
    { destruct H as [-> | ->]; cbn [get _safe_float]; tauto. }
    rewrite E. reflexivity.
Qed.

Lemma nan_passes_the_checks_witness :
  exists details,
    validate_product_calculation (Some S754_nan) (Some (lit 5 0)) (Some (lit 7 0))
      (Some "Produto") tolerance_default
    = Ok (true, "Produto: Cálculo correto", details).
Proof.
  apply (proj1 nan_passes_the_checks (Some S754_nan) (Some (lit 5 0)) (Some (lit 7 0))
           (Some "Produto") tolerance_default).
  left. reflexivity.
Defined.

(** ** The exceptions of [validate_invoice] *)

Ltac raised :=
  repeat match goal with
         | H : Ok _ = Raise _ |- _ => discriminate H
         | H : Raise _ = Raise _ |- _ => inversion H; subst; clear H
         | H : bind ?m _ = Raise _ |- _ =>
             let E := fresh "E" in destruct m eqn:E; cbn [bind] in H
         | H : (match ?x with _ => _ end) = Raise _ |- _ =>
             destruct x eqn:?; cbv beta iota in H
         | H : (let _ := _ in _) = Raise _ |- _ => cbv zeta in H
         end.

Lemma section_raises {A : Type} (f : field A) (empty : A) (e : exn) :
  section f empty = Raise e -> f = Null /\ e = AttributeError.
Proof. destruct f; cbn [section]; intros H; try discriminate H. now injection H as <-. Qed.

Lemma listing_raises {A : Type} (f : field (list A)) (e : exn) :
  listing f = Raise e -> f = Null /\ e = TypeError.
Proof. destruct f; cbn [listing]; intros H; try discriminate H. now injection H as <-. Qed.

Lemma mul_raises (x y : Dec.t) (e : exn) :
  Dec.mul x y = Raise e -> e = InvalidOperation.
Proof.
  destruct x as [s c ex | s |], y as [s' c' ey | s' |]; cbn [Dec.mul];
    try discriminate;
    match goal with |- context [?c =? 0] => destruct (c =? 0) end;
    intros H; try discriminate H; now injection H as <-.
Qed.

Lemma quantize_raises (r : Dec.rounding) (x : Dec.t) (qe : Z) (e : exn) :
  Dec.quantize r x qe = Raise e -> e = InvalidOperation.
Proof.
  destruct x as [s c ex | s |]; cbn [Dec.quantize]; try discriminate.
  - repeat match goal with
           | |- context [if ?b then _ else _] => destruct b
           end; intros H; try discriminate H; now injection H as <-.
  - intros H. now injection H as <-.
Qed.

Lemma truediv_hundred_returns (x : Dec.t) :
  exists q, Dec.truediv x Dec.hundred = Ok q.
Proof.
  destruct x as [s c ex | s |]; cbn [Dec.truediv Dec.hundred Z.eqb]; eauto.
  cbv zeta.
  repeat match goal with
         | |- context [if ?b then _ else _] => destruct b
         | |- context [let '(_, _) := ?p in _] => destruct p
         end; eauto.
Qed.

Lemma validate_product_calculation_raises q u t desc tol e :
  validate_product_calculation q u t desc tol = Raise e -> e = InvalidOperation.
Proof.
  unfold validate_product_calculation. intros H. cbv zeta in H.
  destruct (Dec.mul _ _) as [p |] eqn:E1; cbn [bind] in H;
    [| injection H as <-; eapply mul_raises, E1].
  destruct (Dec.round2 p) as [x |] eqn:E2; cbn [bind] in H;
    [| injection H as <-; eapply quantize_raises, E2].
  destruct (F64.gtb _ _); discriminate H.
Qed.

Lemma validate_product_calculation_details q u t desc tol ok msg details :
  validate_product_calculation q u t desc tol = Ok (ok, msg, details) ->
  exists x, item_float details "valor_calculado" = Ok x.
Proof.
  unfold validate_product_calculation. intros H. cbv zeta in H.
  destruct (Dec.mul _ _) as [p |]; cbn [bind] in H; [| discriminate].
  destruct (Dec.round2 p) as [x |]; cbn [bind] in H; [| discriminate].
  destruct (F64.gtb _ _); injection H as _ _ <-; eexists; reflexivity.
Qed.

Lemma validate_tax_calculation_raises b a v tipo tol e :
  validate_tax_calculation b a v tipo tol = Raise e -> e = InvalidOperation.
Proof.
  unfold validate_tax_calculation. intros H. cbv zeta in H.
  destruct (F64.eqb _ F64.zero); [destruct (F64.eqb _ F64.zero); discriminate H |].
  destruct (Dec.mul _ _) as [p |] eqn:E1; cbn [bind] in H;
    [| injection H as <-; eapply mul_raises, E1].
  destruct (truediv_hundred_returns p) as [q E2]. rewrite E2 in H. cbn [bind] in H.
  destruct (Dec.round2 q) as [x |] eqn:E3; cbn [bind] in H;
    [| injection H as <-; eapply quantize_raises, E3].
  destruct (F64.gtb _ _); discriminate H.
Qed.

Lemma positive_not_zero (x : F64.t) :
  F64.gtb x F64.zero = true -> F64.eqb x F64.zero = false.
Proof.
  destruct x as [s | [] | | [] m e]; intros H; vm_compute in H |- *;
    try discriminate H; trivial.
Qed.

(** Past the guard [base > 0] the details hold the computed value. *)
Lemma validate_tax_calculation_details b a v tipo tol ok msg details :
  F64.gtb b F64.zero = true ->
  validate_tax_calculation (Some b) a v tipo tol = Ok (ok, msg, details) ->
  exists x, item_float details "valor_calculado" = Ok x.
Proof.
  unfold validate_tax_calculation. intros P H. cbv zeta in H.
  cbn [_safe_float] in H. rewrite (positive_not_zero b P) in H.
  destruct (Dec.mul _ _) as [p |]; cbn [bind] in H; [| discriminate].
  destruct (Dec.truediv p _) as [q |]; cbn [bind] in H; [| discriminate].
  destruct (Dec.round2 q) as [x |]; cbn [bind] in H; [| discriminate].
  destruct (F64.gtb _ tol); injection H as _ _ <-; eexists; reflexivity.
Qed.

Lemma _validate_documents_raises self inv e :
  _validate_documents self inv = Raise e ->
  e = AttributeError
  /\ (emitente inv = Null \/ destinatario inv = Null \/ identificacao inv = Null).
Proof.
  unfold _validate_documents. intros H.
  destruct (section (emitente inv) no_emitente) eqn:E1; cbn [bind] in H;
    [| injection H as <-; apply section_raises in E1; tauto].
  cbv zeta in H.
  destruct (section (destinatario inv) no_destinatario) eqn:E2; cbn [bind] in H;
    [| injection H as <-; apply section_raises in E2; tauto].
  destruct (section (identificacao inv) no_identificacao) eqn:E3; cbn [bind] in H;
    [| injection H as <-; apply section_raises in E3; tauto].
  raised.
Qed.

Lemma _validate_fiscal_codes_raises self inv e :
  _validate_fiscal_codes self inv = Raise e -> e = TypeError /\ produtos inv = Null.
Proof.
  unfold _validate_fiscal_codes. intros H.
  destruct (listing (produtos inv)) eqn:E; cbn [bind] in H; [discriminate |].
  injection H as <-. apply listing_raises in E. tauto.
Qed.

Lemma products_calculation_of_raises self i p e :
  products_calculation_of self i p = Raise e -> e = InvalidOperation.
Proof.
  unfold products_calculation_of. intros H. cbv zeta in H.
  destruct (line_is_checked _ _ _); [| discriminate].
  destruct (validate_product_calculation _ _ _ _ _) as [[[ok msg] details] |] eqn:E;
    cbn [bind] in H; [| injection H as <-; eapply validate_product_calculation_raises, E].
  destruct (validate_product_calculation_details _ _ _ _ _ _ _ _ E) as [x Ex].
  rewrite Ex in H. cbn [bind] in H. destruct (negb ok); discriminate.
Qed.

Lemma products_calculations_loop_raises l :
  forall self i e,
    products_calculations_loop self i l = Raise e -> e = InvalidOperation.
Proof.
  induction l as [| p l IH]; intros self i e H; cbn [products_calculations_loop] in H;
    [discriminate |].
  destruct (products_calculation_of self i p) eqn:E; cbn [bind] in H.
  - eapply IH, H.
  - injection H as <-. eapply products_calculation_of_raises, E.
Qed.

Lemma _validate_products_calculations_raises self inv e :
  _validate_products_calculations self inv = Raise e ->
  (e = TypeError /\ produtos inv = Null) \/ e = InvalidOperation.
Proof.
  unfold _validate_products_calculations. intros H.
  destruct (listing (produtos inv)) eqn:E; cbn [bind] in H.
  - right. eapply products_calculations_loop_raises, H.
  - injection H as <-. apply listing_raises in E. tauto.
Qed.

Lemma contribution_check_raises self b v a p acc n p1 p2 h1 es h2 e :
  contribution_check self b v a p acc n p1 p2 h1 es h2 = Raise e ->
  e = InvalidOperation.
Proof.
  unfold contribution_check. intros H.
  destruct (F64.gtb b F64.zero) eqn:P; cbn [andb] in H; [| discriminate].
  destruct (F64.gtb v F64.zero); [| discriminate]. cbv zeta in H.
  destruct (validate_tax_calculation _ _ _ _ _) as [[[ok msg] details] |] eqn:E;
    cbn [bind] in H; [| injection H as <-; eapply validate_tax_calculation_raises, E].
  destruct (validate_tax_calculation_details _ _ _ _ _ _ _ _ P E) as [x Ex].
  rewrite Ex in H. cbn [bind] in H.
  destruct (negb ok); cbn [bind] in H; destruct (negb _); discriminate.
Qed.

Lemma _validate_tax_calculations_raises self inv e :
  _validate_tax_calculations self inv = Raise e ->
  (e = AttributeError
   /\ (totais inv = Null \/ emitente inv = Null
       \/ exists em, emitente inv = Given em /\ emit_uf em = Null))
  \/ e = InvalidOperation.
Proof.
  unfold _validate_tax_calculations. intros H.
  destruct (section (totais inv) no_totais) as [t |] eqn:E1; cbn [bind] in H;
    [| injection H as <-; apply section_raises in E1; tauto].
  destruct (section (emitente inv) no_emitente) as [em |] eqn:E2; cbn [bind] in H;
    [| injection H as <-; apply section_raises in E2; tauto].
  destruct (get_or (emit_uf em) "") as [uf |] eqn:E3; cbn [bind] in H.
  - right. cbv zeta in H.
    match type of H with
    | bind ?m _ = _ => destruct m as [mid |] eqn:E4; cbn [bind] in H
    end.
    + match type of H with
      | bind ?m _ = _ => destruct m as [mid' |] eqn:E5; cbn [bind] in H
      end; [eapply contribution_check_raises, H |].
      injection H as <-. eapply contribution_check_raises, E5.
    + injection H as <-.
      destruct (F64.gtb (_safe_float (get (base_calculo_icms t)) F64.zero) F64.zero)
        eqn:P; cbn [andb] in E4; [| discriminate].
      destruct (F64.gtb (_safe_float (get (valor_icms t)) F64.zero) F64.zero);
        [| discriminate].
      destruct (F64.gtb (_safe_float (get (aliquota_icms t)) F64.zero) F64.zero).
      * destruct (validate_tax_calculation _ _ _ _ _) as [[[ok msg] details] |] eqn:E;
          cbn [bind] in E4;
          [| injection E4 as <-; eapply validate_tax_calculation_raises, E].
        destruct (validate_tax_calculation_details _ _ _ _ _ _ _ _ P E) as [x Ex].
        rewrite Ex in E4. cbn [bind] in E4.
        destruct (negb ok); cbn [bind] in E4; destruct (negb _); discriminate.
      * destruct (validate_tax_calculation _ _ _ _ _) as [[[ok msg] details] |] eqn:E;
          cbn [bind] in E4;
          [| injection E4 as <-; eapply validate_tax_calculation_raises, E].
        destruct (validate_tax_calculation_details _ _ _ _ _ _ _ _ P E) as [x Ex].
        rewrite Ex in E4. cbn [bind] in E4.
        destruct (negb ok); discriminate.
  - injection H as <-. left. split; trivial.
    destruct (emitente inv) as [| | em'] eqn:Em; cbn [section] in E2;
      try discriminate E2.
    + injection E2 as <-. discriminate E3.
    + injection E2 as <-. right. right. exists em'. split; trivial.
      destruct (emit_uf em'); cbn [get_or] in E3; try discriminate E3. reflexivity.
Qed.

Lemma _validate_totals_raises self inv e :
  _validate_totals self inv = Raise e ->
  (e = TypeError /\ produtos inv = Null) \/ (e = AttributeError /\ totais inv = Null).
Proof.
  unfold _validate_totals. intros H.
  destruct (listing (produtos inv)) eqn:E1; cbn [bind] in H;
    [| injection H as <-; apply listing_raises in E1; tauto].
  cbv zeta in H.
  destruct (section (totais inv) no_totais) eqn:E2; cbn [bind] in H;
    [| injection H as <-; apply section_raises in E2; tauto].
  raised.
Qed.

Lemma _validate_consistency_raises self inv e :
  _validate_consistency self inv = Raise e ->
  (e = AttributeError /\ identificacao inv = Null)
  \/ (e = TypeError /\ produtos inv = Null).
Proof.
  unfold _validate_consistency. intros H.
  destruct (section (identificacao inv) no_identificacao) eqn:E1; cbn [bind] in H;
    [| injection H as <-; apply section_raises in E1; tauto].
  destruct (get _); [| discriminate]. cbv zeta in H.
  destruct (listing (produtos inv)) eqn:E2; cbn [bind] in H; [discriminate |].
  injection H as <-. apply listing_raises in E2. tauto.
Qed.

Lemma validated_raises (inv : Invoice) (e : exn) :
  validated inv = Raise e ->
  e = InvalidOperation
  \/ (holds_none inv /\ (e = AttributeError \/ e = TypeError)).
Proof.
  unfold validated, holds_none. intros H. cbv zeta in H.
  destruct (_validate_documents _ inv) eqn:E1; cbn [bind] in H;
    [| injection H as <-; apply _validate_documents_raises in E1; tauto].
  destruct (_validate_fiscal_codes _ inv) eqn:E2; cbn [bind] in H;
    [| injection H as <-; apply _validate_fiscal_codes_raises in E2; tauto].
  destruct (_validate_products_calculations _ inv) eqn:E3; cbn [bind] in H;
    [| injection H as <-; apply _validate_products_calculations_raises in E3; tauto].
  destruct (_validate_tax_calculations _ inv) eqn:E4; cbn [bind] in H;
    [| injection H as <-; apply _validate_tax_calculations_raises in E4; tauto].
  destruct (_validate_totals _ inv) eqn:E5; cbn [bind] in H;
    [| injection H as <-; apply _validate_totals_raises in E5; tauto].
  apply _validate_consistency_raises in H. tauto.
Qed.

Lemma _validate_documents_of_none self inv :
  emitente inv = Null \/ destinatario inv = Null \/ identificacao inv = Null ->
  _validate_documents self inv = Raise AttributeError.
Proof.
  unfold _validate_documents. intros [H | [H | H]]; rewrite H; cbn [section bind].
  - reflexivity.
  - destruct (emitente inv); reflexivity.
  - destruct (emitente inv); cbn [section bind]; trivial;
      destruct (destinatario inv); reflexivity.
Qed.

Lemma _validate_tax_calculations_of_none self inv :
  (totais inv = Null \/ exists em, emitente inv = Given em /\ emit_uf em = Null) ->
  _validate_tax_calculations self inv = Raise AttributeError.
Proof.
  unfold _validate_tax_calculations. intros [H | (em & H & U)]; rewrite H; cbn [section bind].
  - reflexivity.
  - destruct (totais inv); cbn [section bind]; trivial; rewrite U; reflexivity.
Qed.

(** X10.  [validate_invoice] raises nothing but AttributeError, TypeError
    and decimal.InvalidOperation: the first two only for an invoice in which
    a section, or the key [uf] of the issuer, holds None.  In particular it
    never raises KeyError: [details['valor_calculado']] is read only from
    details that hold the key.  Conversely an invoice whose [emitente],
    [destinatario] or [identificacao] holds None makes it raise
    AttributeError, and no invoice in which a section holds None gets a
    report. *)
Theorem validate_invoice_exceptions (self : FiscalValidator) (now : string) (inv : Invoice) :
  (forall e,
     validate_invoice self now inv = Raise e ->
     e = InvalidOperation
     \/ (holds_none inv /\ (e = AttributeError \/ e = TypeError)))
  /\ (emitente inv = Null \/ destinatario inv = Null \/ identificacao inv = Null ->
      validate_invoice self now inv = Raise AttributeError)
  /\ (holds_none inv -> exists e, validate_invoice self now inv = Raise e).
Proof.
  rewrite validate_invoice_validated. split; [| split].
  - intros e H. apply validated_raises.
    destruct (validated inv); cbn [bind] in H; [discriminate | congruence].
  - intros H. unfold validated.
    now rewrite (_validate_documents_of_none _ inv H).
  - intros H. unfold validated. cbv zeta.
    assert (G : forall m : result FiscalValidator,
              (forall s, m <> Ok s) ->
              forall k : FiscalValidator -> result (value * FiscalValidator),
              exists e, bind m k = Raise e).
    { intros [s | e] N k; [now destruct (N s) | now exists e]. }
    destruct (_validate_documents _ inv) as [s1 |] eqn:E1; cbn [bind]; [| eauto].
    destruct (_validate_fiscal_codes s1 inv) as [s2 |] eqn:E2; cbn [bind]; [| eauto].
    destruct (_validate_products_calculations s2 inv) as [s3 |] eqn:E3; cbn [bind];
      [| eauto].
    destruct H as [H | [H | [H | [H | H]]]].
    + rewrite _validate_documents_of_none in E1 by tauto. discriminate.
    + rewrite _validate_documents_of_none in E1 by tauto. discriminate.
    + rewrite _validate_documents_of_none in E1 by tauto. discriminate.
    + unfold _validate_fiscal_codes in E2. rewrite H in E2. discriminate.
    + rewrite (_validate_tax_calculations_of_none s3 inv H). cbn [bind]. eauto.
Qed.

Lemma validate_invoice_exceptions_witness :
  validate_invoice fresh_validator "2025-05-09T12:00:00" nota_sem_emitente
  = Raise AttributeError.
Proof.
  apply (proj1 (proj2 (validate_invoice_exceptions fresh_validator
                         "2025-05-09T12:00:00" nota_sem_emitente))).
  left. reflexivity.
Defined.

(** ** Findings and verdict *)

Lemma no_findings_iff (final : FiscalValidator) (now : string) :
  Forall is_error (errors final) -> Forall is_warning (warnings final) ->
  let r := _compile_validation_result final now in
  let n := Z.of_nat (List.length (errors final)) in
  let w := Z.of_nat (List.length (warnings final)) in
  (exists c e,
     geral r "total_erros_criticos" = Some (VInt c)
     /\ geral r "total_erros" = Some (VInt e)
     /\ geral r "total_avisos" = Some (VInt w)
     /\ 0 <= c /\ 0 <= e /\ c + e = n)
  /\ (geral r "status" = Some (VStr "valido") <-> n = 0 /\ w = 0)
  /\ (geral r "score_conformidade" = Some (VInt 100) <-> n = 0 /\ w = 0)
  /\ (geral r "apto_para_processamento" = Some (VBool true) <-> n = 0).
Proof.
  intros HE HW. cbv zeta.
  destruct (counts_of_errors _ HE) as (A1 & A2 & A3 & A4).
  pose proof (count_of_nonneg "critico" (errors final)) as N1.
  pose proof (count_of_nonneg "erro" (errors final)) as N2.
  assert (T : count_of "critico" (errors final) + count_of "erro" (errors final)
              = Z.of_nat (List.length (errors final))).
  { clear -HE. induction HE as [| x l Hx _ IH]; [reflexivity |].
    rewrite !count_of_cons. cbn [List.length]. rewrite Nat2Z.inj_succ.
    destruct Hx as [-> | ->]; cbn [String.eqb Ascii.eqb Bool.eqb]; lia. }
  destruct (geral_compile final now) as (G1 & G2 & G3 & G4 & G5 & G6).
  rewrite G1, G2, G3, G4, G5, G6, A1, A2, A3. clear G1 G2 G3 G4 G5 G6.
  set (tc := count_of "critico" (errors final)) in *.
  set (er := count_of "erro" (errors final)) in *.
  set (w := Z.of_nat (List.length (warnings final))).
  assert (W : 0 <= w) by (unfold w; lia).
  split; [exists tc, (tc + er - tc); repeat split; try lia; do 2 f_equal; lia |].
  assert (S : forall x y : Z, Some (VInt x) = Some (VInt y) <-> x = y)
    by (split; [intros H; now injection H | now intros ->]).
  rewrite S.
  repeat match goal with
         | |- context [?a <? ?b] => destruct (Z.ltb_spec a b)
         end; cbn [fst snd];
    (split; [| split]); split; try discriminate; try lia;
    try (intros; exfalso; lia); try reflexivity.
Qed.

Lemma length_zero_iff {A : Type} (l : list A) : Z.of_nat (List.length l) = 0 <-> l = [].
Proof. destruct l; cbn [List.length]; split; intros H; try reflexivity; try discriminate; lia. Qed.

(** X11.  A report of [validate_invoice] lists the findings the instance is
    left with, the errors before the warnings; the errors are critical or
    of severity erro and the warnings of severity aviso.  The three counts
    of the report add up to the number of findings listed.  The status is
    valido exactly when no finding is listed, which is also when the score
    is 100; and the invoice is fit for processing exactly when the instance
    holds no error. *)
Theorem validate_invoice_findings
    (self self' : FiscalValidator) (now : string) (inv : Invoice) (r : value) :
  validate_invoice self now inv = Ok (r, self') ->
  problemas r = (map to_dict (errors self') ++ map to_dict (warnings self'))%list
  /\ Forall is_error (errors self') /\ Forall is_warning (warnings self')
  /\ (exists c e w,
        geral r "total_erros_criticos" = Some (VInt c)
        /\ geral r "total_erros" = Some (VInt e)
        /\ geral r "total_avisos" = Some (VInt w)
        /\ c + e = Z.of_nat (List.length (errors self'))
        /\ w = Z.of_nat (List.length (warnings self'))
        /\ c + e + w = Z.of_nat (List.length (problemas r)))
  /\ (geral r "status" = Some (VStr "valido") <-> problemas r = [])
  /\ (geral r "score_conformidade" = Some (VInt 100) <-> problemas r = [])
  /\ (geral r "apto_para_processamento" = Some (VBool true) <-> errors self' = []).
Proof.
  intros H. rewrite validate_invoice_validated in H.
  destruct (validated inv) as [final |] eqn:V; cbn [bind] in H; [| discriminate].
  injection H as <- <-.
  destruct (validated_severities _ _ V) as [HE HW].
  destruct (no_findings_iff final now HE HW) as ((c & e & G1 & G2 & G3 & _ & _ & T) & S1 & S2 & S3).
  assert (P : problemas (_compile_validation_result final now)
              = (map to_dict (errors final) ++ map to_dict (warnings final))%list)
    by reflexivity.
  assert (N : problemas (_compile_validation_result final now) = []
              <-> Z.of_nat (List.length (errors final)) = 0
                  /\ Z.of_nat (List.length (warnings final)) = 0).
  { rewrite P, !length_zero_iff. split.
    - intros A. apply app_eq_nil in A. destruct A as [A B].
      apply map_eq_nil in A, B. now split.
    - now intros [-> ->]. }
  split; [exact P |]. split; [exact HE |]. split; [exact HW |].
  split; [| split; [| split]].
  - exists c, e, (Z.of_nat (List.length (warnings final))).
    repeat split; trivial. rewrite P, length_app, !length_map. lia.
  - now rewrite S1, N.
  - now rewrite S2, N.
  - now rewrite S3, length_zero_iff.
Qed.

Lemma validate_invoice_findings_witness :
  exists r self',
    validate_invoice fresh_validator "2025-05-09T12:00:00" exemplo_nf_com_none
    = Ok (r, self')
    /\ problemas r = (map to_dict (errors self') ++ map to_dict (warnings self'))%list
    /\ List.length (problemas r) = 3%nat.
Proof.
  destruct (validate_invoice fresh_validator "2025-05-09T12:00:00" exemplo_nf_com_none)
    as [[r final] |] eqn:E; [| vm_compute in E; discriminate E].
  exists r, final. split; [reflexivity |]. split.
  - exact (proj1 (validate_invoice_findings fresh_validator final _ _ r E)).
  - vm_compute in E. injection E as <- _. reflexivity.
Defined.

(** ** A report without findings *)

Ltac cases_of H :=
  repeat match type of H with
         | context [match ?x with _ => _ end] => destruct x eqn:?
         end.

Ltac longer H :=
  exfalso; apply (f_equal (@List.length _)) in H;
  cbn [errors warnings append_error append_warning] in H;
  rewrite ?length_app in H; cbn [List.length] in H; lia.

Lemma given_of_section {A : Type} (f : field A) (empty a : A) :
  section f empty = Ok a -> f = Given a \/ (f = Missing /\ a = empty).
Proof. destruct f; cbn [section]; intros H; try discriminate H; injection H as <-; auto. Qed.

Lemma given_of_get {A : Type} (f : field A) (a : A) : get f = Some a -> f = Given a.
Proof. destruct f; cbn [get]; intros H; try discriminate H. now injection H as <-. Qed.

Lemma _validate_documents_quiet self self' inv :
  _validate_documents self inv = Ok self' ->
  errors self' = errors self -> warnings self' = warnings self ->
  (exists ident chave,
     identificacao inv = Given ident /\ chave_acesso ident = Given chave
     /\ (chave = "" \/ fst (fst (validate_chave_acesso chave)) = true))
  /\ (forall em c, emitente inv = Given em -> emit_cnpj em = Given c ->
        c = "" \/ fst (validate_cnpj c) = true).
Proof.
  unfold _validate_documents. intros H E W.
  destruct (section (emitente inv) no_emitente) as [em |] eqn:S1; cbn [bind] in H;
    [| discriminate].
  cbv zeta in H.
  destruct (section (destinatario inv) no_destinatario) as [de |] eqn:S2;
    cbn [bind] in H; [| discriminate].
  destruct (section (identificacao inv) no_identificacao) as [ident |] eqn:S3;
    cbn [bind] in H; [| discriminate].
  match type of H with
  | context [match get (chave_acesso ident) with
             | Some _ => _
             | None => Ok (append_warning ?X _) end] =>
      assert (WX : warnings X = warnings self) by (cases_of_goal; reflexivity);
      assert (EX : exists es, errors X = (errors self ++ es)%list)
        by (cases_of_goal; cbn [errors append_error];
            rewrite <- ?app_assoc; eauto; exists []; now rewrite app_nil_r);
      assert (CX : errors X = errors self ->
                   forall c, get (emit_cnpj em) = Some c ->
                             c = "" \/ fst (validate_cnpj c) = true);
      [| set (x := X) in * ]
  end.
  { intros EX' c Hc. rewrite Hc in EX'.
    destruct c as [| a c']; [now left | right]. cbn [truthy] in EX'.
    destruct (validate_cnpj (String a c')) as [[] msg]; trivial.
    cbn [negb] in EX'. cases_of EX'; longer EX'. }
  destruct EX as [es EX].
  assert (L : (List.length (errors self) <= List.length (errors x))%nat)
    by (rewrite EX, length_app; lia).
  destruct (get (chave_acesso ident)) as [chave |] eqn:C.
  - assert (EQ : errors x = errors self
                 /\ (chave = "" \/ fst (fst (validate_chave_acesso chave)) = true)).
    { destruct chave as [| a c']; cbn [truthy] in H.
      - injection H as <-. auto.
      - destruct (validate_chave_acesso (String a c')) as [[[] msg] details];
          cbn [negb] in H; injection H as <-; [auto |].
        exfalso. cbn [errors append_error] in E.
        apply (f_equal (@List.length _)) in E. rewrite length_app in E.
        cbn [List.length] in E. lia. }
    destruct EQ as [EQ V]. split.
    + apply given_of_get in C.
      destruct (given_of_section _ _ _ S3) as [G | [_ ->]]; [| discriminate C].
      eauto.
    + intros em' c G Hc.
      destruct (given_of_section _ _ _ S1) as [G' | [G' _]]; rewrite G in G';
        [| discriminate G'].
      injection G' as ->. apply (CX EQ). now rewrite Hc.
  - injection H as <-. cbn [warnings append_warning] in W. rewrite WX in W.
    longer W.
Qed.

Lemma extends_quiet (P Q : ValidationError -> Prop) (a b c : FiscalValidator) :
  extends P Q a b -> extends P Q b c ->
  errors c = errors a -> warnings c = warnings a ->
  (errors b = errors a /\ warnings b = warnings a)
  /\ (errors c = errors b /\ warnings c = warnings b).
Proof.
  intros (es & ws & E & W & _) (es' & ws' & E' & W' & _) EC WC.
  rewrite E' in EC. rewrite W' in WC. rewrite E in EC. rewrite W in WC.
  rewrite <- app_assoc in EC, WC.
  rewrite <- (app_nil_r (errors a)) in EC at 2.
  rewrite <- (app_nil_r (warnings a)) in WC at 2.
  apply app_inv_head in EC, WC.
  apply app_eq_nil in EC, WC. destruct EC as [-> ->], WC as [-> ->].
  rewrite E', W', E, W, !app_nil_r. auto.
Qed.

Lemma fiscal_codes_of_quiet self i p :
  errors (fiscal_codes_of self i p) = errors self ->
  warnings (fiscal_codes_of self i p) = warnings self ->
  exists n c,
    ncm p = Given n /\ (n = "" \/ fst (validate_ncm n) = true)
    /\ cfop p = Given c /\ (c = "" \/ fst (fst (validate_cfop c)) = true).
Proof.
  unfold fiscal_codes_of. cbv zeta. intros E W.
  destruct (get (ncm p)) as [n |] eqn:N; [| cases_of W; longer W].
  destruct (get (cfop p)) as [c |] eqn:C; [| cases_of W; longer W].
  apply given_of_get in N, C. exists n, c. repeat split; trivial.
  - destruct n as [| a n']; [now left | right]. cbn [truthy] in W.
    destruct (validate_ncm (String a n')) as [[] msg]; trivial.
    cbn [negb] in W. cases_of W; longer W.
  - destruct c as [| a c']; [now left | right]. cbn [truthy] in E.
    destruct (validate_cfop (String a c')) as [[[] msg] details]; trivial.
    cbn [negb] in E. cases_of E; longer E.
Qed.

Lemma fiscal_codes_loop_quiet l :
  forall self i,
    errors (fiscal_codes_loop self i l) = errors self ->
    warnings (fiscal_codes_loop self i l) = warnings self ->
    forall p, In p l ->
      exists n c,
        ncm p = Given n /\ (n = "" \/ fst (validate_ncm n) = true)
        /\ cfop p = Given c /\ (c = "" \/ fst (fst (validate_cfop c)) = true).
Proof.
  induction l as [| q l IH]; intros self i E W p Hp; [destruct Hp |].
  destruct Hp as [<- | Hp]; cbn [fiscal_codes_loop] in E, W;
    destruct (extends_quiet _ _ _ _ _ (fiscal_codes_of_extends self i q)
                (fiscal_codes_loop_extends l _ (S i)) E W) as [[E1 W1] [E2 W2]].
  - now apply (fiscal_codes_of_quiet self i).
  - now apply (IH (fiscal_codes_of self i q) (S i)).
Qed.

Lemma _validate_totals_quiet self self' inv l :
  _validate_totals self inv = Ok self' -> warnings self' = warnings self ->
  produtos inv = Given l -> l <> [] ->
  exists t v, totais inv = Given t /\ valor_produtos t = Given v.
Proof.
  unfold _validate_totals. intros H W P N. rewrite P in H. cbn [listing bind] in H.
  cbv zeta in H.
  destruct (section (totais inv) no_totais) as [t |] eqn:S; cbn [bind] in H;
    [| discriminate].
  destruct l as [| p l]; [congruence |]. cbn [List.length Nat.ltb Nat.leb andb] in H.
  rewrite andb_true_r in H.
  destruct (valor_produtos t) as [| | v] eqn:V; cbn [is_none] in H.
  - injection H as <-. cbn [warnings append_warning] in W. cases_of W; longer W.
  - injection H as <-. cbn [warnings append_warning] in W. cases_of W; longer W.
  - destruct (given_of_section _ _ _ S) as [G | [_ ->]]; [eauto | discriminate V].
Qed.

Lemma _validate_consistency_quiet self self' inv :
  _validate_consistency self inv = Ok self' -> warnings self' = warnings self ->
  exists ident t, identificacao inv = Given ident /\ tipo_operacao ident = Given t.
Proof.
  unfold _validate_consistency. intros H W.
  destruct (section (identificacao inv) no_identificacao) as [ident |] eqn:S;
    cbn [bind] in H; [| discriminate].
  destruct (get (tipo_operacao ident)) as [t |] eqn:T.
  - apply given_of_get in T.
    destruct (given_of_section _ _ _ S) as [G | [_ ->]]; [eauto | discriminate T].
  - injection H as <-. longer W.
Qed.

Lemma extends_to_nothing (P Q : ValidationError -> Prop) (a b : FiscalValidator) :
  extends P Q a b -> errors b = [] -> warnings b = [] ->
  errors a = [] /\ warnings a = [].
Proof.
  intros (es & ws & E & W & _) EB WB. rewrite E in EB. rewrite W in WB.
  apply app_eq_nil in EB, WB. tauto.
Qed.

(** X12.  When [validate_invoice] reports the status valido, the invoice
    gives its access key and its operation type, and the key is the empty
    string or one [validate_chave_acesso] accepts; the CNPJ of the issuer,
    when given, is empty or accepted by [validate_cnpj]; every product gives
    an NCM and a CFOP, each empty or accepted by its validator; and an
    invoice with products gives [totais.valor_produtos]. *)
Theorem valido_means_complete
    (self self' : FiscalValidator) (now : string) (inv : Invoice) (r : value) :
  validate_invoice self now inv = Ok (r, self') ->
  geral r "status" = Some (VStr "valido") ->
  (exists ident chave t,
     identificacao inv = Given ident
     /\ chave_acesso ident = Given chave
     /\ (chave = "" \/ fst (fst (validate_chave_acesso chave)) = true)
     /\ tipo_operacao ident = Given t)
  /\ (forall em c, emitente inv = Given em -> emit_cnpj em = Given c ->
        c = "" \/ fst (validate_cnpj c) = true)
  /\ (forall l p, produtos inv = Given l -> In p l ->
        exists n c,
          ncm p = Given n /\ (n = "" \/ fst (validate_ncm n) = true)
          /\ cfop p = Given c /\ (c = "" \/ fst (fst (validate_cfop c)) = true))
  /\ (forall l, produtos inv = Given l -> l <> [] ->
        exists t v, totais inv = Given t /\ valor_produtos t = Given v).
Proof.
  intros H S. rewrite validate_invoice_validated in H.
  destruct (validated inv) as [final |] eqn:V; cbn [bind] in H; [| discriminate].
  injection H as <- <-.
  destruct (validated_severities _ _ V) as [HE HW].
  destruct (no_findings_iff final now HE HW) as (_ & S1 & _).
  apply S1 in S. destruct S as [E0 W0]. apply length_zero_iff in E0, W0.
  unfold validated in V. cbv zeta in V.
  destruct (_validate_documents _ inv) as [s1 |] eqn:V1; cbn [bind] in V; [| discriminate].
  destruct (_validate_fiscal_codes s1 inv) as [s2 |] eqn:V2; cbn [bind] in V;
    [| discriminate].
  destruct (_validate_products_calculations s2 inv) as [s3 |] eqn:V3; cbn [bind] in V;
    [| discriminate].
  destruct (_validate_tax_calculations s3 inv) as [s4 |] eqn:V4; cbn [bind] in V;
    [| discriminate].
  destruct (_validate_totals s4 inv) as [s5 |] eqn:V5; cbn [bind] in V; [| discriminate].
  destruct (extends_to_nothing _ _ _ _ (_validate_consistency_extends _ _ _ V) E0 W0)
    as [E5 W5].
  destruct (extends_to_nothing _ _ _ _ (_validate_totals_extends _ _ _ V5) E5 W5)
    as [E4 W4].
  destruct (extends_to_nothing _ _ _ _ (_validate_tax_calculations_extends _ _ _ V4) E4 W4)
    as [E3 W3].
  destruct (extends_to_nothing _ _ _ _
              (_validate_products_calculations_extends _ _ _ V3) E3 W3) as [E2 W2].
  destruct (extends_to_nothing _ _ _ _ (_validate_fiscal_codes_extends _ _ _ V2) E2 W2)
    as [E1 W1].
  destruct (_validate_documents_quiet _ _ _ V1 E1 W1)
    as ((ident & chave & I & C & VC) & CN).
  destruct (_validate_consistency_quiet _ _ _ V) as (ident' & t & I' & T);
    [congruence |].
  rewrite I in I'. injection I' as <-.
  split; [exists ident, chave, t; auto |]. split; [exact CN |]. split.
  - intros l p P Hp. unfold _validate_fiscal_codes in V2. rewrite P in V2.
    cbn [listing bind] in V2. injection V2 as V2.
    apply (fiscal_codes_loop_quiet l s1 0%nat); trivial; rewrite V2; congruence.
  - intros l P N. eapply _validate_totals_quiet; eauto. congruence.
Qed.

Lemma valido_means_complete_witness :
  exists ident chave t,
    identificacao nota_valida = Given ident
    /\ chave_acesso ident = Given chave
    /\ (chave = "" \/ fst (fst (validate_chave_acesso chave)) = true)
    /\ tipo_operacao ident = Given t.
Proof.
  destruct (validate_invoice fresh_validator "2025-05-09T12:00:00" nota_valida)
    as [[r final] |] eqn:E; [| vm_compute in E; discriminate E].
  refine (proj1 (valido_means_complete fresh_validator final _ _ r E _)).
  vm_compute in E. injection E as <- _. reflexivity.
Defined.

(** ** Operation type against CFOP *)

Lemma cfop_direction_cases (c t : string) :
  cfop_direction c = Some t -> t = "entrada" \/ t = "saida".
Proof.
  unfold cfop_direction.
  destruct (digits_of c) as [| d [| ? [| ? [| ? [| ? ?]]]]]; try discriminate.
  destruct ((1 <=? d) && (d <=? 3)); [intros H; injection H as <-; auto |].
  destruct ((5 <=? d) && (d <=? 7)); [intros H; injection H as <-; auto |].
  discriminate.
Qed.

Lemma consistency_of_mismatch self tipo_op i p :
  if cfop_mismatch tipo_op p then
    exists e,
      consistency_of self tipo_op i p = append_error self e
      /\ severity e = "erro" /\ category e = "consistencia"
      /\ field_path e = produto_path i "cfop"
  else consistency_of self tipo_op i p = self.
Proof.
  unfold cfop_mismatch, consistency_of.
  destruct (get (cfop p)) as [c |]; trivial.
  pose proof (validate_cfop_direction c) as H.
  pose proof (cfop_direction_cases c) as T.
  destruct c as [| a c']; [reflexivity |]. cbn [truthy].
  destruct (cfop_direction (String a c')) as [t |].
  - destruct H as [natureza ->].
    cbn [cfop_details lookup_or lookup String.eqb Ascii.eqb Bool.eqb].
    destruct (T t eq_refl) as [-> | ->]; cbn [truthy andb];
      destruct (negb _); trivial; eexists; repeat split.
  - destruct (validate_cfop (String a c')) as [[[] msg] details]; [discriminate H |].
    reflexivity.
Qed.

Lemma mismatch_of_other_tipo (tipo_op : string) (p : Produto) :
  tipo_op <> "entrada" -> tipo_op <> "saida" ->
  cfop_mismatch tipo_op p = cfop_accepted p.
Proof.
  intros N1 N2. unfold cfop_mismatch, cfop_accepted.
  destruct (get (cfop p)) as [c |]; trivial.
  pose proof (validate_cfop_direction c) as H.
  pose proof (cfop_direction_cases c) as T.
  destruct (cfop_direction c) as [t |].
  - destruct H as [natureza ->]. cbn [fst].
    destruct (T t eq_refl) as [-> | ->]; apply negb_true_iff, String.eqb_neq; congruence.
  - now rewrite H.
Qed.

Lemma length_mismatched_other (tipo_op : string) (l : list Produto) :
  tipo_op <> "entrada" -> tipo_op <> "saida" ->
  forall i, List.length (mismatched tipo_op i l) = List.length (filter cfop_accepted l).
Proof.
  intros N1 N2. induction l as [| p l IH]; intros i; cbn [mismatched filter]; trivial.
  rewrite (mismatch_of_other_tipo tipo_op p N1 N2).
  destruct (cfop_accepted p); cbn [List.length]; now rewrite IH.
Qed.

(** X13.  For an invoice that gives its operation type, [_validate_consistency]
    adds no warning and exactly one error of category consistencia for each
    product whose CFOP is accepted with a direction other than the operation
    type in lower case, on the field [produtos[i].cfop] of its position and
    in the order of the products.  So when the operation type reads neither
    entrada nor saida in lower case, as "0 - Entrada" does, every product
    with an accepted CFOP gets the error. *)
Theorem consistency_errors
    (self : FiscalValidator) (inv : Invoice) (ident : Identificacao)
    (t : string) (l : list Produto) :
  identificacao inv = Given ident -> tipo_operacao ident = Given t ->
  produtos inv = Given l ->
  exists es,
    _validate_consistency self inv
    = Ok {| errors := (errors self ++ es)%list; warnings := warnings self |}
    /\ map field_path es
       = map (fun i => produto_path i "cfop") (mismatched (lower t) 0 l)
    /\ Forall (fun e => severity e = "erro" /\ category e = "consistencia") es
    /\ (lower t <> "entrada" -> lower t <> "saida" ->
        List.length es = List.length (filter cfop_accepted l)).
Proof.
  intros I T P.
  assert (G : exists es,
    _validate_consistency self inv
    = Ok {| errors := (errors self ++ es)%list; warnings := warnings self |}
    /\ map field_path es
       = map (fun i => produto_path i "cfop") (mismatched (lower t) 0 l)
    /\ Forall (fun e => severity e = "erro" /\ category e = "consistencia") es).
  { unfold _validate_consistency.
    rewrite I. cbn [section bind]. rewrite T. cbn [get]. cbv zeta.
    rewrite P. cbn [listing bind]. clear P.
    generalize 0%nat as i. revert self.
    induction l as [| p l IH]; intros self i; cbn [consistency_loop mismatched].
    - exists []. rewrite app_nil_r. destruct self. repeat split. constructor.
    - pose proof (consistency_of_mismatch self (lower t) i p) as M.
      destruct (cfop_mismatch (lower t) p).
      + destruct M as (e & -> & S1 & S2 & S3).
        destruct (IH (append_error self e) (S i)) as (es & -> & F & A).
        exists (e :: es). cbn [errors warnings append_error map].
        rewrite <- app_assoc, S3, F. repeat split. now constructor.
      + rewrite M. apply IH. }
  destruct G as (es & E & F & A). exists es. repeat split; trivial.
  intros N1 N2. rewrite <- (length_mismatched_other (lower t) l N1 N2 0).
  rewrite <- (length_map field_path es), F. apply length_map.
Qed.

Lemma consistency_errors_witness :
  exists es,
    _validate_consistency fresh_validator exemplo_nf_com_none
    = Ok {| errors := (errors fresh_validator ++ es)%list;
            warnings := warnings fresh_validator |}
    /\ map field_path es = ["produtos[0].cfop"; "produtos[1].cfop"].
Proof.
  destruct (consistency_errors fresh_validator exemplo_nf_com_none
              {| chave_acesso :=
                   Given "3525.0531.1525.6200.0346.5500.1000.0113.3410.0044.0803";
                 tipo_operacao := Given "0 - Entrada";
                 data_emissao := Given "2025-05-09" |}
              "0 - Entrada"
              (match produtos exemplo_nf_com_none with Given l => l | _ => [] end)
              eq_refl eq_refl eq_refl) as (es & E & F & _).
  exists es. split; [exact E | exact F].
Defined.

(** * Further properties of the calculator *)

(** ** The products of an invoice *)

Lemma analisar_produto_lists (a a' : produtos_acc) (p : Produto) :
  analisar_produto a p = Ok a' ->
  produtos_sem_icms a'
  = (produtos_sem_icms a ++ map nome_of (filter sem_icms [p]))%list
  /\ produtos_sem_pis_cofins a'
     = (produtos_sem_pis_cofins a ++ map nome_of (filter sem_pis_cofins [p]))%list.
Proof.
  unfold analisar_produto, sem_icms, sem_pis_cofins. intros H. cbv zeta in H.
  cbn [filter].
  destruct (Dec.add _ _); cbn [bind] in H; [| discriminate].
  destruct (get_or (impostos p) no_impostos) as [i |]; cbn [bind] in H; [| discriminate].
  injection H as <-. cbn [produtos_sem_icms produtos_sem_pis_cofins].
  split.
  - destruct (get (icms i)) as [x |]; [destruct (F64.eqb x F64.zero) |];
      cbn [map]; rewrite ?app_nil_r; reflexivity.
  - destruct (is_none (pis i) || is_none (cofins i)); cbn [map]; rewrite ?app_nil_r;
      reflexivity.
Qed.

Lemma analisar_produtos_loop_lists (l : list Produto) :
  forall a a',
    analisar_produtos_loop a l = Ok a' ->
    produtos_sem_icms a'
    = (produtos_sem_icms a ++ map nome_of (filter sem_icms l))%list
    /\ produtos_sem_pis_cofins a'
       = (produtos_sem_pis_cofins a ++ map nome_of (filter sem_pis_cofins l))%list.
Proof.
  induction l as [| p l IH]; intros a a' H; cbn [analisar_produtos_loop] in H.
  - injection H as <-. cbn [filter map]. now rewrite !app_nil_r.
  - destruct (analisar_produto a p) as [m |] eqn:E; cbn [bind] in H; [| discriminate].
    destruct (analisar_produto_lists _ _ _ E) as [E1 E2].
    destruct (IH _ _ H) as [F1 F2].
    rewrite F1, F2, E1, E2, <- !app_assoc, <- !map_app, <- !filter_app. now split.
Qed.

(** X14.  [_analisar_produtos] returns the empty dictionary for None and
    for the empty list.  For a list that is not empty, a report it returns
    gives total_produtos as the length of the list; under
    produtos_sem_icms the number of products whose ICMS is None, missing or
    equal to zero, and under produtos_sem_pis_cofins the number of those
    whose PIS or COFINS is None or missing, a product without the key
    impostos counting in both; the examples are the names of the first
    three of them in the order of the list, and neither number exceeds
    total_produtos. *)
Theorem _analisar_produtos_counts :
  _analisar_produtos None = Ok (VDict [])
  /\ _analisar_produtos (Some []) = Ok (VDict [])
  /\ (forall p l r,
        _analisar_produtos (Some (p :: l)) = Ok r ->
        let every := p :: l in
        let a := map nome_of (filter sem_icms every) in
        let b := map nome_of (filter sem_pis_cofins every) in
        path_get r ["total_produtos"] = Some (VInt (Z.of_nat (List.length every)))
        /\ path_get r ["produtos_sem_icms"; "quantidade"]
           = Some (VInt (Z.of_nat (List.length a)))
        /\ path_get r ["produtos_sem_icms"; "exemplos"] = Some (VList (firstn 3 a))
        /\ path_get r ["produtos_sem_pis_cofins"; "quantidade"]
           = Some (VInt (Z.of_nat (List.length b)))
        /\ path_get r ["produtos_sem_pis_cofins"; "exemplos"] = Some (VList (firstn 3 b))
        /\ (List.length a <= List.length every)%nat
        /\ (List.length b <= List.length every)%nat
        /\ List.length (firstn 3 a) = Nat.min 3 (List.length a)
        /\ List.length (firstn 3 b) = Nat.min 3 (List.length b)).
Proof.
  split; [reflexivity |]. split; [reflexivity |].
  intros p l r H. cbv zeta.
  unfold _analisar_produtos in H.
  destruct (analisar_produtos_loop _ (p :: l)) as [acc |] eqn:E; cbn [bind] in H;
    [| discriminate].
  destruct (analisar_produtos_loop_lists _ _ _ E) as [E1 E2].
  cbn [produtos_sem_icms produtos_sem_pis_cofins app] in E1, E2.
  destruct (Dec.truediv _ _); cbn [bind] in H; [| discriminate].
  destruct (half_up _); cbn [bind] in H; [| discriminate].
  injection H as <-. rewrite E1, E2.
  repeat split; try apply length_firstn;
    rewrite length_map; apply filter_length_le.
Qed.

(** ** Signs through the conversions *)

Lemma shr_1_nonneg (mrs : shr_record) : 0 <= shr_m mrs -> 0 <= shr_m (shr_1 mrs).
Proof.
  destruct mrs as [m r s]. cbn [shr_m]. intros H.
  destruct m as [| [p | p |] | p]; cbn [shr_1 shr_m]; lia.
Qed.

Lemma iter_pos_shr_1_nonneg (p : positive) :
  forall mrs, 0 <= shr_m mrs -> 0 <= shr_m (iter_pos shr_1 p mrs).
Proof.
  induction p as [p IH | p IH |]; intros mrs H; cbn [iter_pos].
  - apply IH, IH, shr_1_nonneg, H.
  - apply IH, IH, H.
  - apply shr_1_nonneg, H.
Qed.

Lemma shr_fexp_nonneg (m e : Z) (l : location) :
  0 <= m -> 0 <= shr_m (fst (shr_fexp F64.prec F64.emax m e l)).
Proof.
  intros H. unfold shr_fexp, shr.
  assert (R : 0 <= shr_m (shr_record_of_loc m l)) by (destruct l as [| []]; exact H).
  destruct (fexp _ _ _ - e); cbn [fst]; trivial.
  now apply iter_pos_shr_1_nonneg.
Qed.

Lemma round_nearest_even_nonneg (m : Z) (l : location) :
  0 <= m -> 0 <= round_nearest_even m l.
Proof.
  intros H. unfold round_nearest_even.
  destruct l as [| []]; try destruct (Z.even m); lia.
Qed.

Lemma binary_round_aux_signed (s : bool) (m e : Z) (l : location) :
  0 <= m -> signed_as s (binary_round_aux F64.prec F64.emax s m e l).
Proof.
  intros H. unfold binary_round_aux.
  pose proof (shr_fexp_nonneg m e l H) as A.
  destruct (shr_fexp F64.prec F64.emax m e l) as [mrs' e']. cbn [fst] in A.
  pose proof (shr_fexp_nonneg _ e' loc_Exact
                (round_nearest_even_nonneg _ (loc_of_shr_record mrs') A)) as B.
  destruct (shr_fexp F64.prec F64.emax _ e' loc_Exact) as [mrs'' e'']. cbn [fst] in B.
  destruct (shr_m mrs''); [reflexivity | | lia].
  destruct (e'' <=? F64.emax - F64.prec); reflexivity.
Qed.

Lemma of_ratio_signed (s : bool) (n d : positive) : signed_as s (F64.of_ratio s n d).
Proof.
  unfold F64.of_ratio, SFdiv_core_binary. cbv zeta.
  match goal with
  | |- context [Z.div_eucl ?a ?b] =>
      pose proof (Z.div_pos a b) as Q; unfold Z.div in Q;
      destruct (Z.div_eucl a b) as [q r] eqn:E
  end.
  apply binary_round_aux_signed. cbn [fst] in Q. apply Q; [| lia].
  match goal with
  | |- 0 <= match ?x with _ => _ end => destruct x eqn:S
  end; try lia.
  apply Z.shiftl_nonneg. lia.
Qed.

Lemma to_float_signed (s : bool) (c e : Z) : signed_as s (F64.of_decimal s c e).
Proof.
  unfold F64.of_decimal. destruct c; try reflexivity.
  destruct (0 <=? e); apply of_ratio_signed.
Qed.

Lemma signed_nonneg (x : F64.t) : signed_as false x -> F64.leb F64.zero x = true.
Proof. destruct x as [[] | [] | | [] m e]; cbn; intros H; try discriminate H; trivial; contradiction. Qed.

Lemma ndigits10_nonpos (c : Z) : c <= 0 -> ndigits10 c = 1.
Proof.
  intros H. unfold ndigits10.
  replace (Z.log2 c) with 0 by (symmetry; now apply Z.log2_nonpos).
  reflexivity.
Qed.

Lemma round_div_nonneg (r : Dec.rounding) (c k : Z) : 0 <= c -> 0 <= Dec.round_div r c k.
Proof.
  intros H. unfold Dec.round_div. cbv zeta.
  assert (Q : 0 <= c / 10 ^ k).
  { destruct (Z.le_gt_cases 0 k).
    - apply Z.div_pos; [exact H | now apply Z.pow_pos_nonneg].
    - rewrite Z.pow_neg_r by assumption. now rewrite Z.div_0_r_ext. }
  destruct (2 * (c mod 10 ^ k) ?= 10 ^ k); try lia.
  destruct r; [destruct (Z.even _) |]; lia.
Qed.

Lemma fix_nonneg (s : bool) (c e : Z) :
  dec_nonneg (Dec.Fin s c e) -> dec_nonneg (Dec.fix_ (Dec.Fin s c e)).
Proof.
  cbn [dec_nonneg]. intros H. unfold Dec.fix_. cbv zeta.
  destruct s; cbn [Dec.signed] in H.
  - rewrite ndigits10_nonpos by lia. exact H.
  - destruct (Dec.prec <? ndigits10 c); [| exact H].
    pose proof (round_div_nonneg Dec.ROUND_HALF_EVEN c (ndigits10 c - Dec.prec) H) as R.
    destruct (Dec.prec <? ndigits10 _); cbn [dec_nonneg Dec.signed]; [| exact R].
    apply Z.div_pos; [exact R | lia].
Qed.

Lemma add_nonneg (x y z : Dec.t) :
  dec_nonneg x -> dec_nonneg y -> Dec.add x y = Ok z -> dec_nonneg z.
Proof.
  destruct x as [s1 c1 e1 | s1 |], y as [s2 c2 e2 | s2 |]; cbn [dec_nonneg Dec.add];
    try contradiction; intros Hx Hy H.
  - injection H as <-. cbv zeta. apply fix_nonneg. cbn [dec_nonneg].
    set (k1 := e1 - Z.min e1 e2). set (k2 := e2 - Z.min e1 e2).
    assert (P1 : 0 <= 10 ^ k1) by (apply Z.pow_nonneg; lia).
    assert (P2 : 0 <= 10 ^ k2) by (apply Z.pow_nonneg; lia).
    assert (A : 0 <= Dec.signed s1 (c1 * 10 ^ k1) + Dec.signed s2 (c2 * 10 ^ k2)).
    { destruct s1, s2; cbn [Dec.signed] in *; nia. }
    destruct (Z.eqb_spec (Dec.signed s1 (c1 * 10 ^ k1) + Dec.signed s2 (c2 * 10 ^ k2)) 0)
      as [-> | N].
    + destruct (s1 && s2); cbn; lia.
    + destruct (Z.ltb_spec (Dec.signed s1 (c1 * 10 ^ k1) + Dec.signed s2 (c2 * 10 ^ k2)) 0);
        [lia |]. cbn [Dec.signed]. lia.
  - now injection H as <-.
  - now injection H as <-.
  - subst. cbn in H. now injection H as <-.
Qed.

Lemma mul_count_nonneg (x z : Dec.t) (n : Z) :
  0 < n -> dec_nonneg x -> Dec.mul x (Dec.Fin false n 0) = Ok z -> dec_nonneg z.
Proof.
  intros N.
  destruct x as [s1 c1 e1 | s1 |]; cbn [dec_nonneg Dec.mul]; try contradiction;
    intros Hx H.
  - injection H as <-. apply fix_nonneg. cbn [dec_nonneg].
    destruct s1; cbn [Dec.signed xorb] in *; nia.
  - destruct (n =? 0); [discriminate |]. injection H as <-. now subst.
Qed.

Lemma gt_zero_nonneg (d : Dec.t) : Dec.gt d Dec.zero = Ok true -> dec_nonneg d.
Proof.
  destruct d as [s c e | s |]; cbn [dec_nonneg]; try discriminate.
  - unfold Dec.gt, Dec.zero, Dec.cmp. cbv zeta. intros H.
    assert (P : 0 <= 10 ^ (e - Z.min e 0)) by (apply Z.pow_nonneg; lia).
    destruct (Z.compare_spec (Dec.signed s (c * 10 ^ (e - Z.min e 0)))
                (Dec.signed false (0 * 10 ^ (0 - Z.min e 0)))) as [C | C | C];
      try discriminate H.
    destruct s; cbn [Dec.signed] in *; nia.
  - destruct s; [discriminate | reflexivity].
Qed.

Lemma max_zero_nonneg (d m : Dec.t) : Dec.max Dec.zero d = Ok m -> dec_nonneg m.
Proof.
  unfold Dec.max. destruct (Dec.gt d Dec.zero) as [[] |] eqn:G; cbn [bind];
    intros H; try discriminate H; injection H as <-.
  - now apply gt_zero_nonneg.
  - cbn. lia.
Qed.

Lemma to_float_nonneg (x : Dec.t) :
  dec_nonneg x -> F64.leb F64.zero (Dec.to_float x) = true.
Proof.
  destruct x as [s c e | s |]; cbn [dec_nonneg Dec.to_float]; try contradiction.
  - intros H. destruct s; cbn [Dec.signed] in H.
    + destruct c; try lia; reflexivity.
    + apply signed_nonneg, to_float_signed.
  - intros ->. reflexivity.
Qed.

(** X15.  In every report [analisar_nota_individual] returns, the
    recoverable PIS credit, the recoverable COFINS credit, their monthly
    total and the annual total are floats that are not below zero (and not
    NaN), whatever amounts the invoice carries: a PIS or COFINS above the
    potential credit gives 0.0, never a negative credit. *)
Theorem credits_are_not_negative (inv : Invoice) (r : value) :
  analisar_nota_individual inv = Ok r ->
  Forall (fun path =>
            exists x, path_get r path = Some (VFloat x)
                      /\ F64.leb F64.zero x = true)
    [ ["oportunidades_creditos"; "pis"; "recuperavel"];
      ["oportunidades_creditos"; "cofins"; "recuperavel"];
      ["oportunidades_creditos"; "total_recuperavel_mensal"];
      ["oportunidades_creditos"; "total_recuperavel_anual"] ].
Proof.
  unfold analisar_nota_individual. intros H. cbv zeta in H.
  repeat match type of H with
         | bind (Dec.max Dec.zero ?d) _ = Ok _ =>
             let m := fresh "m" in
             let E := fresh "M" in
             destruct (Dec.max Dec.zero d) as [m |] eqn:E; cbn [bind] in H;
             [apply max_zero_nonneg in E | discriminate H]
         | bind (Dec.add ?a ?b) _ = Ok _ =>
             let m := fresh "s" in
             let E := fresh "A" in
             destruct (Dec.add a b) as [m |] eqn:E; cbn [bind] in H;
             [| discriminate H]
         | bind (Dec.mul ?a (D 12 0)) _ = Ok _ =>
             let m := fresh "y" in
             let E := fresh "Y" in
             destruct (Dec.mul a (D 12 0)) as [m |] eqn:E; cbn [bind] in H;
             [| discriminate H]
         | bind ?m _ = Ok _ =>
             destruct m eqn:?; cbn [bind] in H; [| discriminate H]
         end.
  injection H as <-.
  match goal with
  | A : Dec.add ?a ?b = Ok ?t, Y : Dec.mul ?t (D 12 0) = Ok ?y,
    Ma : dec_nonneg ?a, Mb : dec_nonneg ?b |- _ =>
      pose proof (add_nonneg _ _ _ Ma Mb A) as T;
      pose proof (mul_count_nonneg _ _ 12 eq_refl T Y) as U
  end.
  repeat constructor; eexists; (split; [reflexivity | now apply to_float_nonneg]).
Qed.

Lemma credits_are_not_negative_witness :
  exists r,
    analisar_nota_individual exemplo_nf_com_none = Ok r
    /\ Forall (fun path =>
                 exists x, path_get r path = Some (VFloat x)
                           /\ F64.leb F64.zero x = true)
         [ ["oportunidades_creditos"; "pis"; "recuperavel"];
           ["oportunidades_creditos"; "cofins"; "recuperavel"];
           ["oportunidades_creditos"; "total_recuperavel_mensal"];
           ["oportunidades_creditos"; "total_recuperavel_anual"] ].
Proof.
  destruct (analisar_nota_individual exemplo_nf_com_none) as [r |] eqn:E;
    [| vm_compute in E; discriminate E].
  exists r. split; [reflexivity |].
  exact (credits_are_not_negative exemplo_nf_com_none r E).
Defined.

(** ** The exceptions of the calculator *)

Lemma add_raises (x y : Dec.t) (e : exn) : Dec.add x y = Raise e -> e = InvalidOperation.
Proof.
  destruct x as [s c ex | s |], y as [s' c' ey | s' |]; cbn [Dec.add]; try discriminate.
  destruct (Bool.eqb s s'); intros H; try discriminate H. now injection H as <-.
Qed.

Lemma sub_raises (x y : Dec.t) (e : exn) : Dec.sub x y = Raise e -> e = InvalidOperation.
Proof.
  destruct x as [s c ex | s |], y as [s' c' ey | s' |]; cbn [Dec.sub Dec.copy_negate];
    try discriminate; apply add_raises.
Qed.

Lemma gt_raises (x y : Dec.t) (e : exn) : Dec.gt x y = Raise e -> e = InvalidOperation.
Proof.
  destruct x, y; cbn [Dec.gt]; intros H; try discriminate H; now injection H as <-.
Qed.

Lemma max_raises (x y : Dec.t) (e : exn) : Dec.max x y = Raise e -> e = InvalidOperation.
Proof.
  unfold Dec.max. destruct (Dec.gt y x) eqn:G; cbn [bind]; [discriminate |].
  intros H. injection H as <-. eapply gt_raises, G.
Qed.

Lemma truediv_raises (x y : Dec.t) (e : exn) :
  is_zero y = false -> Dec.truediv x y = Raise e -> e = InvalidOperation.
Proof.
  destruct x as [s c ex | s |], y as [s' c' ey | s' |]; cbn [Dec.truediv is_zero];
    intros Z0 H; try discriminate H; try (now injection H as <-).
  rewrite Z0 in H. cbv zeta in H.
  repeat match type of H with
         | context [if ?b then _ else _] => destruct b
         | context [let '(_, _) := ?p in _] => destruct p
         end; discriminate H.
Qed.

Lemma percent_of_raises (x rate : Dec.t) (e : exn) :
  percent_of x rate = Raise e -> e = InvalidOperation.
Proof.
  unfold percent_of. intros H.
  destruct (Dec.mul x rate) as [p |] eqn:E1; cbn [bind] in H;
    [| injection H as <-; eapply mul_raises, E1].
  destruct (truediv_hundred_returns p) as [q E2]. rewrite E2 in H. cbn [bind] in H.
  eapply quantize_raises, H.
Qed.

Lemma share_of_raises (x total : Dec.t) (e : exn) :
  is_zero total = false -> share_of x total = Raise e -> e = InvalidOperation.
Proof.
  unfold share_of. intros Z0 H.
  destruct (Dec.truediv x total) as [q |] eqn:E1; cbn [bind] in H;
    [| injection H as <-; eapply truediv_raises; eassumption].
  destruct (Dec.mul q Dec.hundred) as [p |] eqn:E2; cbn [bind] in H;
    [| injection H as <-; eapply mul_raises, E2].
  eapply quantize_raises, H.
Qed.

Lemma guarded_share_raises (x total : Dec.t) (b : bool) (e : exn) :
  Dec.gt total Dec.zero = Ok b ->
  (if b then share_of x total else Ok Dec.zero) = Raise e -> e = InvalidOperation.
Proof.
  destruct b; [| discriminate]. intros G.
  apply share_of_raises. now apply gt_zero_not_zero.
Qed.

Lemma guarded_percent_raises (x rate : Dec.t) (b : bool) (e : exn) :
  (if b then percent_of x rate else Ok Dec.zero) = Raise e -> e = InvalidOperation.
Proof. destruct b; [apply percent_of_raises | discriminate]. Qed.

Lemma _comparar_regimes_raises (x : F64.t) (e : exn) :
  _comparar_regimes_tributarios x = Raise e -> e = InvalidOperation.
Proof.
  unfold _comparar_regimes_tributarios. intros H. cbv zeta in H.
  repeat match type of H with
         | bind (percent_of ?a ?b) _ = Raise _ =>
             let E := fresh "E" in
             destruct (percent_of a b) eqn:E; cbn [bind] in H;
             [| injection H as <-; eapply percent_of_raises, E]
         end.
  discriminate H.
Qed.

Lemma analisar_produto_raises (a : produtos_acc) (p : Produto) (e : exn) :
  analisar_produto a p = Raise e ->
  e = InvalidOperation \/ (e = AttributeError /\ impostos p = Null).
Proof.
  unfold analisar_produto. intros H. cbv zeta in H.
  destruct (Dec.add _ _) eqn:E1; cbn [bind] in H;
    [| injection H as <-; left; eapply add_raises, E1].
  destruct (impostos p); cbn [get_or bind] in H; try discriminate H.
  injection H as <-. auto.
Qed.

Lemma analisar_produtos_loop_raises (l : list Produto) :
  forall a e,
    analisar_produtos_loop a l = Raise e ->
    e = InvalidOperation
    \/ (e = AttributeError /\ exists p, In p l /\ impostos p = Null).
Proof.
  induction l as [| p l IH]; intros a e H; cbn [analisar_produtos_loop] in H;
    [discriminate |].
  destruct (analisar_produto a p) eqn:E; cbn [bind] in H.
  - destruct (IH _ _ H) as [-> | (-> & q & I & N)]; [now left | right].
    split; trivial. exists q. split; [now right | exact N].
  - injection H as <-.
    destruct (analisar_produto_raises _ _ _ E) as [-> | [-> N]]; [now left | right].
    split; trivial. exists p. split; [now left | exact N].
Qed.

Lemma _analisar_produtos_raises (o : option (list Produto)) (e : exn) :
  _analisar_produtos o = Raise e ->
  e = InvalidOperation
  \/ (e = AttributeError /\ exists l p, o = Some l /\ In p l /\ impostos p = Null).
Proof.
  unfold _analisar_produtos. destruct o as [[| p l] |]; try discriminate.
  intros H.
  destruct (analisar_produtos_loop _ (p :: l)) eqn:E; cbn [bind] in H.
  - left.
    destruct (Dec.truediv _ _) eqn:E2; cbn [bind] in H.
    + destruct (half_up _) eqn:E3; cbn [bind] in H; [discriminate |].
      injection H as <-. eapply quantize_raises, E3.
    + injection H as <-. eapply truediv_raises; [| exact E2].
      apply is_zero_of_Z. cbn [List.length]. apply Z.ltb_lt. lia.
  - injection H as <-.
    destruct (analisar_produtos_loop_raises _ _ _ E) as [-> | (-> & q & I & N)];
      [now left | right].
    split; trivial. exists (p :: l), q. auto.
Qed.

Ltac decimal_signal E :=
  first [ eapply add_raises, E | eapply sub_raises, E | eapply gt_raises, E
        | eapply max_raises, E | eapply mul_raises, E | eapply quantize_raises, E
        | eapply percent_of_raises, E | eapply guarded_percent_raises, E
        | eapply guarded_share_raises; [| exact E]; eassumption
        | eapply share_of_raises; [| exact E]; eassumption
        | eapply _comparar_regimes_raises, E ].

(** X16.  [analisar_nota_individual] raises nothing but
    decimal.InvalidOperation, AttributeError and TypeError: AttributeError
    only when totais holds None or the impostos of a product holds None,
    TypeError only when produtos holds None.  An invoice whose totais
    holds None always raises AttributeError.  An issuer, a recipient and an
    identification that hold None are tolerated: the outcome is the one for
    an invoice without these keys. *)
Theorem analisar_nota_individual_exceptions (inv : Invoice) :
  (forall e,
     analisar_nota_individual inv = Raise e ->
     e = InvalidOperation
     \/ (e = AttributeError
         /\ (totais inv = Null
             \/ exists l p, produtos inv = Given l /\ In p l /\ impostos p = Null))
     \/ (e = TypeError /\ produtos inv = Null))
  /\ (totais inv = Null -> analisar_nota_individual inv = Raise AttributeError)
  /\ (forall ident ident',
        analisar_nota_individual (with_parties Null Null ident inv)
        = analisar_nota_individual (with_parties Missing Missing ident' inv)).
Proof.
  split; [| split].
  - intros e H. unfold analisar_nota_individual in H. cbv zeta in H.
    destruct (section (totais inv) no_totais) as [t |] eqn:S; cbn [bind] in H;
      [| injection H as <-; apply section_raises in S; tauto].
    repeat match type of H with
           | bind (_analisar_produtos _) _ = Raise _ => fail 1
           | bind ?m _ = Raise _ =>
               let E := fresh "E" in
               destruct m eqn:E; cbn [bind] in H;
               [| injection H as <-; left; decimal_signal E]
           end.
    destruct (_analisar_produtos _) eqn:P; cbn [bind] in H.
    + repeat match type of H with
             | bind (match _ with _ => _ end) _ = Raise _ => fail 1
             | bind ?m _ = Raise _ =>
                 let E := fresh "E" in
                 destruct m eqn:E; cbn [bind] in H;
                 [| injection H as <-; left; decimal_signal E]
             end.
      destruct (produtos inv); cbn [get_or bind] in H; try discriminate H.
      injection H as <-. auto.
    + injection H as <-.
      destruct (_analisar_produtos_raises _ _ P) as [-> | (-> & l & p & G & I & N)];
        [now left | right; left]. split; trivial. right. exists l, p.
      repeat split; trivial.
      destruct (produtos inv); cbn [get_or] in G; try discriminate G.
      * injection G as <-. destruct I.
      * now injection G as <-.
  - intros N. unfold analisar_nota_individual. now rewrite N.
  - reflexivity.
Qed.

Lemma upsert_raises {K V : Type} (eqb : K -> K -> bool) (k : K) (init : V)
    (f : V -> result V) (d : list (K * V)) (e : exn) :
  (forall v e', f v = Raise e' -> e' = InvalidOperation) ->
  upsert eqb k init f d = Raise e -> e = InvalidOperation.
Proof.
  intros Hf. induction d as [| [k' v] d IH]; cbn [upsert]; intros H.
  - destruct (f init) eqn:E; cbn [bind] in H; [discriminate |].
    injection H as <-. eapply Hf, E.
  - destruct (eqb k k').
    + destruct (f v) eqn:E; cbn [bind] in H; [discriminate |].
      injection H as <-. eapply Hf, E.
    + destruct (upsert eqb k init f d); cbn [bind] in H; [discriminate |].
      injection H as <-. now apply IH.
Qed.

Lemma add_produtos_raises (l : list Produto) :
  forall d e, add_produtos d l = Raise e -> e = InvalidOperation.
Proof.
  induction l as [| p l IH]; intros d e H; cbn [add_produtos] in H; [discriminate |].
  destruct (add_produto d p) eqn:E; cbn [bind] in H; [eapply IH, H |].
  injection H as <-. unfold add_produto in E. cbv zeta in E.
  eapply upsert_raises; [| exact E]. intros v e' F. cbv beta in F.
  match type of F with
  | bind ?m _ = _ => destruct m eqn:A1; cbn [bind] in F;
                     [| injection F as <-; eapply add_raises, A1]
  end.
  match type of F with
  | bind ?m _ = _ => destruct m eqn:A2; cbn [bind] in F;
                     [discriminate | injection F as <-; eapply add_raises, A2]
  end.
Qed.

Lemma accumulate_raises (a : acc) (inv : Invoice) (e : exn) :
  accumulate a inv = Raise e ->
  e = InvalidOperation
  \/ (e = AttributeError /\ totais inv = Null)
  \/ (e = TypeError /\ produtos inv = Null).
Proof.
  unfold accumulate. intros H.
  destruct (section (totais inv) no_totais) as [t |] eqn:S; cbn [bind] in H;
    [| injection H as <-; apply section_raises in S; tauto].
  cbv zeta in H.
  repeat match type of H with
         | bind (Dec.add ?x ?y) _ = Raise _ =>
             let E := fresh "E" in
             destruct (Dec.add x y) eqn:E; cbn [bind] in H;
             [| injection H as <-; left; eapply add_raises, E]
         end.
  match type of H with
  | bind ?m _ = Raise _ => destruct m eqn:U; cbn [bind] in H
  end.
  2:{ injection H as <-. left. eapply upsert_raises; [| exact U].
      intros v e' F. cbv beta in F.
      match type of F with
      | bind ?m _ = _ => destruct m eqn:A1; cbn [bind] in F;
                         [discriminate | injection F as <-; eapply add_raises, A1]
      end. }
  destruct (listing (produtos inv)) eqn:L; cbn [bind] in H;
    [| injection H as <-; apply listing_raises in L; tauto].
  destruct (add_produtos _ _) eqn:P; cbn [bind] in H;
    [| injection H as <-; left; eapply add_produtos_raises, P].
  match type of H with
  | bind ?m _ = Raise _ => destruct m eqn:M; cbn [bind] in H; [discriminate |]
  end.
  injection H as <-. left.
  destruct (truthy _); [| discriminate M].
  eapply upsert_raises; [| exact M].
  intros v e' F. cbv beta in F.
  match type of F with
  | bind ?m _ = _ => destruct m eqn:A1; cbn [bind] in F;
                     [discriminate | injection F as <-; eapply add_raises, A1]
  end.
Qed.

Lemma accumulate_all_raises (l : list Invoice) :
  forall a e,
    accumulate_all a l = Raise e ->
    e = InvalidOperation
    \/ (e = AttributeError /\ exists inv, In inv l /\ totais inv = Null)
    \/ (e = TypeError /\ exists inv, In inv l /\ produtos inv = Null).
Proof.
  induction l as [| inv l IH]; intros a e H; cbn [accumulate_all] in H;
    [discriminate |].
  destruct (accumulate a inv) eqn:E; cbn [bind] in H.
  - destruct (IH _ _ H) as [-> | [(-> & i & I & N) | (-> & i & I & N)]];
      [now left | right; left | right; right];
      (split; trivial; exists i; split; [now right | exact N]).
  - injection H as <-.
    destruct (accumulate_raises _ _ _ E) as [-> | [(-> & N) | (-> & N)]];
      [now left | right; left | right; right];
      (split; trivial; exists inv; split; [now left | exact N]).
Qed.

Lemma percent_or_zero_raises (x total : Dec.t) (e : exn) :
  percent_or_zero x total = Raise e -> e = InvalidOperation.
Proof.
  unfold percent_or_zero. intros H.
  destruct (Dec.gt total Dec.zero) as [b |] eqn:G; cbn [bind] in H;
    [| injection H as <-; eapply gt_raises, G].
  destruct b; [| discriminate].
  destruct (share_of x total) eqn:S; cbn [bind] in H; [discriminate |].
  injection H as <-. eapply share_of_raises; [| exact S]. now apply gt_zero_not_zero.
Qed.

Lemma fornecedor_entries_raise (total : Dec.t) (l : list (string * fornecedor)) (e : exn) :
  map_result (fornecedor_entry total) l = Raise e -> e = InvalidOperation.
Proof.
  induction l as [| [nome dados] l IH]; cbn [map_result]; intros H; [discriminate |].
  unfold fornecedor_entry at 1 in H.
  destruct (percent_or_zero _ _) eqn:P; cbn [bind] in H;
    [| injection H as <-; eapply percent_or_zero_raises, P].
  destruct (map_result _ l); cbn [bind] in H; [discriminate |].
  injection H as <-. now apply IH.
Qed.

Lemma accumulate_all_returns (l : list Invoice) :
  forall a a',
    accumulate_all a l = Ok a' ->
    Forall (fun inv => totais inv <> Null /\ produtos inv <> Null) l.
Proof.
  induction l as [| inv l IH]; intros a a' H; cbn [accumulate_all] in H;
    [constructor |].
  destruct (accumulate a inv) as [a1 |] eqn:E; cbn [bind] in H; [| discriminate].
  constructor; [| eapply IH, H].
  unfold accumulate in E.
  destruct (totais inv) eqn:T; cbn [section bind] in E; try discriminate E;
    (split; [discriminate |]); cbv zeta in E;
    repeat match type of E with
           | bind (listing _) _ = Ok _ => fail 1
           | bind ?m _ = Ok _ => destruct m; cbn [bind] in E; [| discriminate E]
           end;
    destruct (produtos inv); cbn [listing bind] in E; congruence.
Qed.

Lemma accumulate_all_parties (l : list Invoice) (a : acc) :
  accumulate_all a (map (with_parties Null Null Null) l)
  = accumulate_all a (map (with_parties Missing Missing Missing) l).
Proof.
  revert a. induction l as [| inv l IH]; intros a; cbn [map accumulate_all]; trivial.
  change (accumulate a (with_parties Null Null Null inv))
    with (accumulate a (with_parties Missing Missing Missing inv)).
  destruct (accumulate a _); cbn [bind]; [apply IH | reflexivity].
Qed.

(** X17.  [analisar_multiplas_notas] raises nothing but
    decimal.InvalidOperation, AttributeError and TypeError: AttributeError
    only when the totais of an invoice of the batch holds None, TypeError
    only when the produtos of one holds None.  A batch for which it returns
    a report has no invoice whose totais or produtos holds None: one such
    invoice makes the whole batch fail.  Issuers, recipients and
    identifications that hold None are tolerated: the outcome is the one
    for invoices without these keys. *)
Theorem analisar_multiplas_notas_exceptions (invs : list Invoice) :
  (forall e,
     analisar_multiplas_notas invs = Raise e ->
     e = InvalidOperation
     \/ (e = AttributeError /\ exists inv, In inv invs /\ totais inv = Null)
     \/ (e = TypeError /\ exists inv, In inv invs /\ produtos inv = Null))
  /\ (forall r,
        analisar_multiplas_notas invs = Ok r ->
        Forall (fun inv => totais inv <> Null /\ produtos inv <> Null) invs)
  /\ analisar_multiplas_notas (map (with_parties Null Null Null) invs)
     = analisar_multiplas_notas (map (with_parties Missing Missing Missing) invs).
Proof.
  split; [| split].
  - intros e H. unfold analisar_multiplas_notas in H.
    destruct (is_nil invs); [discriminate |]. cbv zeta in H.
    destruct (accumulate_all acc0 invs) as [a |] eqn:A; cbn [bind] in H;
      [| injection H as <-; eapply accumulate_all_raises, A].
    left.
    repeat match type of H with
           | bind ?m _ = Raise _ =>
               let E := fresh "E" in
               destruct m eqn:E; cbn [bind] in H;
               [| injection H as <-;
                  first [ eapply gt_raises, E
                        | eapply guarded_share_raises; [| exact E]; eassumption
                        | eapply fornecedor_entries_raise, E
                        | eapply _comparar_regimes_raises, E
                        | eapply percent_or_zero_raises, E
                        | idtac ] ]
           end; try discriminate H;
      match goal with
      | E : (if ?b then _ else _) = Raise _ |- _ =>
          destruct b eqn:Z; [| discriminate E];
          apply is_zero_of_Z in Z;
          match type of E with
          | bind ?m _ = _ => destruct m eqn:Q; cbn [bind] in E
          end
      end;
      match goal with
      | E : Ok _ = Raise _ |- _ => discriminate E
      | E : half_up _ = Raise _ |- _ => eapply quantize_raises, E
      | E : Raise _ = Raise _, Q : Dec.truediv _ _ = Raise _ |- _ =>
          injection E as <-; eapply truediv_raises; [| exact Q]; exact Z
      | E : Raise _ = Raise _, Q : share_of _ _ = Raise _ |- _ =>
          injection E as <-; eapply share_of_raises; [| exact Q]; exact Z
      end.
  - intros r H. unfold analisar_multiplas_notas in H.
    destruct invs as [| inv invs]; [constructor |]. cbn [is_nil] in H. cbv zeta in H.
    destruct (accumulate_all acc0 (inv :: invs)) as [a |] eqn:A; cbn [bind] in H;
      [| discriminate].
    eapply accumulate_all_returns, A.
  - unfold analisar_multiplas_notas.
    rewrite accumulate_all_parties, !length_map.
    destruct invs; reflexivity.
Qed.

(** ** The completeness counters *)

Lemma count_where_cons {A : Type} (f : A -> bool) (x : A) (l : list A) :
  count_where f (x :: l) = bump (f x) 0 + count_where f l.
Proof.
  unfold count_where, bump. cbn [filter]. destruct (f x); cbn [List.length]; lia.
Qed.

Lemma section_totais_of (inv : Invoice) (t : Totais) :
  section (totais inv) no_totais = Ok t -> t = totais_of inv.
Proof.
  unfold totais_of. destruct (totais inv); cbn [section]; intros H;
    try discriminate H; now injection H as <-.
Qed.

Lemma accumulate_counts (a a' : acc) (inv : Invoice) :
  accumulate a inv = Ok a' ->
  notas_com_none a' = notas_com_none a + bump (lacks_some inv) 0
  /\ none_pis a' = none_pis a + bump (lacks valor_pis inv) 0
  /\ none_cofins a' = none_cofins a + bump (lacks valor_cofins inv) 0
  /\ none_icms a' = none_icms a + bump (lacks valor_icms inv) 0
  /\ none_ipi a' = none_ipi a + bump (lacks valor_ipi inv) 0.
Proof.
  unfold accumulate. intros H.
  destruct (section (totais inv) no_totais) as [t |] eqn:S; cbn [bind] in H;
    [| discriminate].
  apply section_totais_of in S. cbv zeta in H.
  repeat match type of H with
         | bind ?m _ = Ok _ => destruct m; cbn [bind] in H; [| discriminate H]
         end.
  injection H as <-.
  cbn [notas_com_none none_pis none_cofins none_icms none_ipi].
  unfold lacks_some, lacks. rewrite <- S. unfold bump.
  repeat split;
    repeat match goal with |- context [is_none ?x] => destruct (is_none x) end;
    cbn [orb]; lia.
Qed.

Lemma accumulate_all_counts (l : list Invoice) :
  forall a a',
    accumulate_all a l = Ok a' ->
    notas_com_none a' = notas_com_none a + count_where lacks_some l
    /\ none_pis a' = none_pis a + count_where (lacks valor_pis) l
    /\ none_cofins a' = none_cofins a + count_where (lacks valor_cofins) l
    /\ none_icms a' = none_icms a + count_where (lacks valor_icms) l
    /\ none_ipi a' = none_ipi a + count_where (lacks valor_ipi) l.
Proof.
  induction l as [| inv l IH]; intros a a' H; cbn [accumulate_all] in H.
  - injection H as <-. unfold count_where. cbn. repeat split; lia.
  - destruct (accumulate a inv) as [m |] eqn:E; cbn [bind] in H; [| discriminate].
    destruct (accumulate_counts _ _ _ E) as (A1 & A2 & A3 & A4 & A5).
    destruct (IH _ _ H) as (B1 & B2 & B3 & B4 & B5).
    rewrite !count_where_cons. repeat split; lia.
Qed.

Lemma count_where_le {A : Type} (f g : A -> bool) (l : list A) :
  (forall x, f x = true -> g x = true) -> count_where f l <= count_where g l.
Proof.
  intros I. induction l as [| x l IH]; [reflexivity |].
  rewrite !count_where_cons. unfold bump.
  destruct (f x) eqn:F; [rewrite (I x F) | destruct (g x)]; lia.
Qed.

Lemma count_where_bound {A : Type} (f : A -> bool) (l : list A) :
  0 <= count_where f l <= Z.of_nat (List.length l).
Proof.
  unfold count_where. pose proof (filter_length_le f l). lia.
Qed.

(** X18.  In a report of [analisar_multiplas_notas] over a batch that is
    not empty, total_notas is the length of the batch;
    notas_com_campos_none is the number of invoices that lack (None or
    missing) one of valor_pis, valor_cofins, valor_icms, valor_ipi; the
    four entries of campos_none_por_tipo are the numbers of invoices that
    lack each one; each of these lies between 0 and notas_com_campos_none,
    which is at most total_notas. *)
Theorem quality_counters (inv : Invoice) (invs : list Invoice) (r : value) :
  analisar_multiplas_notas (inv :: invs) = Ok r ->
  let every := inv :: invs in
  path_get r ["metricas_gerais"; "total_notas"]
  = Some (VInt (Z.of_nat (List.length every)))
  /\ path_get r ["qualidade_dados"; "notas_com_campos_none"]
     = Some (VInt (count_where lacks_some every))
  /\ path_get r ["qualidade_dados"; "campos_none_por_tipo"]
     = Some (VDict [ ("PIS", VInt (count_where (lacks valor_pis) every));
                     ("COFINS", VInt (count_where (lacks valor_cofins) every));
                     ("ICMS", VInt (count_where (lacks valor_icms) every));
                     ("IPI", VInt (count_where (lacks valor_ipi) every)) ])
  /\ (forall f, In f [valor_pis; valor_cofins; valor_icms; valor_ipi] ->
        0 <= count_where (lacks f) every <= count_where lacks_some every)
  /\ count_where lacks_some every <= Z.of_nat (List.length every).
Proof.
  intros H. cbv zeta.
  unfold analisar_multiplas_notas in H. cbn [is_nil] in H. cbv zeta in H.
  destruct (accumulate_all acc0 (inv :: invs)) as [a |] eqn:A; cbn [bind] in H;
    [| discriminate].
  destruct (accumulate_all_counts _ _ _ A) as (C0 & C1 & C2 & C3 & C4).
  cbn [acc0 notas_com_none none_pis none_cofins none_icms none_ipi Z.add] in *.
  repeat match type of H with
         | bind ?m _ = Ok _ => destruct m; cbn [bind] in H; [| discriminate H]
         end.
  injection H as <-.
  split; [reflexivity |].
  split; [now rewrite <- C0 |].
  split; [now rewrite <- C1, <- C2, <- C3, <- C4 |].
  split.
  - intros f F. split; [apply count_where_bound |].
    apply count_where_le. intros x. unfold lacks_some.
    cbn [In] in F. destruct F as [<- | [<- | [<- | [<- | []]]]]; intros ->;
      now rewrite ?orb_true_r.
  - apply count_where_bound.
Qed.

Lemma quality_counters_witness :
  exists r,
    analisar_multiplas_notas lote_exemplo = Ok r
    /\ path_get r ["qualidade_dados"; "notas_com_campos_none"] = Some (VInt 3)
    /\ path_get r ["qualidade_dados"; "campos_none_por_tipo"]
       = Some (VDict [ ("PIS", VInt 2); ("COFINS", VInt 2); ("ICMS", VInt 0);
                       ("IPI", VInt 1) ]).
Proof.
  destruct (analisar_multiplas_notas lote_exemplo) as [r |] eqn:E;
    [| vm_compute in E; discriminate E].
  exists r. split; [reflexivity |].
  destruct (quality_counters exemplo_nf_com_none [nota_sem_ipi; nota_sem_emitente] r E)
    as (_ & A & B & _).
  split; [exact A | exact B].
Defined.

Lemma is_nil_campos_none_of (t : Totais) :
  is_nil (campos_none_of t)
  = negb (is_none (valor_pis t) || is_none (valor_cofins t) || is_none (valor_icms t)).
Proof.
  unfold campos_none_of.
  destruct (is_none (valor_pis t)), (is_none (valor_cofins t)), (is_none (valor_icms t));
    reflexivity.
Qed.

(** X19.  The two entry points do not agree on what a complete invoice
    is.  [analisar_nota_individual] reports integridade_dados 'parcial' (and
    the note on absent fields) exactly when the invoice lacks valor_pis,
    valor_cofins or valor_icms, 'completa' otherwise; [analisar_multiplas_notas]
    on that invoice alone counts it under notas_com_campos_none exactly
    when it lacks one of these or valor_ipi.  An invoice that lacks only
    valor_ipi is 'completa' for the first and incomplete for the second. *)
Theorem completeness_by_entry_point (inv : Invoice) (r1 r2 : value) :
  analisar_nota_individual inv = Ok r1 ->
  analisar_multiplas_notas [inv] = Ok r2 ->
  path_get r1 ["qualidade_dados"; "integridade_dados"]
  = Some (VStr (if lacks_tracked inv then "parcial" else "completa"))
  /\ path_get r1 ["oportunidades_creditos"; "observacao"]
     = Some (if lacks_tracked inv
             then VStr "Valores calculados considerando campos ausentes como R$ 0,00"
             else VNone)
  /\ path_get r2 ["qualidade_dados"; "notas_com_campos_none"]
     = Some (VInt (if lacks_tracked inv || lacks valor_ipi inv then 1 else 0))
  /\ path_get r2 ["qualidade_dados"; "observacao"]
     = Some (VStr (if lacks_tracked inv || lacks valor_ipi inv
                   then "1 de 1 notas possuem campos ausentes (None)"
                   else "Todos os campos preenchidos")).
Proof.
  intros H1 H2.
  assert (Q : path_get r2 ["qualidade_dados"; "notas_com_campos_none"]
              = Some (VInt (if lacks_some inv then 1 else 0))
              /\ path_get r2 ["qualidade_dados"; "observacao"]
                 = Some (VStr (if lacks_some inv
                               then "1 de 1 notas possuem campos ausentes (None)"
                               else "Todos os campos preenchidos"))).
  { unfold analisar_multiplas_notas in H2. cbn [is_nil] in H2. cbv zeta in H2.
    destruct (accumulate_all acc0 [inv]) as [a |] eqn:A; cbn [bind] in H2;
      [| discriminate].
    destruct (accumulate_all_counts _ _ _ A) as (C0 & _).
    cbn [acc0 notas_com_none Z.add] in C0.
    repeat match type of H2 with
           | bind ?m _ = Ok _ => destruct m; cbn [bind] in H2; [| discriminate H2]
           end.
    injection H2 as <-.
    unfold count_where in C0. cbn [filter] in C0.
    destruct (lacks_some inv); cbn [List.length Z.of_nat] in C0;
      cbn [path_get dict_get]; rewrite C0; split; reflexivity. }
  unfold lacks_some in Q. fold (lacks_tracked inv) in Q.
  unfold analisar_nota_individual in H1. cbv zeta in H1.
  destruct (section (totais inv) no_totais) as [t |] eqn:Et; cbn [bind] in H1;
    [| discriminate].
  assert (L : lacks_tracked inv = negb (is_nil (campos_none_of t))).
  { rewrite is_nil_campos_none_of, negb_involutive. unfold lacks_tracked, lacks.
    now rewrite (section_totais_of _ _ Et). }
  repeat match type of H1 with
         | bind ?m _ = Ok _ => destruct m; cbn [bind] in H1; [| discriminate H1]
         end.
  injection H1 as <-. destruct Q as [Q1 Q2].
  split; [| split; [| split; [exact Q1 | exact Q2]]];
    rewrite L; destruct (is_nil (campos_none_of t)); reflexivity.
Qed.

Lemma completeness_by_entry_point_witness :
  exists r1 r2,
    analisar_nota_individual nota_sem_ipi = Ok r1
    /\ analisar_multiplas_notas [nota_sem_ipi] = Ok r2
    /\ path_get r1 ["qualidade_dados"; "integridade_dados"] = Some (VStr "completa")
    /\ path_get r2 ["qualidade_dados"; "notas_com_campos_none"] = Some (VInt 1).
Proof.
  destruct (analisar_nota_individual nota_sem_ipi) as [r1 |] eqn:E1;
    [| vm_compute in E1; discriminate E1].
  destruct (analisar_multiplas_notas [nota_sem_ipi]) as [r2 |] eqn:E2;
    [| vm_compute in E2; discriminate E2].
  exists r1, r2.
  destruct (completeness_by_entry_point nota_sem_ipi r1 r2 E1 E2) as (A & _ & B & _).
  repeat split; [exact A | exact B].
Defined.

(** ** The suppliers and the months of a batch *)

Lemma ltb_asym (x y : F64.t) : F64.ltb x y = true -> F64.ltb y x = false.
Proof.
  unfold F64.ltb, SFltb. rewrite (SFcompare_antisym y x).
  destruct (SFcompare x y) as [[] |]; cbn; congruence.
Qed.

Lemma insert_desc_no_rise {A : Type} (key : A -> F64.t) (x : A) (l : list A) :
  no_rise (map key l) -> no_rise (map key (insert_desc key x l)).
Proof.
  induction l as [| y l IH]; cbn [insert_desc map no_rise]; [tauto |].
  intros [H S]. destruct (F64.ltb (key y) (key x)) eqn:E; cbn [map no_rise].
  - split; [now apply ltb_asym | now split].
  - split; [| now apply IH].
    destruct l as [| z l]; cbn [insert_desc map]; trivial.
    destruct (F64.ltb (key z) (key x)); cbn [map]; trivial.
Qed.

Lemma sorted_desc_no_rise {A : Type} (key : A -> F64.t) (l : list A) :
  no_rise (map key (sorted_desc key l)).
Proof.
  unfold sorted_desc.
  assert (G : forall acc, no_rise (map key acc) ->
                          no_rise (map key
                            (fold_left (fun acc x => insert_desc key x acc) l acc))).
  { induction l as [| x l IH]; intros acc S; cbn [fold_left]; trivial.
    apply IH. now apply insert_desc_no_rise. }
  apply G. exact I.
Qed.

Lemma firstn_no_rise (n : nat) (ks : list F64.t) : no_rise ks -> no_rise (firstn n ks).
Proof.
  revert n. induction ks as [| a ks IH]; intros [| n]; cbn [firstn no_rise]; trivial.
  intros [H S]. split; [| now apply IH].
  destruct ks as [| b ks]; destruct n; cbn [firstn]; trivial.
Qed.

Lemma no_rise_descending (ks : list F64.t) :
  Forall (fun k => F64.is_nan k = false) ks -> no_rise ks -> descending ks.
Proof.
  induction 1 as [| a ks Ha F IH]; cbn [no_rise descending]; trivial.
  intros [H S]. split; [| now apply IH].
  destruct F as [| b ks Hb F]; trivial.
  rewrite <- (not_gtb_leb b a Hb Ha).
  change (F64.gtb b a) with (F64.ltb a b). now rewrite H.
Qed.

Lemma add_nan (x y : Dec.t) :
  Dec.add x y = Ok Dec.NaN -> x = Dec.NaN \/ y = Dec.NaN.
Proof.
  destruct x as [s c e | s |], y as [s' c' e' | s' |]; cbn [Dec.add]; auto;
    intros H.
  - injection H as H. cbv zeta in H. unfold Dec.fix_ in H.
    repeat match type of H with
           | context [if ?b then _ else _] => destruct b
           end; discriminate H.
  - discriminate H.
  - discriminate H.
  - destruct (Bool.eqb s s'); discriminate H.
Qed.

Lemma add_of_nan (x y : Dec.t) :
  x = Dec.NaN \/ y = Dec.NaN -> Dec.add x y = Ok Dec.NaN.
Proof. intros [-> | ->]; [reflexivity | now destruct x]. Qed.

Lemma upsert_Forall {K V : Type} (P : V -> Prop) (eqb : K -> K -> bool) (k : K)
    (init : V) (f : V -> result V) (d d' : list (K * V)) :
  P init -> (forall v v', P v -> f v = Ok v' -> P v') ->
  Forall (fun kv => P (snd kv)) d ->
  upsert eqb k init f d = Ok d' -> Forall (fun kv => P (snd kv)) d'.
Proof.
  intros Hi Hf. revert d'.
  induction d as [| [k' v] d IH]; intros d' F H; cbn [upsert] in H.
  - destruct (f init) as [v' |] eqn:E; cbn [bind] in H; [| discriminate].
    injection H as <-. constructor; [| constructor]. cbn [snd]. eapply Hf; eauto.
  - inversion F as [| ? ? Hv F']; subst. cbn [snd] in Hv.
    destruct (eqb k k').
    + destruct (f v) as [v' |] eqn:E; cbn [bind] in H; [| discriminate].
      injection H as <-. constructor; trivial. cbn [snd]. eapply Hf; eauto.
    + destruct (upsert eqb k init f d) as [r |] eqn:E; cbn [bind] in H;
        [| discriminate].
      injection H as <-. constructor; trivial. now apply IH.
Qed.

Lemma accumulate_suppliers (a a' : acc) (inv : Invoice) :
  suppliers_defined a -> accumulate a inv = Ok a' -> suppliers_defined a'.
Proof.
  unfold accumulate, suppliers_defined. intros J H.
  destruct (section (totais inv) no_totais) as [t |]; cbn [bind] in H; [| discriminate].
  cbv zeta in H.
  destruct (Dec.add (faturamento_total a) _) as [fat |] eqn:F; cbn [bind] in H;
    [| discriminate].
  repeat match type of H with
         | bind (upsert _ _ _ _ (fornecedores a)) _ = Ok _ => fail 1
         | bind ?m _ = Ok _ => destruct m; cbn [bind] in H; [| discriminate H]
         end.
  destruct (upsert _ _ _ _ (fornecedores a)) as [fs |] eqn:U; cbn [bind] in H;
    [| discriminate].
  repeat match type of H with
         | bind ?m _ = Ok _ => destruct m; cbn [bind] in H; [| discriminate H]
         end.
  injection H as <-. cbn [faturamento_total fornecedores]. intros N.
  assert (N2 : faturamento_total a <> Dec.NaN
               /\ _safe_decimal (get (valor_total_nf t)) <> Dec.NaN).
  { split; intros C; apply N; rewrite C in F;
      [| destruct (faturamento_total a)]; cbn [Dec.add] in F; congruence. }
  destruct N2 as [N1 N2].
  eapply (upsert_Forall (fun v => f_valor v <> Dec.NaN)); [| | apply J, N1 | exact U].
  - discriminate.
  - intros v v' Hv E.
    cbv beta in E.
    match type of E with
    | bind ?m _ = _ => destruct m as [z |] eqn:Z; cbn [bind] in E; [| discriminate]
    end.
    injection E as <-. cbn [f_valor]. intros ->.
    apply add_nan in Z. tauto.
Qed.

Lemma accumulate_all_suppliers (l : list Invoice) :
  forall a a', suppliers_defined a -> accumulate_all a l = Ok a' -> suppliers_defined a'.
Proof.
  induction l as [| inv l IH]; intros a a' J H; cbn [accumulate_all] in H.
  - now injection H as <-.
  - destruct (accumulate a inv) as [m |] eqn:E; cbn [bind] in H; [| discriminate].
    eapply IH; [| exact H]. eapply accumulate_suppliers; eauto.
Qed.

Lemma to_float_defined (x : Dec.t) :
  x <> Dec.NaN -> F64.is_nan (Dec.to_float x) = false.
Proof.
  destruct x as [s c e | s |]; cbn [Dec.to_float]; try reflexivity; [| congruence].
  intros _. pose proof (to_float_signed s c e) as H.
  destruct (F64.of_decimal s c e); try reflexivity. destruct H.
Qed.

Lemma gt_defined (x y : Dec.t) (b : bool) : Dec.gt x y = Ok b -> x <> Dec.NaN.
Proof. destruct x; cbn [Dec.gt]; congruence. Qed.

Lemma fornecedor_entries (total : Dec.t) (l : list (string * fornecedor))
    (entries : list (F64.t * value * value)) :
  map_result (fornecedor_entry total) l = Ok entries ->
  List.length entries = List.length l
  /\ Forall (fun e =>
               path_get (snd e) ["valor_total"] = Some (VFloat (fst (fst e)))
               /\ exists kv, In kv l /\ fst (fst e) = Dec.to_float (f_valor (snd kv)))
       entries.
Proof.
  revert entries.
  induction l as [| [nome dados] l IH]; intros entries H; cbn [map_result] in H.
  - injection H as <-. split; [reflexivity | constructor].
  - unfold fornecedor_entry at 1 in H.
    destruct (percent_or_zero _ _) as [p |]; cbn [bind] in H; [| discriminate].
    destruct (map_result _ l) as [rest |]; cbn [bind] in H; [| discriminate].
    injection H as <-. destruct (IH rest eq_refl) as [L F]. split.
    + cbn [List.length]. congruence.
    + constructor.
      * split; [reflexivity |]. exists (nome, dados). split; [now left | reflexivity].
      * eapply Forall_impl; [| exact F]. intros e [E1 (kv & I & E2)].
        split; trivial. exists kv. split; [now right | exact E2].
Qed.

Lemma analisar_multiplas_notas_suppliers
    (inv : Invoice) (invs : list Invoice) (r : value) :
  analisar_multiplas_notas (inv :: invs) = Ok r ->
  exists a entries b,
    accumulate_all acc0 (inv :: invs) = Ok a
    /\ Dec.gt (faturamento_total a) Dec.zero = Ok b
    /\ map_result (fornecedor_entry (faturamento_total a)) (fornecedores a) = Ok entries
    /\ top_fornecedores_of r
       = map snd (firstn 10 (sorted_desc (fun e => fst (fst e)) entries))
    /\ path_get r ["metricas_gerais"; "total_fornecedores"]
       = Some (VInt (Z.of_nat (List.length (fornecedores a)))).
Proof.
  unfold analisar_multiplas_notas. cbn [is_nil]. intros H. cbv zeta in H.
  returned; do 3 eexists; repeat split; try eassumption; reflexivity.
Qed.

(** X20.  In a report of [analisar_multiplas_notas] over a batch that is
    not empty, total_fornecedores is at least 1 and at most the number of
    invoices, top_fornecedores lists min(10, total_fornecedores) suppliers,
    and their valor_total are floats, none of them NaN, each at most the
    one before it: the list is in descending order of volume. *)
Theorem top_fornecedores_descending
    (inv : Invoice) (invs : list Invoice) (r : value) :
  analisar_multiplas_notas (inv :: invs) = Ok r ->
  exists ks n,
    map (fun f => path_get f ["valor_total"]) (top_fornecedores_of r)
    = map (fun k => Some (VFloat k)) ks
    /\ descending ks
    /\ Forall (fun k => F64.is_nan k = false) ks
    /\ path_get r ["metricas_gerais"; "total_fornecedores"] = Some (VInt (Z.of_nat n))
    /\ List.length ks = Nat.min 10 n
    /\ (1 <= n <= List.length (inv :: invs))%nat.
Proof.
  intros H.
  destruct (analisar_multiplas_notas_suppliers inv invs r H)
    as (a & entries & b & A & G & E & T & N).
  destruct (fornecedor_entries _ _ _ E) as [L F].
  set (key := fun e : F64.t * value * value => fst (fst e)) in *.
  set (top := firstn 10 (sorted_desc key entries)) in *.
  assert (J : suppliers_defined a)
    by (eapply accumulate_all_suppliers; [| exact A]; intros _; constructor).
  specialize (J (gt_defined _ _ _ G)).
  assert (I : forall e, In e top -> In e entries)
    by (intros e He; now apply In_firstn, In_sorted_desc in He).
  exists (map key top), (List.length (fornecedores a)).
  split; [| split; [| split; [| split; [| split]]]].
  - rewrite T, !map_map. apply map_ext_in. intros e He.
    rewrite Forall_forall in F. destruct (F e (I e He)) as [E1 _]. exact E1.
  - apply no_rise_descending.
    + apply Forall_forall. intros k Hk. apply in_map_iff in Hk.
      destruct Hk as (e & <- & He).
      rewrite Forall_forall in F. destruct (F e (I e He)) as (_ & kv & Ik & Ek). unfold key. rewrite Ek.
      apply to_float_defined. rewrite Forall_forall in J. now apply J.
    + unfold top. rewrite <- firstn_map. apply firstn_no_rise, sorted_desc_no_rise.
  - apply Forall_forall. intros k Hk. apply in_map_iff in Hk.
    destruct Hk as (e & <- & He).
    rewrite Forall_forall in F. destruct (F e (I e He)) as (_ & kv & Ik & Ek). unfold key. rewrite Ek.
    apply to_float_defined. rewrite Forall_forall in J. now apply J.
  - exact N.
  - unfold top. rewrite length_map, length_firstn, length_sorted_desc. congruence.
  - destruct (accumulate_all_suppliers_length _ _ _ A) as [B1 B2].
    cbn [acc0 fornecedores List.length] in B1. split; [apply B2; discriminate | ].
    cbn [List.length]. lia.
Qed.

Lemma top_fornecedores_descending_witness :
  exists r ks,
    analisar_multiplas_notas lote_exemplo = Ok r
    /\ map (fun f => path_get f ["valor_total"]) (top_fornecedores_of r)
       = map (fun k => Some (VFloat k)) ks
    /\ descending ks.
Proof.
  destruct (analisar_multiplas_notas lote_exemplo) as [r |] eqn:E;
    [| vm_compute in E; discriminate E].
  destruct (top_fornecedores_descending
              exemplo_nf_com_none [nota_sem_ipi; nota_sem_emitente] r E)
    as (ks & n & A & B & _).
  exists r, ks. split; [reflexivity |]. split; [exact A | exact B].
Defined.

Lemma upsert_keys {V : Type} (k : string) (init : V) (f : V -> result V)
    (d d' : list (string * V)) :
  upsert String.eqb k init f d = Ok d' ->
  (In k (map fst d) /\ map fst d' = map fst d)
  \/ (~ In k (map fst d) /\ map fst d' = (map fst d ++ [k])%list).
Proof.
  revert d'. induction d as [| [k' v] d IH]; intros d' H; cbn [upsert] in H.
  - destruct (f init); cbn [bind] in H; [| discriminate].
    injection H as <-. right. split; [intros [] | reflexivity].
  - destruct (String.eqb k k') eqn:E.
    + apply String.eqb_eq in E. subst k'.
      destruct (f v); cbn [bind] in H; [| discriminate].
      injection H as <-. left. split; [now left | reflexivity].
    + apply String.eqb_neq in E.
      destruct (upsert String.eqb k init f d) as [r |]; cbn [bind] in H;
        [| discriminate].
      injection H as <-. cbn [map fst].
      destruct (IH r eq_refl) as [[I M] | [I M]]; [left | right].
      * split; [now right | now rewrite M].
      * split; [| now rewrite M]. intros [C | C]; [congruence | tauto].
Qed.

Lemma upsert_NoDup {V : Type} (k : string) (init : V) (f : V -> result V)
    (d d' : list (string * V)) :
  NoDup (map fst d) -> upsert String.eqb k init f d = Ok d' -> NoDup (map fst d').
Proof.
  intros N H. destruct (upsert_keys _ _ _ _ _ H) as [[_ ->] | [I ->]]; trivial.
  apply NoDup_app; trivial.
  - constructor; [intros [] | constructor].
  - intros a Ia [<- | []]. tauto.
Qed.

Lemma upsert_tally {K V : Type} (eqb : K -> K -> bool) (k : K) (init : V)
    (f : V -> result V) (q : V -> Z) (d d' : list (K * V)) :
  q init = 0 -> (forall v v', f v = Ok v' -> q v' = q v + 1) ->
  Forall (fun kv => 1 <= q (snd kv)) d ->
  upsert eqb k init f d = Ok d' ->
  tally q d' = tally q d + 1 /\ Forall (fun kv => 1 <= q (snd kv)) d'.
Proof.
  intros Hi Hf. revert d'.
  induction d as [| [k' v] d IH]; intros d' F H; cbn [upsert] in H.
  - destruct (f init) as [v' |] eqn:E; cbn [bind] in H; [| discriminate].
    injection H as <-. apply Hf in E. cbn [tally fold_right snd]. split; [lia |].
    constructor; [cbn [snd]; lia | constructor].
  - inversion F as [| ? ? Hv F']; subst. cbn [snd] in Hv.
    destruct (eqb k k').
    + destruct (f v) as [v' |] eqn:E; cbn [bind] in H; [| discriminate].
      injection H as <-. apply Hf in E. cbn [tally fold_right snd]. split; [lia |].
      constructor; [cbn [snd]; lia | exact F'].
    + destruct (upsert eqb k init f d) as [r |] eqn:E; cbn [bind] in H;
        [| discriminate].
      injection H as <-. destruct (IH r F' eq_refl) as [T P].
      cbn [tally fold_right snd]. fold (tally q r). fold (tally q d).
      split; [lia | now constructor].
Qed.

Lemma accumulate_maps (a a' : acc) (inv : Invoice) :
  accumulate a inv = Ok a' ->
  (exists f,
     (forall v v', f v = Ok v' -> f_quantidade v' = f_quantidade v + 1)
     /\ upsert String.eqb (or_default (step (get (emitente inv)) razao_social) "N/A")
          {| f_valor := Dec.zero; f_quantidade := 0 |} f (fornecedores a)
        = Ok (fornecedores a'))
  /\ (exists g,
        (forall v v', g v = Ok v' -> m_quantidade v' = m_quantidade v + 1)
        /\ (if dated inv
            then upsert String.eqb (month_of inv)
                   {| m_quantidade := 0; m_valor := Dec.zero |} g (notas_por_mes a)
            else Ok (notas_por_mes a))
           = Ok (notas_por_mes a')).
Proof.
  unfold accumulate. intros H.
  destruct (section (totais inv) no_totais) as [t |]; cbn [bind] in H; [| discriminate].
  cbv zeta in H.
  repeat match type of H with
         | bind (Dec.add ?x ?y) _ = Ok _ =>
             destruct (Dec.add x y); cbn [bind] in H; [| discriminate H]
         end.
  match type of H with
  | bind ?m _ = Ok _ => destruct m as [fs |] eqn:U; cbn [bind] in H; [| discriminate H]
  end.
  destruct (listing (produtos inv)); cbn [bind] in H; [| discriminate].
  destruct (add_produtos _ _); cbn [bind] in H; [| discriminate].
  match type of H with
  | bind ?m _ = Ok _ => destruct m as [ms |] eqn:M; cbn [bind] in H; [| discriminate H]
  end.
  injection H as <-. cbn [fornecedores notas_por_mes]. split.
  - eexists. split; [| exact U]. intros v v' E. cbv beta in E.
    match type of E with
    | bind ?m _ = _ => destruct m; cbn [bind] in E; [| discriminate]
    end.
    injection E as <-. reflexivity.
  - eexists. split; [| exact M]. intros v v' E. cbv beta in E.
    match type of E with
    | bind ?m _ = _ => destruct m; cbn [bind] in E; [| discriminate]
    end.
    injection E as <-. reflexivity.
Qed.

Lemma accumulate_ledger (a a' : acc) (inv : Invoice) (n : Z) (seen : list Invoice) :
  ledger_ok a n seen -> accumulate a inv = Ok a' ->
  ledger_ok a' (n + 1) (seen ++ [inv]).
Proof.
  intros (N1 & P1 & T1 & N2 & P2 & T2 & K) H.
  destruct (accumulate_maps _ _ _ H) as [(f & Hf & U) (g & Hg & M)].
  destruct (upsert_tally String.eqb _ {| f_valor := Dec.zero; f_quantidade := 0 |} f
              f_quantidade _ _ eq_refl Hf P1 U) as [T1' P1'].
  assert (C : count_where dated (seen ++ [inv])
              = count_where dated seen + (if dated inv then 1 else 0)).
  { unfold count_where. rewrite filter_app, length_app. cbn [filter].
    destruct (dated inv); cbn [List.length]; lia. }
  split; [eapply upsert_NoDup; eauto |]. split; [exact P1' |].
  split; [lia |].
  destruct (dated inv) eqn:D.
  - destruct (upsert_tally String.eqb _ {| m_quantidade := 0; m_valor := Dec.zero |} g
                m_quantidade _ _ eq_refl Hg P2 M) as [T2' P2'].
    split; [eapply upsert_NoDup; eauto |]. split; [exact P2' |].
    split; [lia |].
    intros m. destruct (upsert_keys _ _ _ _ _ M) as [[I E] | [I E]]; rewrite E.
    + rewrite K. split.
      * intros (i & Hi & Di & Mi). exists i. rewrite in_app_iff. auto.
      * intros (i & Hi & Di & Mi). apply in_app_iff in Hi.
        destruct Hi as [Hi | [<- | []]]; [exists i; auto |].
        apply K. now rewrite <- Mi.
    + rewrite in_app_iff, K. split.
      * intros [(i & Hi & Di & Mi) | [<- | []]].
        -- exists i. rewrite in_app_iff. auto.
        -- exists inv. rewrite in_app_iff. cbn [In]. auto.
      * intros (i & Hi & Di & Mi). apply in_app_iff in Hi.
        destruct Hi as [Hi | [<- | []]]; [left; exists i; auto |].
        right. now left.
  - injection M as <-.
    split; [exact N2 |]. split; [exact P2 |]. split; [lia |].
    intros m. rewrite K. split.
    + intros (i & Hi & Di & Mi). exists i. rewrite in_app_iff. auto.
    + intros (i & Hi & Di & Mi). apply in_app_iff in Hi.
      destruct Hi as [Hi | [<- | []]]; [exists i; auto | congruence].
Qed.

Lemma accumulate_all_ledger (l : list Invoice) :
  forall a a' n seen,
    ledger_ok a n seen -> accumulate_all a l = Ok a' ->
    ledger_ok a' (n + Z.of_nat (List.length l)) (seen ++ l).
Proof.
  induction l as [| inv l IH]; intros a a' n seen J H; cbn [accumulate_all] in H.
  - injection H as <-. cbn [List.length Z.of_nat]. now rewrite Z.add_0_r, app_nil_r.
  - destruct (accumulate a inv) as [a1 |] eqn:E; cbn [bind] in H; [| discriminate].
    pose proof (IH _ _ _ _ (accumulate_ledger _ _ _ _ _ J E) H) as R.
    rewrite <- app_assoc in R. cbn [app] in R.
    replace (n + Z.of_nat (List.length (inv :: l)))
      with (n + 1 + Z.of_nat (List.length l)); [exact R |].
    cbn [List.length]. lia.
Qed.

Lemma ledger_ok_acc0 : ledger_ok acc0 0 [].
Proof.
  unfold ledger_ok. cbn [acc0 fornecedores notas_por_mes map tally fold_right].
  repeat split; try constructor.
  - intros [].
  - intros (i & [] & _).
Qed.

Lemma insert_desc_perm {A : Type} (key : A -> F64.t) (x : A) (l : list A) :
  Permutation (insert_desc key x l) (x :: l).
Proof.
  induction l as [| y l IH]; cbn [insert_desc]; [reflexivity |].
  destruct (F64.ltb (key y) (key x)); [reflexivity |].
  rewrite IH. apply perm_swap.
Qed.

Lemma sorted_desc_perm {A : Type} (key : A -> F64.t) (l : list A) :
  Permutation (sorted_desc key l) l.
Proof.
  unfold sorted_desc.
  assert (G : forall acc,
            Permutation (fold_left (fun acc x => insert_desc key x acc) l acc)
              (acc ++ l)).
  { induction l as [| x l IH]; intros acc; cbn [fold_left].
    - now rewrite app_nil_r.
    - rewrite IH, insert_desc_perm. apply Permutation_middle. }
  apply G.
Qed.

Lemma insert_by_key_perm {V : Type} (x : string * V) (l : list (string * V)) :
  Permutation (insert_by_key x l) (x :: l).
Proof.
  induction l as [| y l IH]; cbn [insert_by_key]; [reflexivity |].
  destruct (String.ltb (fst x) (fst y)); [reflexivity |].
  rewrite IH. apply perm_swap.
Qed.

Lemma sorted_items_perm {V : Type} (l : list (string * V)) :
  Permutation (sorted_items l) l.
Proof.
  unfold sorted_items.
  assert (G : forall acc,
            Permutation (fold_left (fun acc x => insert_by_key x acc) l acc)
              (acc ++ l)).
  { induction l as [| x l IH]; intros acc; cbn [fold_left].
    - now rewrite app_nil_r.
    - rewrite IH, insert_by_key_perm. apply Permutation_middle. }
  apply G.
Qed.

Lemma string_ltb_asym (x y : string) : String.ltb x y = true -> String.ltb y x = false.
Proof.
  unfold String.ltb. rewrite (String.compare_antisym x y).
  destruct (String.compare y x); cbn; congruence.
Qed.

Lemma string_ltb_total (x y : string) :
  String.ltb y x = false -> x <> y -> String.ltb x y = true.
Proof.
  unfold String.ltb. rewrite (String.compare_antisym y x).
  destruct (String.compare x y) eqn:E; cbn; try congruence.
  apply String.compare_eq_iff in E. congruence.
Qed.

Lemma insert_by_key_no_fall {V : Type} (x : string * V) (l : list (string * V)) :
  no_fall (map fst l) -> no_fall (map fst (insert_by_key x l)).
Proof.
  induction l as [| y l IH]; cbn [insert_by_key map no_fall]; [tauto |].
  intros [H S]. destruct (String.ltb (fst x) (fst y)) eqn:E; cbn [map no_fall].
  - split; [now apply string_ltb_asym | now split].
  - split; [| now apply IH].
    destruct l as [| z l]; cbn [insert_by_key map]; trivial.
    destruct (String.ltb (fst x) (fst z)); cbn [map]; trivial.
Qed.

Lemma sorted_items_no_fall {V : Type} (l : list (string * V)) :
  no_fall (map fst (sorted_items l)).
Proof.
  unfold sorted_items.
  assert (G : forall acc, no_fall (map fst acc) ->
                          no_fall (map fst
                            (fold_left (fun acc x => insert_by_key x acc) l acc))).
  { induction l as [| x l IH]; intros acc S; cbn [fold_left]; trivial.
    apply IH. now apply insert_by_key_no_fall. }
  apply G. exact I.
Qed.

Lemma no_fall_ascending (l : list string) : NoDup l -> no_fall l -> ascending l.
Proof.
  induction 1 as [| a l Ha N IH]; cbn [no_fall ascending]; trivial.
  intros [H S]. split; [| now apply IH].
  destruct l as [| b l]; trivial.
  apply string_ltb_total; trivial. intros ->. apply Ha. now left.
Qed.

Lemma tally_perm {K V : Type} (q : V -> Z) (d d' : list (K * V)) :
  Permutation d d' -> tally q d = tally q d'.
Proof.
  unfold tally. induction 1; cbn [fold_right]; lia.
Qed.

Lemma top_projection {A B : Type} (proj : A -> option value) (g : B -> option value)
    (key : A -> F64.t) (entries : list A) (xs : list B) :
  map proj entries = map g xs ->
  exists ys,
    Permutation xs ys
    /\ map proj (firstn 10 (sorted_desc key entries)) = map g (firstn 10 ys).
Proof.
  intros E.
  pose proof (Permutation_map proj (sorted_desc_perm key entries)) as P.
  rewrite E in P. destruct (Permutation_map_inv _ _ P) as (ys & M & Q).
  exists ys. split; [exact Q |]. now rewrite <- !firstn_map, M.
Qed.

Lemma fornecedor_entries_fields (total : Dec.t) (l : list (string * fornecedor))
    (entries : list (F64.t * value * value)) :
  map_result (fornecedor_entry total) l = Ok entries ->
  map (fun e => path_get (snd e) ["nome"]) entries
  = map (fun s => Some (VStr s)) (map fst l)
  /\ map (fun e => path_get (snd e) ["quantidade_notas"]) entries
     = map (fun c => Some (VInt c)) (map (fun kv => f_quantidade (snd kv)) l).
Proof.
  revert entries.
  induction l as [| [nome dados] l IH]; intros entries H; cbn [map_result] in H.
  - injection H as <-. split; reflexivity.
  - unfold fornecedor_entry at 1 in H.
    destruct (percent_or_zero _ _) as [p |]; cbn [bind] in H; [| discriminate].
    destruct (map_result _ l) as [rest |]; cbn [bind] in H; [| discriminate].
    injection H as <-. destruct (IH rest eq_refl) as [E1 E2].
    cbn [map fst snd]. rewrite E1, E2. split; reflexivity.
Qed.

Lemma sum_firstn (n : nat) (l : list Z) :
  Forall (fun c => 1 <= c) l ->
  fold_right Z.add 0 (firstn n l) <= fold_right Z.add 0 l.
Proof.
  revert n. induction l as [| c l IH]; intros [| n] F; cbn [firstn fold_right];
    try lia; inversion F as [| ? ? Hc F']; subst.
  - assert (0 <= fold_right Z.add 0 l); [| lia].
    clear -F'. induction F'; cbn [fold_right]; lia.
  - specialize (IH n F'). lia.
Qed.

Lemma NoDup_firstn {A : Type} (n : nat) (l : list A) : NoDup l -> NoDup (firstn n l).
Proof.
  intros N. rewrite <- (firstn_skipn n l) in N. eapply NoDup_app_remove_r, N.
Qed.

Lemma Forall_firstn {A : Type} (P : A -> Prop) (n : nat) (l : list A) :
  Forall P l -> Forall P (firstn n l).
Proof.
  intros F. apply Forall_forall. intros x Hx. rewrite Forall_forall in F.
  now apply F, (In_firstn n).
Qed.

Lemma tally_sum {K V : Type} (q : V -> Z) (d : list (K * V)) :
  tally q d = fold_right Z.add 0 (map (fun kv => q (snd kv)) d).
Proof. unfold tally. induction d as [| kv d IH]; cbn [fold_right map]; congruence. Qed.

Lemma sum_perm (l l' : list Z) :
  Permutation l l' -> fold_right Z.add 0 l = fold_right Z.add 0 l'.
Proof. induction 1; cbn [fold_right]; lia. Qed.

Lemma analisar_multiplas_notas_evolucao
    (inv : Invoice) (invs : list Invoice) (r : value) :
  analisar_multiplas_notas (inv :: invs) = Ok r ->
  exists a,
    accumulate_all acc0 (inv :: invs) = Ok a
    /\ evolucao_of r = map mes_entry (sorted_items (notas_por_mes a)).
Proof.
  unfold analisar_multiplas_notas. cbn [is_nil]. intros H. cbv zeta in H.
  returned; eexists; repeat split; try eassumption; reflexivity.
Qed.

(** X21.  In a report of [analisar_multiplas_notas] over a batch that is
    not empty, no supplier is listed twice in top_fornecedores, every
    supplier listed has quantidade_notas at least 1, and these numbers add
    up to at most the number of invoices, and to exactly that number when
    total_fornecedores is at most 10: every invoice is counted for one
    supplier, the one named 'N/A' when it names no issuer. *)
Theorem supplier_invoice_counts (inv : Invoice) (invs : list Invoice) (r : value) :
  analisar_multiplas_notas (inv :: invs) = Ok r ->
  exists names counts n,
    map (fun f => path_get f ["nome"]) (top_fornecedores_of r)
    = map (fun s => Some (VStr s)) names
    /\ map (fun f => path_get f ["quantidade_notas"]) (top_fornecedores_of r)
       = map (fun c => Some (VInt c)) counts
    /\ NoDup names
    /\ Forall (fun c => 1 <= c) counts
    /\ path_get r ["metricas_gerais"; "total_fornecedores"] = Some (VInt (Z.of_nat n))
    /\ fold_right Z.add 0 counts <= Z.of_nat (List.length (inv :: invs))
    /\ ((n <= 10)%nat ->
        fold_right Z.add 0 counts = Z.of_nat (List.length (inv :: invs))).
Proof.
  intros H.
  destruct (analisar_multiplas_notas_suppliers inv invs r H)
    as (a & entries & b & A & _ & E & T & N).
  destruct (fornecedor_entries_fields _ _ _ E) as [F1 F2].
  pose proof (accumulate_all_ledger _ _ _ _ _ ledger_ok_acc0 A)
    as (N1 & P1 & T1 & _).
  cbn [app] in T1. rewrite Z.add_0_l in T1.
  set (key := fun e : F64.t * value * value => fst (fst e)) in *.
  destruct (top_projection _ _ key _ _ F1) as (names & Q1 & M1).
  destruct (top_projection _ _ key _ _ F2) as (counts & Q2 & M2).
  assert (P : Forall (fun c => 1 <= c) counts).
  { eapply Permutation_Forall; [exact Q2 |]. apply Forall_map. exact P1. }
  assert (S : fold_right Z.add 0 counts = Z.of_nat (List.length (inv :: invs))).
  { rewrite <- (sum_perm _ _ Q2), <- tally_sum. exact T1. }
  exists (firstn 10 names), (firstn 10 counts), (List.length (fornecedores a)).
  rewrite T, !map_map.
  split; [exact M1 |]. split; [exact M2 |].
  split; [apply NoDup_firstn; eapply Permutation_NoDup; eauto |].
  split; [now apply Forall_firstn |].
  split; [exact N |].
  split; [rewrite <- S; now apply sum_firstn |].
  intros L. rewrite firstn_all2; [exact S |].
  rewrite <- (Permutation_length Q2), length_map. exact L.
Qed.

Lemma supplier_invoice_counts_witness :
  exists r names counts,
    analisar_multiplas_notas lote_exemplo = Ok r
    /\ map (fun f => path_get f ["nome"]) (top_fornecedores_of r)
       = map (fun s => Some (VStr s)) names
    /\ map (fun f => path_get f ["quantidade_notas"]) (top_fornecedores_of r)
       = map (fun c => Some (VInt c)) counts
    /\ NoDup names
    /\ fold_right Z.add 0 counts <= 3.
Proof.
  destruct (analisar_multiplas_notas lote_exemplo) as [r |] eqn:E;
    [| vm_compute in E; discriminate E].
  destruct (supplier_invoice_counts
              exemplo_nf_com_none [nota_sem_ipi; nota_sem_emitente] r E)
    as (names & counts & n & A & B & C & _ & _ & D & _).
  exists r, names, counts. split; [reflexivity |].
  split; [exact A |]. split; [exact B |]. split; [exact C | exact D].
Defined.

(** X22.  In a report of [analisar_multiplas_notas] over a batch that is
    not empty, evolucao_temporal lists the months in strictly ascending
    order, each once; the months listed are the first seven characters of
    the dates of the invoices that carry a date that is not empty; every
    month has quantidade_notas at least 1, and these numbers add up to the
    number of invoices that carry such a date. *)
Theorem monthly_evolution (inv : Invoice) (invs : list Invoice) (r : value) :
  analisar_multiplas_notas (inv :: invs) = Ok r ->
  exists months counts,
    map (fun e => path_get e ["mes"]) (evolucao_of r)
    = map (fun m => Some (VStr m)) months
    /\ map (fun e => path_get e ["quantidade_notas"]) (evolucao_of r)
       = map (fun c => Some (VInt c)) counts
    /\ ascending months
    /\ (forall m,
          In m months
          <-> exists i, In i (inv :: invs) /\ dated i = true /\ month_of i = m)
    /\ Forall (fun c => 1 <= c) counts
    /\ fold_right Z.add 0 counts = count_where dated (inv :: invs).
Proof.
  intros H.
  destruct (analisar_multiplas_notas_evolucao inv invs r H) as (a & A & E).
  pose proof (accumulate_all_ledger _ _ _ _ _ ledger_ok_acc0 A)
    as (_ & _ & _ & N2 & P2 & T2 & K).
  cbn [app] in T2, K.
  pose proof (sorted_items_perm (notas_por_mes a)) as Q.
  exists (map fst (sorted_items (notas_por_mes a))),
         (map (fun kv => m_quantidade (snd kv)) (sorted_items (notas_por_mes a))).
  rewrite E, !map_map.
  split; [apply map_ext; now intros [m d] |].
  split; [apply map_ext; now intros [m d] |].
  split.
  { apply no_fall_ascending; [| apply sorted_items_no_fall].
    eapply Permutation_NoDup; [| exact N2].
    apply Permutation_map. now symmetry. }
  split.
  { intros m. rewrite <- K. split; apply Permutation_in, Permutation_map;
      [exact Q | now symmetry]. }
  split.
  { apply Forall_map. eapply Permutation_Forall; [symmetry; exact Q | exact P2]. }
  rewrite <- tally_sum, (tally_perm _ _ _ Q). exact T2.
Qed.

Lemma monthly_evolution_witness :
  exists r months counts,
    analisar_multiplas_notas lote_exemplo = Ok r
    /\ map (fun e => path_get e ["mes"]) (evolucao_of r)
       = map (fun m => Some (VStr m)) months
    /\ map (fun e => path_get e ["quantidade_notas"]) (evolucao_of r)
       = map (fun c => Some (VInt c)) counts
    /\ ascending months
    /\ fold_right Z.add 0 counts = 3.
Proof.
  destruct (analisar_multiplas_notas lote_exemplo) as [r |] eqn:E;
    [| vm_compute in E; discriminate E].
  destruct (monthly_evolution
              exemplo_nf_com_none [nota_sem_ipi; nota_sem_emitente] r E)
    as (months & counts & A & B & C & _ & _ & D).
  exists r, months, counts. split; [reflexivity |].
  split; [exact A |]. split; [exact B |]. split; [exact C | exact D].
Defined.
